(** * Kubernetes-as-a-Service: the three Flask services, embedded and verified

  The repository holds three request handlers written against the
  Kubernetes Python client:

  - [APIs/service_1.py]    [POST /deploy]           (module [Service1])
  - [APIs/postgres_api.py] [POST /deploy_postgres]  (module [PostgresApi])
  - [APIs/service_3.py]    [GET /status/all]        (module [Service3])

  Python [str] values are modelled by their UTF-8 byte strings, so that
  [s.encode('utf-8')] and [b.decode('utf-8')] are the identity on the
  representation.  A Python [dict] used as a map is a [gmap].  The cluster
  is an oracle answering each call of the client; the handlers thread the
  list of calls made so far, in order, with the answer each one got. *)

From Stdlib Require Import ZArith NArith Ascii String List.
From stdpp Require Import base decidable option list gmap strings.

Local Open Scope string_scope.
Local Open Scope Z_scope.
Local Open Scope list_scope.

(** ** The parts of the Python standard library the services call *)

Module Python.

(** [base64.b64encode] (RFC 4648, standard alphabet, [=] padding). *)
Definition b64_alphabet : list ascii :=
  list_ascii_of_string
    "ABCDEFGHIJKLMNOPQRSTUVWXYZabcdefghijklmnopqrstuvwxyz0123456789+/".

Definition b64_digit (n : N) : ascii :=
  nth (N.to_nat n) b64_alphabet "="%char.

Fixpoint b64encode (s : string) : string :=
  match s with
  | EmptyString => EmptyString
  | String a EmptyString =>
      let x := N_of_ascii a in
      String (b64_digit (N.shiftr x 2))
        (String (b64_digit (N.shiftl (N.land x 3) 4)) "==")
  | String a (String b EmptyString) =>
      let x := N_of_ascii a in
      let y := N_of_ascii b in
      String (b64_digit (N.shiftr x 2))
        (String (b64_digit (N.lor (N.shiftl (N.land x 3) 4) (N.shiftr y 4)))
           (String (b64_digit (N.shiftl (N.land y 15) 2)) "="))
  | String a (String b (String c rest)) =>
      let x := N_of_ascii a in
      let y := N_of_ascii b in
      let z := N_of_ascii c in
      String (b64_digit (N.shiftr x 2))
        (String (b64_digit (N.lor (N.shiftl (N.land x 3) 4) (N.shiftr y 4)))
           (String (b64_digit (N.lor (N.shiftl (N.land y 15) 2) (N.shiftr z 6)))
              (String (b64_digit (N.land z 63)) (b64encode rest))))
  end.

(** The position of a character in the alphabet of base64. *)
Definition b64_index (c : ascii) : option N :=
  let n := N_of_ascii c in
  if ((65 <=? n) && (n <=? 90))%N then Some (n - 65)%N
  else if ((97 <=? n) && (n <=? 122))%N then Some (n - 71)%N
  else if ((48 <=? n) && (n <=? 57))%N then Some (n + 4)%N
  else if (n =? 43)%N then Some 62%N
  else if (n =? 47)%N then Some 63%N
  else None.

(** Decoding of the text [b64encode] produces: four characters give three
    bytes, two with one [=] of padding, one with two. *)
Fixpoint b64decode (s : string) : option string :=
  match s with
  | EmptyString => Some EmptyString
  | String c0 (String c1 (String c2 (String c3 rest))) =>
      match b64_index c0, b64_index c1 with
      | Some d0, Some d1 =>
          let b0 := ascii_of_N (N.lor (N.shiftl d0 2) (N.shiftr d1 4)) in
          if Ascii.eqb c2 "="%char then Some (String b0 EmptyString)
          else
            match b64_index c2 with
            | Some d2 =>
                let b1 := ascii_of_N (N.lor (N.shiftl (N.land d1 15) 4) (N.shiftr d2 2)) in
                if Ascii.eqb c3 "="%char then Some (String b0 (String b1 EmptyString))
                else
                  match b64_index c3, b64decode rest with
                  | Some d3, Some r =>
                      let b2 := ascii_of_N (N.lor (N.shiftl (N.land d2 3) 6) d3) in
                      Some (String b0 (String b1 (String b2 r)))
                  | _, _ => None
                  end
            | None => None
            end
      | _, _ => None
      end
  | _ => None
  end.

(** [string.ascii_letters + string.digits] *)
Definition ascii_lowercase : string := "abcdefghijklmnopqrstuvwxyz".
Definition ascii_uppercase : string := "ABCDEFGHIJKLMNOPQRSTUVWXYZ".
Definition ascii_letters : string := ascii_lowercase +:+ ascii_uppercase.
Definition digits : string := "0123456789".

(** What [except] clauses can tell apart: the client's [ApiException],
    which carries the HTTP status the cluster answered with, and every
    other [Exception] (named by its class). *)
Inductive exn : Type :=
| ApiException (status : Z)
| Exception (cls : string).

Inductive result (A : Type) : Type :=
| Returns (a : A)
| Raises (e : exn).
Global Arguments Returns {A} a.
Global Arguments Raises {A} e.

#[global] Instance result_ret : MRet result := fun A a => Returns a.

#[global] Instance result_bind : MBind result := fun A B k r =>
  match r with
  | Returns a => k a
  | Raises e => Raises e
  end.

(** A [str] is kept as its UTF-8 bytes.  [str.isspace], which [str.strip]
    goes by, holds of the code points U+0009..U+000D, U+001C..U+0020,
    U+0085, U+00A0, U+1680, U+2000..U+200A, U+2028, U+2029, U+202F, U+205F
    and U+3000, which take one, two or three bytes.  [isspace] is the test
    on a character of one byte: tab, line feed, vertical tab, form feed,
    carriage return, the four separators 28..31, and the space. *)
Definition isspace (c : ascii) : bool :=
  let n := nat_of_ascii c in
  ((9 <=? n) && (n <=? 13) || (28 <=? n) && (n <=? 32))%nat.

(** On a character of two bytes: U+0085 (C2 85) and U+00A0 (C2 A0). *)
Definition isspace2 (c1 c2 : ascii) : bool :=
  let n1 := nat_of_ascii c1 in
  let n2 := nat_of_ascii c2 in
  ((n1 =? 194) && ((n2 =? 133) || (n2 =? 160)))%nat.

(** On a character of three bytes: U+1680 (E1 9A 80), U+2000..U+200A
    (E2 80 80 .. E2 80 8A), U+2028, U+2029 and U+202F (E2 80 A8, A9, AF),
    U+205F (E2 81 9F) and U+3000 (E3 80 80). *)
Definition isspace3 (c1 c2 c3 : ascii) : bool :=
  let n1 := nat_of_ascii c1 in
  let n2 := nat_of_ascii c2 in
  let n3 := nat_of_ascii c3 in
  ((n1 =? 225) && (n2 =? 154) && (n3 =? 128)
   || (n1 =? 226) && (n2 =? 128)
      && ((128 <=? n3) && (n3 <=? 138) || (n3 =? 168) || (n3 =? 169) || (n3 =? 175))
   || (n1 =? 226) && (n2 =? 129) && (n3 =? 159)
   || (n1 =? 227) && (n2 =? 128) && (n3 =? 128))%nat.

(** [s.lstrip()]: the white space characters [s] starts with are dropped. *)
Fixpoint lstrip (s : string) : string :=
  match s with
  | EmptyString => EmptyString
  | String c1 r1 =>
      if isspace c1 then lstrip r1
      else match r1 with
           | EmptyString => s
           | String c2 r2 =>
               if isspace2 c1 c2 then lstrip r2
               else match r2 with
                    | EmptyString => s
                    | String c3 r3 => if isspace3 c1 c2 c3 then lstrip r3 else s
                    end
           end
  end.

(** [s] is made of white space characters only. *)
Definition isblank (s : string) : bool :=
  if decide (lstrip s = EmptyString) then true else false.

(** [s.rstrip()]: [s] is cut where its last run of white space characters
    starts. *)
Fixpoint rstrip (s : string) : string :=
  match s with
  | EmptyString => EmptyString
  | String c r => if isblank s then EmptyString else String c (rstrip r)
  end.

(** [s.strip()] *)
Definition strip (s : string) : string := rstrip (lstrip s).

(** [s.split(sep)] for a one-character separator: never an empty list. *)
Fixpoint split (sep : ascii) (s : string) : list string :=
  match s with
  | EmptyString => [EmptyString]
  | String c r =>
      if Ascii.eqb c sep then EmptyString :: split sep r
      else match split sep r with
           | h :: t => String c h :: t
           | [] => [String c EmptyString]
           end
  end.

Definition LF : ascii := "010"%char.
Definition CR : ascii := "013"%char.

(** Iterating over a file opened in text mode: the lines, each with its
    terminator, which universal newlines turn into a line feed. *)
Fixpoint readlines (s : string) : list string :=
  match s with
  | EmptyString => []
  | String c r =>
      if Ascii.eqb c LF then String LF EmptyString :: readlines r
      else if Ascii.eqb c CR then
        match r with
        | String c' r' =>
            if Ascii.eqb c' LF then String LF EmptyString :: readlines r'
            else String LF EmptyString :: readlines r
        | EmptyString => [String LF EmptyString]
        end
      else match readlines r with
           | h :: t => String c h :: t
           | [] => [String c EmptyString]
           end
  end.

(** A file opened by [open(filepath, 'r')], as the loop [for line in file]
    sees it: the lines the iteration yields, decoded, and whether it then
    ends on a [UnicodeDecodeError], the bytes that follow not being text in
    the encoding of the file. *)
Record TextIO := {
  lines_of : list string;
  undecodable : bool }.

(** The file that holds the text [s], all of it decoded. *)
Definition text_file (s : string) : TextIO :=
  {| lines_of := readlines s; undecodable := false |}.

(** [random.choices(population, k=k)]: [draw i] is the index the generator
    picks at its [i]-th draw, the [floor(random() * n)] of CPython, with [n]
    the size of the population.  Indexing outside the population raises. *)
Fixpoint choices (population : string) (draw : nat -> nat) (i k : nat)
    : result (list ascii) :=
  match k with
  | O => Returns []
  | S k' =>
      match String.get (draw i) population with
      | None => Raises (Exception "IndexError")
      | Some c => rest ← choices population draw (S i) k'; Returns (c :: rest)
      end
  end.

(** An ASCII letter or digit, by its code: [0-9], [A-Z], [a-z]. *)
Definition isalnum (c : ascii) : bool :=
  let n := nat_of_ascii c in
  ((48 <=? n) && (n <=? 57) || (65 <=? n) && (n <=? 90)
   || (97 <=? n) && (n <=? 122))%nat.

(** The number of occurrences of a character in a string. *)
Fixpoint count_char (c : ascii) (s : string) : nat :=
  match s with
  | EmptyString => O
  | String a r => ((if Ascii.eqb a c then 1 else 0) + count_char c r)%nat
  end.

(** [''.join(chars)] *)
Definition join (chars : list ascii) : string := string_of_list_ascii chars.

End Python.
Export Python.


(** ** The Kubernetes client: resource bodies, calls, and the cluster *)

Module K8s.

Record V1Secret := {
  secret_metadata_name : string;
  secret_data : gmap string string }.

Record V1ConfigMap := {
  configmap_metadata_name : string;
  configmap_data : gmap string string }.

Record V1SecretKeySelector := {
  selector_name : string;
  selector_key : string }.

Record V1EnvVar := {
  env_name : string;
  env_value : option string;
  env_value_from : option V1SecretKeySelector }.

Record V1VolumeMount := {
  mount_name : string;
  mount_path : string;
  sub_path : string }.

Record V1Volume := {
  volume_name : string;
  volume_config_map : string }.

Record V1Container := {
  container_name : string;
  image : string;
  container_port : Z;
  env : list V1EnvVar;
  volume_mounts : list V1VolumeMount;
  requests : gmap string string }.

Record V1PodTemplateSpec := {
  template_labels : gmap string string;
  containers : list V1Container;
  volumes : list V1Volume }.

Record V1Deployment := {
  deployment_metadata_name : string;
  deployment_replicas : Z;
  deployment_template : V1PodTemplateSpec;
  deployment_selector : gmap string string }.

Record V1PersistentVolumeClaim := {
  pvc_metadata_name : string;
  access_modes : list string;
  pvc_requests : gmap string string }.

Record V1StatefulSet := {
  statefulset_metadata_name : string;
  service_name : string;
  statefulset_replicas : Z;
  statefulset_selector : gmap string string;
  statefulset_template : V1PodTemplateSpec;
  volume_claim_templates : list V1PersistentVolumeClaim }.

Record V1Service := {
  service_metadata_name : string;
  service_selector : gmap string string;
  port : Z;
  target_port : Z;
  service_type : option string }.

Record V1Ingress := {
  ingress_metadata_name : string;
  host : string;
  path : string;
  path_type : string;
  backend_service_name : string;
  backend_port_number : Z }.

(** One call of the client, with the namespace and the body it is given. *)
Inductive call : Type :=
| create_namespaced_secret (namespace : string) (body : V1Secret)
| create_namespaced_config_map (namespace : string) (body : V1ConfigMap)
| create_namespaced_deployment (namespace : string) (body : V1Deployment)
| create_namespaced_stateful_set (namespace : string) (body : V1StatefulSet)
| create_namespaced_service (namespace : string) (body : V1Service)
| create_namespaced_ingress (namespace : string) (body : V1Ingress).

Inductive kind : Type :=
| KSecret | KConfigMap | KDeployment | KStatefulSet | KService | KIngress.

Definition kind_of (c : call) : kind :=
  match c with
  | create_namespaced_secret _ _ => KSecret
  | create_namespaced_config_map _ _ => KConfigMap
  | create_namespaced_deployment _ _ => KDeployment
  | create_namespaced_stateful_set _ _ => KStatefulSet
  | create_namespaced_service _ _ => KService
  | create_namespaced_ingress _ _ => KIngress
  end.

Definition metadata_name (c : call) : string :=
  match c with
  | create_namespaced_secret _ b => secret_metadata_name b
  | create_namespaced_config_map _ b => configmap_metadata_name b
  | create_namespaced_deployment _ b => deployment_metadata_name b
  | create_namespaced_stateful_set _ b => statefulset_metadata_name b
  | create_namespaced_service _ b => service_metadata_name b
  | create_namespaced_ingress _ b => ingress_metadata_name b
  end.



(** The ingress bodies and the service bodies among a list of calls. *)
Definition ingresses (cs : list call) : list V1Ingress :=
  omap (fun c => match c with create_namespaced_ingress _ b => Some b | _ => None end) cs.

Definition services (cs : list call) : list V1Service :=
  omap (fun c => match c with create_namespaced_service _ b => Some b | _ => None end) cs.

Definition secrets (cs : list call) : list V1Secret :=
  omap (fun c => match c with create_namespaced_secret _ b => Some b | _ => None end) cs.

(** A call is answered by [None] (the object was created) or by the exception
    the client raises.  The log keeps every call made, with its answer. *)
Abbreviation event := (call * option exn)%type.

(** The cluster, seen from one request: it answers a call knowing the calls
    the request made before. *)
Definition cluster : Type := list event -> call -> option exn.

Definition accept_all : cluster := fun _ _ => None.

(** Handler code: it runs against a cluster, extends the log, and returns or
    raises. *)
Definition M (A : Type) : Type := cluster -> list event -> result A * list event.

#[global] Instance M_ret : MRet M := fun A a _ log => (Returns a, log).

#[global] Instance M_bind : MBind M := fun A B k m api log =>
  match m api log with
  | (Returns a, log') => k a api log'
  | (Raises e, log') => (Raises e, log')
  end.

Definition raise {A : Type} (e : exn) : M A := fun _ log => (Raises e, log).

Definition submit (c : call) : M unit := fun api log =>
  match api log c with
  | None => (Returns tt, log ++ [(c, None)])
  | Some e => (Raises e, log ++ [(c, Some e)])
  end.

Definition run {A : Type} (m : M A) (api : cluster) : result A * list event :=
  m api [].

(** The calls of a log, and those the cluster accepted. *)
Definition calls (log : list event) : list call := fst <$> log.

Definition created (log : list event) : list call :=
  omap (fun ev : event => match ev.2 with None => Some ev.1 | Some _ => None end) log.

(** The bodies a piece of handler code submits, in order, when nothing is
    refused. *)
Definition manifest {A : Type} (m : M A) : list call := calls (run m accept_all).2.

(** Straight-line submission: the calls of [cs] one after the other, the
    first refusal ending the sequence.  The handlers are shown below to be
    of this shape. *)
Fixpoint submit_all (cs : list call) : M unit :=
  match cs with
  | [] => mret tt
  | c :: rest => submit c;; submit_all rest
  end.

Definition accepted (cs : list call) : list event := (fun c => (c, None)) <$> cs.


(** The secret references in the environment of the containers of a pod
    template. *)
Definition secret_refs (t : V1PodTemplateSpec) : list V1SecretKeySelector :=
  omap env_value_from (containers t ≫= env).

(** The naming scheme, as a function of the application name and the kind:
    [{name}-secret], [{name}-config], and [{name}] for the other kinds. *)
Definition derived_name (app_name : string) (k : kind) : string :=
  match k with
  | KSecret => app_name +:+ "-secret"
  | KConfigMap => app_name +:+ "-config"
  | KDeployment | KStatefulSet | KService | KIngress => app_name
  end.

(** The claim templates of the stateful sets among a list of calls. *)
Definition claim_templates (cs : list call) : list V1PersistentVolumeClaim :=
  cs ≫= (fun c => match c with
                  | create_namespaced_stateful_set _ b => volume_claim_templates b
                  | _ => []
                  end).

(** What a handler gives back to Flask: a JSON body and a status code. *)
Inductive body : Type :=
| Message (text : string)
| Error (text : string)
| ErrorOf (e : exn).

Definition response : Type := body * Z.

End K8s.
Export K8s.

(** ** APIs/service_1.py: [POST /deploy] *)

Module Service1.

(** One element of [data['Envs']]. *)
Record Env := {
  Key : string;
  Value : string;
  IsSecret : bool }.

Record Resources := {
  CPU : string;
  RAM : string }.

(** [request.json], with the fields the handler reads. *)
Record DeployRequest := {
  AppName : string;
  Replicas : Z;
  ImageAddress : string;
  ImageTag : string;
  DomainAddress : string;
  ServicePort : Z;
  ResourcesOf : Resources;
  Envs : list Env }.

(** The loop filling [secret_data]: a later entry overwrites an earlier one
    with the same key. *)
Definition secret_data_of (envs : list Env) : gmap string string :=
  foldl (fun d e => if IsSecret e then <[Key e := b64encode (Value e)]> d else d)
        ∅ envs.

(** The last entry of [envs] that is marked secret and has the key [k]
    carries the value [v]. *)
Definition last_marked (envs : list Env) (k v : string) : Prop :=
  exists l1 e l2,
    envs = l1 ++ e :: l2 /\ IsSecret e = true /\ Key e = k /\ Value e = v /\
    Forall (fun e' => IsSecret e' = true -> Key e' <> k) l2.

(** [create_secret]: the two [except] clauses print and re-raise, so they do
    not change what the caller sees. *)
Definition create_secret (app_name : string) (envs : list Env) : M unit :=
  let secret_data := secret_data_of envs in
  if decide (secret_data = ∅) then mret tt
  else submit (create_namespaced_secret "default"
                 {| secret_metadata_name := app_name +:+ "-secret";
                    secret_data := secret_data |}).

Definition plain_env (e : Env) : V1EnvVar :=
  {| env_name := Key e; env_value := Some (Value e); env_value_from := None |}.

Definition secret_env (app_name : string) (e : Env) : V1EnvVar :=
  {| env_name := Key e; env_value := None;
     env_value_from := Some {| selector_name := app_name +:+ "-secret";
                                selector_key := Key e |} |}.

Definition deployment_body (app_name : string) (replicas : Z)
    (image_address image_tag : string) (resources : Resources)
    (envs : list Env) (service_port : Z) : V1Deployment :=
  let container :=
    {| container_name := app_name;
       image := image_address +:+ ":" +:+ image_tag;
       container_port := service_port;
       env := ((plain_env <$> filter (fun e => IsSecret e = false) envs) ++
               (secret_env app_name <$> filter (fun e => IsSecret e = true) envs))%list;
       volume_mounts := [];
       requests := <["memory" := RAM resources]> (<["cpu" := CPU resources]> ∅) |} in
  let template :=
    {| template_labels := {["app" := app_name]};
       containers := [container];
       volumes := [] |} in
  {| deployment_metadata_name := app_name;
     deployment_replicas := replicas;
     deployment_template := template;
     deployment_selector := {["app" := app_name]} |}.

Definition create_deployment (app_name : string) (replicas : Z)
    (image_address image_tag : string) (resources : Resources)
    (envs : list Env) (service_port : Z) : M unit :=
  submit (create_namespaced_deployment "default"
            (deployment_body app_name replicas image_address image_tag
               resources envs service_port)).

Definition service_body (app_name : string) (service_port : Z) : V1Service :=
  {| service_metadata_name := app_name;
     service_selector := {["app" := app_name]};
     port := service_port;
     target_port := service_port;
     service_type := None |}.

Definition create_service (app_name : string) (service_port : Z) : M unit :=
  submit (create_namespaced_service "default" (service_body app_name service_port)).

Definition ingress_body (app_name domain_address : string) (service_port : Z)
    : V1Ingress :=
  {| ingress_metadata_name := app_name;
     host := domain_address;
     path := "/";
     path_type := "Prefix";
     backend_service_name := app_name;
     backend_port_number := service_port |}.

Definition create_ingress (app_name domain_address : string) (service_port : Z)
    : M unit :=
  submit (create_namespaced_ingress "default"
            (ingress_body app_name domain_address service_port)).

Definition create_k8s_objects (app_name : string) (replicas : Z)
    (image_address image_tag domain_address : string) (service_port : Z)
    (resources : Resources) (envs : list Env) : M unit :=
  create_secret app_name envs;;
  create_deployment app_name replicas image_address image_tag resources envs
    service_port;;
  create_service app_name service_port;;
  create_ingress app_name domain_address service_port.

(** The body of the [try] block of the handler, for the request [data]. *)
Definition deploy (data : DeployRequest) : M unit :=
  create_k8s_objects (AppName data) (Replicas data) (ImageAddress data)
    (ImageTag data) (DomainAddress data) (ServicePort data)
    (ResourcesOf data) (Envs data).

(** [deploy_application]: the response, and the calls the request made. *)
Definition deploy_application (api : cluster) (data : DeployRequest)
    : response * list event :=
  match run (deploy data) api with
  | (Returns _, log) => ((Message "Deployment initiated", 200), log)
  | (Raises (ApiException status), log) =>
      if status =? 409
      then ((Error "Conflict: A resource with the same name already exists.", 409), log)
      else ((ErrorOf (ApiException status), 500), log)
  | (Raises e, log) => ((ErrorOf e, 500), log)
  end.

(** The calls of [create_k8s_objects] in program order. *)
Definition planned (data : DeployRequest) : list call :=
  let app_name := AppName data in
  ((if decide (secret_data_of (Envs data) = ∅) then []
    else [create_namespaced_secret "default"
            {| secret_metadata_name := app_name +:+ "-secret";
               secret_data := secret_data_of (Envs data) |}]) ++
   [create_namespaced_deployment "default"
      (deployment_body app_name (Replicas data) (ImageAddress data)
         (ImageTag data) (ResourcesOf data) (Envs data) (ServicePort data));
    create_namespaced_service "default" (service_body app_name (ServicePort data));
    create_namespaced_ingress "default"
      (ingress_body app_name (DomainAddress data) (ServicePort data))])%list.

End Service1.

(** ** APIs/postgres_api.py: [POST /deploy_postgres] *)

Module PostgresApi.

Record Resources := {
  cpu : string;
  memory : string }.

Record PostgresRequest := {
  AppName : string;
  ResourcesOf : Resources;
  External : bool }.

(** Code that only computes is run inside a handler as it is. *)
Definition lift {A : Type} (r : result A) : M A := fun _ log => (r, log).

(** The loop of [read_config_file] over the lines of the file. *)
Fixpoint config_lines (lines : list string) (config_data : gmap string string)
    : result (gmap string string) :=
  match lines with
  | [] => Returns config_data
  | line :: rest =>
      if decide (strip line = "") then config_lines rest config_data
      else match split "="%char line with
           | [key; value] =>
               config_lines rest (<[strip key := strip value]> config_data)
           | _ => Raises (Exception "ValueError")
           end
  end.

(** [read_config_file]: [fs] gives the file that [open] returns where the
    path can be opened.  A line that does not split in two raises before the
    lines after it are read; bytes that do not decode raise where the
    iteration reaches them; the two keys are looked up once the loop is
    over. *)
Definition read_config_file (fs : string -> option TextIO) (filepath : string)
    : result (gmap string string) :=
  match fs filepath with
  | None => Raises (Exception "FileNotFoundError")
  | Some file =>
      config_data ← config_lines (lines_of file) ∅;
      if undecodable file then Raises (Exception "UnicodeDecodeError")
      else
      match config_data !! "shared_buffers" with
      | None => Raises (Exception "KeyError")
      | Some shared_buffers =>
          match config_data !! "max_connections" with
          | None => Raises (Exception "KeyError")
          | Some max_connections =>
              Returns {["postgresql.conf" :=
                "shared_buffers = " +:+ shared_buffers +:+ String LF
                  ("max_connections = " +:+ max_connections)]}
          end
      end
  end.

Definition generate_credentials (draw : nat -> nat) : result (string * string) :=
  let username := "postgres_user" in
  chars ← choices (ascii_letters +:+ digits) draw 0 16;
  Returns (username, join chars).

Definition secret_body (app_name username password : string) : V1Secret :=
  {| secret_metadata_name := app_name +:+ "-secret";
     secret_data := <["password" := b64encode password]>
                      (<["username" := b64encode username]> ∅) |}.

Definition create_secret (app_name username password : string) : M unit :=
  submit (create_namespaced_secret "default" (secret_body app_name username password)).

Definition create_configmap (app_name : string) (config_data : gmap string string)
    : M unit :=
  submit (create_namespaced_config_map "default"
            {| configmap_metadata_name := app_name +:+ "-config";
               configmap_data := config_data |}).

Definition secret_ref (app_name var key : string) : V1EnvVar :=
  {| env_name := var; env_value := None;
     env_value_from := Some {| selector_name := app_name +:+ "-secret";
                                selector_key := key |} |}.

Definition statefulset_body (app_name : string) (resources : Resources)
    : V1StatefulSet :=
  let container :=
    {| container_name := app_name;
       image := "postgres:latest";
       container_port := 5432;
       env := [secret_ref app_name "POSTGRES_USER" "username";
               secret_ref app_name "POSTGRES_PASSWORD" "password"];
       volume_mounts := [{| mount_name := app_name +:+ "-config";
                            mount_path := "/etc/postgresql/postgresql.conf";
                            sub_path := "postgresql.conf" |}];
       requests := <["memory" := memory resources]> (<["cpu" := cpu resources]> ∅) |} in
  let volume :=
    {| volume_name := app_name +:+ "-config";
       volume_config_map := app_name +:+ "-config" |} in
  let template :=
    {| template_labels := {["app" := app_name]};
       containers := [container];
       volumes := [volume] |} in
  {| statefulset_metadata_name := app_name;
     service_name := app_name;
     statefulset_replicas := 1;
     statefulset_selector := {["app" := app_name]};
     statefulset_template := template;
     volume_claim_templates :=
       [{| pvc_metadata_name := app_name +:+ "-pvc";
           access_modes := ["ReadWriteOnce"];
           pvc_requests := {["storage" := "1Gi"]} |}] |}.

Definition create_statefulset (app_name : string) (resources : Resources) : M unit :=
  submit (create_namespaced_stateful_set "default" (statefulset_body app_name resources)).

Definition service_body (app_name : string) (external : bool) : V1Service :=
  {| service_metadata_name := app_name;
     service_selector := {["app" := app_name]};
     port := 5432;
     target_port := 5432;
     service_type := if external then Some "LoadBalancer" else None |}.

Definition create_service (app_name : string) (external : bool) : M unit :=
  submit (create_namespaced_service "default" (service_body app_name external)).

Definition ingress_body (app_name : string) : V1Ingress :=
  {| ingress_metadata_name := app_name;
     host := app_name +:+ ".example.com";
     path := "/";
     path_type := "Prefix";
     backend_service_name := app_name;
     backend_port_number := 5432 |}.

Definition create_ingress (app_name : string) : M unit :=
  submit (create_namespaced_ingress "default" (ingress_body app_name)).

(** The body of the [try] block of the handler. *)
Definition deploy (fs : string -> option TextIO) (draw : nat -> nat)
    (data : PostgresRequest) : M unit :=
  let app_name := AppName data in
  let resources := ResourcesOf data in
  let external := External data in
  config_data ← lift (read_config_file fs "postgresql.conf");
  credentials ← lift (generate_credentials draw);
  create_secret app_name credentials.1 credentials.2;;
  create_configmap app_name config_data;;
  create_statefulset app_name resources;;
  create_service app_name external;;
  if external then create_ingress app_name else mret tt.

(** [deploy_postgres]: the response, and the calls the request made. *)
Definition deploy_postgres (api : cluster) (fs : string -> option TextIO)
    (draw : nat -> nat) (data : PostgresRequest) : response * list event :=
  match run (deploy fs draw data) api with
  | (Returns _, log) => ((Message "PostgreSQL deployment initiated", 200), log)
  | (Raises (ApiException status), log) => ((ErrorOf (ApiException status), status), log)
  | (Raises e, log) => ((ErrorOf e, 500), log)
  end.

(** The lines of a configuration file, as [read_config_file] sees them. *)

(** A line that is not blank and does not hold exactly one [=] sign. *)
Definition malformed (line : string) : Prop :=
  strip line <> "" /\ count_char "="%char line <> 1%nat.

(** A line that is not blank and reads [key = value], with [k] and [v] the
    key and the value once stripped. *)
Definition defines (line k v : string) : Prop :=
  strip line <> "" /\
  exists key value, split "="%char line = [key; value] /\ strip key = k /\ strip value = v.

(** The last line of [lines] that defines the key [k] gives it the value
    [v]. *)
Definition last_definition (lines : list string) (k v : string) : Prop :=
  exists l1 line l2,
    lines = l1 ++ line :: l2 /\ defines line k v /\
    Forall (fun line' => forall v', ~ defines line' k v') l2.

(** The calls of [deploy_postgres] in program order, once the configuration
    is read and the credentials are drawn. *)
Definition planned (data : PostgresRequest) (config_data : gmap string string)
    (username password : string) : list call :=
  let app_name := AppName data in
  ([create_namespaced_secret "default" (secret_body app_name username password);
    create_namespaced_config_map "default"
      {| configmap_metadata_name := app_name +:+ "-config";
         configmap_data := config_data |};
    create_namespaced_stateful_set "default"
      (statefulset_body app_name (ResourcesOf data));
    create_namespaced_service "default" (service_body app_name (External data))] ++
   (if External data then [create_namespaced_ingress "default" (ingress_body app_name)]
    else []))%list.

End PostgresApi.

(** ** APIs/service_3.py: [GET /status/all] *)

Module Service3.

Record V1ContainerStateWaiting := {
  waiting_reason : option string }.

Record V1ContainerStateTerminated := {
  terminated_reason : option string }.

(** [container_status.state]: the handler reads [waiting] and [terminated],
    each of which is [None] or an object. *)
Record V1ContainerState := {
  waiting : option V1ContainerStateWaiting;
  terminated : option V1ContainerStateTerminated }.

Record V1ContainerStatus := {
  ready : bool;
  state : V1ContainerState }.

(** A pod as the handler reads it.  [start_time] is the timestamp already
    rendered by [strftime], when there is one. *)
Record V1Pod := {
  pod_metadata_name : string;
  status_phase : string;
  container_statuses : option (list V1ContainerStatus);
  host_ip : option string;
  pod_ip : option string;
  start_time : option string }.

Record V1DeploymentItem := {
  item_metadata_name : string;
  spec_replicas : option Z }.

(** The two listing calls, as the cluster answers them. *)
Record listing := {
  list_namespaced_deployment : string -> result (list V1DeploymentItem);
  list_namespaced_pod : string -> string -> result (list V1Pod) }.

Record pod_status := {
  Name : string;
  Phase : string;
  HostIP : option string;
  PodIP : option string;
  StartTime : option string }.

Record application_status := {
  DeploymentName : string;
  Replicas : option Z;
  ReadyReplicas : Z;
  PodStatuses : list pod_status }.

(** [pod.status.container_statuses or []] *)
Definition statuses_or_empty (pod : V1Pod) : list V1ContainerStatus :=
  match container_statuses pod with
  | Some l => l
  | None => []
  end.

(** The first loop over the container statuses: [containers_ready] starts
    true and the loop stops at the first container that is not ready. *)
Fixpoint containers_ready (statuses : list V1ContainerStatus) : bool :=
  match statuses with
  | [] => true
  | container_status :: rest =>
      if negb (ready container_status) then false else containers_ready rest
  end.

Definition waiting_reasons : list string :=
  ["CrashLoopBackOff"; "ImagePullBackOff"; "ErrImagePull"; "Pending"].

(** The second loop: a waiting reason of the list replaces the phase and
    ends the loop; a terminated reason [Completed] replaces the phase and
    the loop goes on. *)
Fixpoint scan_phase (phase : string) (statuses : list V1ContainerStatus) : string :=
  match statuses with
  | [] => phase
  | container_status :: rest =>
      let after_terminated :=
        match terminated (state container_status) with
        | Some t =>
            if decide (terminated_reason t = Some "Completed")
            then scan_phase "Completed" rest
            else scan_phase phase rest
        | None => scan_phase phase rest
        end in
      match waiting (state container_status) with
      | Some w =>
          match waiting_reason w with
          | Some reason =>
              if decide (reason ∈ waiting_reasons) then reason
              else after_terminated
          | None => after_terminated
          end
      | None => after_terminated
      end
  end.

(** Whether the pod adds one to [ready_replicas]. *)
Definition pod_ready (pod : V1Pod) : bool :=
  bool_decide (status_phase pod = "Running")
  && containers_ready (statuses_or_empty pod).

(** The phase the pod is reported with. *)
Definition pod_phase (pod : V1Pod) : string :=
  scan_phase (status_phase pod) (statuses_or_empty pod).

Definition pod_status_of (pod : V1Pod) : pod_status :=
  {| Name := pod_metadata_name pod;
     Phase := pod_phase pod;
     HostIP := host_ip pod;
     PodIP := pod_ip pod;
     StartTime := start_time pod |}.

(** The loop over [pod_list.items]: the counter and the list it builds. *)
Definition pod_loop (pods : list V1Pod) : Z * list pod_status :=
  foldl (fun acc pod =>
           ((if pod_ready pod then acc.1 + 1 else acc.1),
            (acc.2 ++ [pod_status_of pod])%list))
        (0, []) pods.

Definition status_of (app_name : string) (replicas : option Z) (pods : list V1Pod)
    : application_status :=
  let r := pod_loop pods in
  {| DeploymentName := app_name;
     Replicas := replicas;
     ReadyReplicas := r.1;
     PodStatuses := r.2 |}.

(** The loop over [deployments.items]. *)
Fixpoint deployment_loop (api : listing) (items : list V1DeploymentItem)
    (all_statuses : list application_status) : result (list application_status) :=
  match items with
  | [] => Returns all_statuses
  | deployment :: rest =>
      let app_name := item_metadata_name deployment in
      if decide (app_name = "nginx-ingress-ingress-nginx-controller")
      then deployment_loop api rest all_statuses
      else
        pods ← list_namespaced_pod api "default" ("app=" +:+ app_name);
        deployment_loop api rest
          (all_statuses ++ [status_of app_name (spec_replicas deployment) pods])%list
  end.

Inductive status_response : Type :=
| Statuses (all_statuses : list application_status) (code : Z)
| Failure (e : exn) (code : Z).

(** [get_all_applications_status]: only [ApiException] is caught; any
    other exception leaves the handler. *)
Definition get_all_applications_status (api : listing) : result status_response :=
  match (deployments ← list_namespaced_deployment api "default";
         deployment_loop api deployments []) with
  | Returns all_statuses => Returns (Statuses all_statuses 200)
  | Raises (ApiException status) => Returns (Failure (ApiException status) 500)
  | Raises e => Raises e
  end.

(** The conditions of the classification, on the observation itself. *)

(** The container is in a waiting state with reason [r]. *)
Definition waits_for (c : V1ContainerStatus) (r : string) : Prop :=
  exists w, waiting (state c) = Some w /\ waiting_reason w = Some r.

(** The container is in a waiting state with one of the four reasons. *)
Definition blocked (c : V1ContainerStatus) : Prop :=
  exists r, waits_for c r /\ r ∈ waiting_reasons.

(** The container is in a terminated state with reason [Completed]. *)
Definition completed (c : V1ContainerStatus) : Prop :=
  exists t, terminated (state c) = Some t /\ terminated_reason t = Some "Completed".

(** The raw phase is [Running] and every container reports ready. *)
Definition running_and_ready (pod : V1Pod) : Prop :=
  status_phase pod = "Running" /\
  Forall (fun c => ready c = true) (statuses_or_empty pod).

(** The name under which the ingress controller runs, which the handler
    leaves out of its answer. *)
Definition listed (deployment : V1DeploymentItem) : Prop :=
  item_metadata_name deployment <> "nginx-ingress-ingress-nginx-controller".

(** The entry of the answer for a workload: computed from the pods the
    cluster lists under the label of the workload. *)
Definition entry_of (api : listing) (deployment : V1DeploymentItem)
    (st : application_status) : Prop :=
  exists pods,
    list_namespaced_pod api "default" ("app=" +:+ item_metadata_name deployment)
      = Returns pods /\
    st = status_of (item_metadata_name deployment) (spec_replicas deployment) pods.

#[global] Instance running_and_ready_dec pod : Decision (running_and_ready pod).
Proof. unfold running_and_ready. apply _. Defined.

#[global] Instance blocked_dec c : Decision (blocked c).
Proof.
  unfold blocked, waits_for.
  destruct (waiting (state c)) as [w|] eqn:Hw.
  - destruct (waiting_reason w) as [r|] eqn:Hr.
    + destruct (decide (r ∈ waiting_reasons)) as [Hin|Hin].
      * left. exists r. split; [by exists w | done].
      * right. intros (r' & (w' & [= <-] & Hr') & Hin'). congruence.
    + right. intros (r' & (w' & [= <-] & Hr') & _). congruence.
  - right. by intros (r' & (w' & ? & _) & _).
Defined.

#[global] Instance completed_dec c : Decision (completed c).
Proof.
  unfold completed.
  destruct (terminated (state c)) as [t|] eqn:Ht.
  - destruct (decide (terminated_reason t = Some "Completed")) as [Hc|Hc].
    + left. by exists t.
    + right. intros (t' & [= <-] & ?). done.
  - right. by intros (t' & ? & _).
Defined.

End Service3.

(** ** Concrete requests and clusters, used to run the handlers *)

Module Scenario.

(** The [/deploy] request of the end-to-end scenario. *)
Definition api1 : Service1.DeployRequest :=
  {| Service1.AppName := "api1";
     Service1.Replicas := 2;
     Service1.ImageAddress := "repo/img";
     Service1.ImageTag := "v1";
     Service1.DomainAddress := "api1.example.com";
     Service1.ServicePort := 8080;
     Service1.ResourcesOf := {| Service1.CPU := "100m"; Service1.RAM := "128Mi" |};
     Service1.Envs :=
       [{| Service1.Key := "MODE"; Service1.Value := "prod"; Service1.IsSecret := false |};
        {| Service1.Key := "TOKEN"; Service1.Value := "abc"; Service1.IsSecret := true |}] |}.

(** A [/deploy] request whose environment has no entry marked secret. *)
Definition plain : Service1.DeployRequest :=
  {| Service1.AppName := "web";
     Service1.Replicas := 1;
     Service1.ImageAddress := "nginx";
     Service1.ImageTag := "1.27";
     Service1.DomainAddress := "web.example.com";
     Service1.ServicePort := 80;
     Service1.ResourcesOf := {| Service1.CPU := "50m"; Service1.RAM := "64Mi" |};
     Service1.Envs :=
       [{| Service1.Key := "MODE"; Service1.Value := "prod"; Service1.IsSecret := false |}] |}.

Definition db (external : bool) : PostgresApi.PostgresRequest :=
  {| PostgresApi.AppName := "db";
     PostgresApi.ResourcesOf := {| PostgresApi.cpu := "500m"; PostgresApi.memory := "1Gi" |};
     PostgresApi.External := external |}.

(** A file system holding a well-formed [postgresql.conf], and one that
    holds nothing. *)
Definition conf_text : string :=
  "shared_buffers = 128MB" +:+ String LF ("max_connections = 100" +:+ String LF "").

Definition fs_ok (filepath : string) : option TextIO :=
  if decide (filepath = "postgresql.conf") then Some (text_file conf_text) else None.

Definition fs_empty (filepath : string) : option TextIO := None.

(** A generator whose [i]-th draw is [7 * i + 3] modulo the 62 characters. *)
Definition draw_ok (i : nat) : nat := ((7 * i + 3) mod 62)%nat.

(** A cluster that refuses the call number [n] (from 0) of a request with
    the exception [e], and accepts every other call. *)
Definition refuse_at (n : nat) (e : exn) : cluster :=
  fun log _ => if decide (length log = n) then Some e else None.

(** Container statuses: running and ready, or waiting with a reason. *)
Definition running_container : Service3.V1ContainerStatus :=
  {| Service3.ready := true;
     Service3.state := {| Service3.waiting := None; Service3.terminated := None |} |}.

Definition waiting_container (is_ready : bool) (reason : string)
    : Service3.V1ContainerStatus :=
  {| Service3.ready := is_ready;
     Service3.state :=
       {| Service3.waiting := Some {| Service3.waiting_reason := Some reason |};
          Service3.terminated := None |} |}.

Definition pod (name phase : string)
    (statuses : option (list Service3.V1ContainerStatus)) : Service3.V1Pod :=
  {| Service3.pod_metadata_name := name;
     Service3.status_phase := phase;
     Service3.container_statuses := statuses;
     Service3.host_ip := Some "10.0.0.1";
     Service3.pod_ip := None;
     Service3.start_time := None |}.

(** The namespace of the end-to-end scenario: one workload [web] with two
    declared replicas, pod [A] running and ready, pod [B] unable to pull its
    image. *)
Definition web : Service3.listing :=
  {| Service3.list_namespaced_deployment := fun _ =>
       Returns [{| Service3.item_metadata_name := "web";
                   Service3.spec_replicas := Some 2 |}];
     Service3.list_namespaced_pod := fun _ label_selector =>
       if decide (label_selector = "app=web")
       then Returns [pod "A" "Running" (Some [running_container]);
                     pod "B" "Pending" (Some [waiting_container false "ImagePullBackOff"])]
       else Returns [] |}.

End Scenario.

(** * Properties *)

(** ** Sequential submission *)

Section Orchestrator.

Context (api : cluster).

Lemma submit_all_nil log : submit_all [] api log = (Returns tt, log).
Proof. reflexivity. Qed.

Lemma submit_all_cons c cs log :
  submit_all (c :: cs) api log =
  match api log c with
  | None => submit_all cs api (log ++ [(c, None)])
  | Some e => (Raises e, log ++ [(c, Some e)])
  end.
Proof.
  cbn [submit_all]. unfold mbind, M_bind, submit.
  destruct (api log c); reflexivity.
Qed.

(** A run of [submit_all] either accepts every call, or stops at the first
    refused one, having accepted those before it and made no call after. *)
Lemma submit_all_run cs : forall log,
  (submit_all cs api log = (Returns tt, log ++ accepted cs)) \/
  (exists k c e,
      cs !! k = Some c /\
      api (log ++ accepted (take k cs)) c = Some e /\
      submit_all cs api log =
        (Raises e, log ++ accepted (take k cs) ++ [(c, Some e)])).
Proof.
  induction cs as [|c cs IH]; intros log.
  - left. rewrite submit_all_nil. unfold accepted. cbn. by rewrite app_nil_r.
  - rewrite submit_all_cons. destruct (api log c) as [e|] eqn:Hc.
    + right. exists 0%nat, c, e. cbn. rewrite app_nil_r. done.
    + destruct (IH (log ++ [(c, None)])) as [Hok | (k & c' & e & Hk & Ha & Hr)].
      * left. rewrite Hok. unfold accepted. cbn. by rewrite <- app_assoc.
      * right. exists (S k), c', e. cbn. unfold accepted in *. cbn.
        rewrite <- !app_assoc in *. cbn in *. done.
Qed.

End Orchestrator.

(** Case analysis on the answers of the cluster, one call after the other. *)
Ltac answer_calls :=
  repeat match goal with
    | |- context [match ?api ?log ?c with Some _ => _ | None => _ end] =>
        destruct (api log c)
    end.

(** ** The handlers are straight-line submissions *)

Lemma service1_deploy_planned api data log :
  Service1.deploy data api log = submit_all (Service1.planned data) api log.
Proof.
  unfold Service1.deploy, Service1.create_k8s_objects, Service1.create_secret,
    Service1.create_deployment, Service1.create_service, Service1.create_ingress,
    Service1.planned.
  destruct (decide (Service1.secret_data_of (Service1.Envs data) = ∅));
    cbn [app submit_all]; unfold mbind, M_bind, mret, M_ret, submit;
    answer_calls; reflexivity.
Qed.

Lemma postgres_deploy_planned api fs draw data log config_data credentials :
  PostgresApi.read_config_file fs "postgresql.conf" = Returns config_data ->
  PostgresApi.generate_credentials draw = Returns credentials ->
  PostgresApi.deploy fs draw data api log =
  submit_all (PostgresApi.planned data config_data credentials.1 credentials.2) api log.
Proof.
  intros Hc Hg.
  unfold PostgresApi.deploy, PostgresApi.lift, PostgresApi.create_secret,
    PostgresApi.create_configmap, PostgresApi.create_statefulset,
    PostgresApi.create_service, PostgresApi.create_ingress, PostgresApi.planned.
  unfold mbind at 1. unfold M_bind at 1. rewrite Hc.
  unfold mbind at 1. unfold M_bind at 1. rewrite Hg.
  destruct (PostgresApi.External data);
    cbn [app submit_all]; unfold mbind, M_bind, mret, M_ret, submit;
    answer_calls; reflexivity.
Qed.

Lemma postgres_deploy_no_config api fs draw data log e :
  PostgresApi.read_config_file fs "postgresql.conf" = Raises e ->
  PostgresApi.deploy fs draw data api log = (Raises e, log).
Proof.
  intros Hc. unfold PostgresApi.deploy, PostgresApi.lift.
  unfold mbind at 1. unfold M_bind at 1. by rewrite Hc.
Qed.

Lemma postgres_deploy_no_credentials api fs draw data log config_data e :
  PostgresApi.read_config_file fs "postgresql.conf" = Returns config_data ->
  PostgresApi.generate_credentials draw = Raises e ->
  PostgresApi.deploy fs draw data api log = (Raises e, log).
Proof.
  intros Hc Hg. unfold PostgresApi.deploy, PostgresApi.lift.
  unfold mbind at 1. unfold M_bind at 1. rewrite Hc.
  unfold mbind at 1. unfold M_bind at 1. by rewrite Hg.
Qed.

Lemma calls_accepted cs : calls (accepted cs) = cs.
Proof.
  unfold calls, accepted. rewrite <- list_fmap_compose.
  induction cs as [|c cs IH]; [done | cbn; by rewrite IH].
Qed.

Lemma created_accepted cs : created (accepted cs) = cs.
Proof.
  unfold created, accepted.
  induction cs as [|c cs IH]; [done | cbn; by rewrite IH].
Qed.

Lemma calls_stopped cs k c e :
  cs !! k = Some c ->
  calls (accepted (take k cs) ++ [(c, Some e)]) = take (S k) cs.
Proof.
  intros Hk. unfold calls. rewrite fmap_app. fold (calls (accepted (take k cs))).
  rewrite calls_accepted. cbn. by rewrite (take_S_r _ _ _ Hk).
Qed.

Lemma created_stopped cs k c e :
  created (accepted (take k cs) ++ [(c, Some e)]) = take k cs.
Proof.
  unfold created. rewrite omap_app. fold (created (accepted (take k cs))).
  rewrite created_accepted. cbn. by rewrite app_nil_r.
Qed.

(** The log of a handler is the log of the body of its [try] block. *)
Lemma service1_log api data :
  (Service1.deploy_application api data).2 =
  (submit_all (Service1.planned data) api []).2.
Proof.
  unfold Service1.deploy_application, run. rewrite service1_deploy_planned.
  destruct (submit_all _ api []) as [[u|[status|cls]] log]; cbn; [done| |done].
  by destruct (status =? 409).
Qed.

Lemma postgres_log api fs draw data :
  (PostgresApi.deploy_postgres api fs draw data).2 =
  (PostgresApi.deploy fs draw data api []).2.
Proof.
  unfold PostgresApi.deploy_postgres, run.
  by destruct (PostgresApi.deploy fs draw data api []) as [[u|[status|cls]] log].
Qed.

(** ** Order of submission *)

Lemma secret_data_of_nonempty envs :
  Exists (fun e => Service1.IsSecret e = true) envs ->
  Service1.secret_data_of envs <> ∅.
Proof.
  unfold Service1.secret_data_of.
  assert (Hkeep : forall (l : list Service1.Env) (d : gmap string string), d <> ∅ ->
    foldl (fun d e => if Service1.IsSecret e
                      then <[Service1.Key e := b64encode (Service1.Value e)]> d
                      else d) d l <> ∅).
  { induction l as [|e l IH]; intros d Hd; [done|]. cbn. apply IH.
    destruct (Service1.IsSecret e); [apply insert_non_empty | done]. }
  intros Hex.
  enough (Hgen : forall d : gmap string string,
    foldl (fun d e => if Service1.IsSecret e
                      then <[Service1.Key e := b64encode (Service1.Value e)]> d
                      else d) d envs <> ∅) by apply Hgen.
  induction envs as [|e envs IH]; intros d.
  - by apply Exists_nil in Hex.
  - cbn. apply Exists_cons in Hex as [He | Hex].
    + rewrite He. apply Hkeep, insert_non_empty.
    + by apply IH.
Qed.




(** ** A refused submission ends the request *)

Lemma lookup_accepted cs i c a :
  accepted cs !! i = Some (c, a) -> a = None /\ cs !! i = Some c.
Proof.
  unfold accepted. rewrite list_lookup_fmap.
  destruct (cs !! i) as [c'|]; cbn; [|done]. by intros [= <- <-].
Qed.

Lemma length_accepted cs : length (accepted cs) = length cs.
Proof. unfold accepted. apply length_fmap. Qed.

(** In a log that stops at a refusal, the refused call is the last one. *)
Lemma lookup_stopped cs k' c' e' k c e :
  cs !! k' = Some c' ->
  (accepted (take k' cs) ++ [(c', Some e')]) !! k = Some (c, Some e) ->
  k = k' /\ c = c' /\ e = e'.
Proof.
  intros Hk' Hk.
  assert (Hlen : length (accepted (take k' cs)) = k').
  { rewrite length_accepted, length_take. apply lookup_lt_Some in Hk'. lia. }
  destruct (decide (k < k')%nat) as [Hlt|Hge].
  - rewrite lookup_app_l in Hk by (rewrite Hlen; lia).
    apply lookup_accepted in Hk as [? _]. done.
  - rewrite lookup_app_r in Hk by (rewrite Hlen; lia). rewrite Hlen in Hk.
    destruct (k - k')%nat as [|n] eqn:Hd; cbn in Hk; [|done].
    injection Hk as <- <-. split; [lia | done].
Qed.

Lemma service1_manifest data :
  manifest (Service1.deploy data) = Service1.planned data.
Proof.
  unfold manifest, run. rewrite service1_deploy_planned.
  destruct (submit_all_run accept_all (Service1.planned data) [])
    as [Hok | (k & c & e & _ & Ha & _)]; [|done].
  rewrite Hok. cbn [snd app]. apply calls_accepted.
Qed.

(** C3. When the cluster refuses the call number [k] of a [/deploy]
    request (counting from 0 in the order the request submits them), the
    calls made are exactly the first [k + 1] of the sequence: the [k] before
    it were accepted and stay created, the refused one is the last call of
    the request, and nothing is submitted after it or undone.  The handler
    answers 409 with the conflict message when the refusal is an
    [ApiException] of status 409, and 500 for any other refusal. *)
Theorem failed_submission_stops_sequence
    (api : cluster) (data : Service1.DeployRequest) (k : nat) (c : call) (e : exn) :
  (Service1.deploy_application api data).2 !! k = Some (c, Some e) ->
  manifest (Service1.deploy data) !! k = Some c /\
  calls (Service1.deploy_application api data).2 =
    take (S k) (manifest (Service1.deploy data)) /\
  created (Service1.deploy_application api data).2 =
    take k (manifest (Service1.deploy data)) /\
  length (Service1.deploy_application api data).2 = S k /\
  (Service1.deploy_application api data).1.2 =
    match e with
    | ApiException status => if status =? 409 then 409 else 500
    | Exception _ => 500
    end /\
  (e = ApiException 409 ->
   (Service1.deploy_application api data).1 =
     (Error "Conflict: A resource with the same name already exists.", 409)).
Proof.
  intros Hk. rewrite service1_manifest.
  pose proof (service1_log api data) as Hlog.
  unfold Service1.deploy_application, run in *.
  rewrite service1_deploy_planned in *.
  destruct (submit_all_run api (Service1.planned data) [])
    as [Hok | (k' & c' & e' & Hk' & _ & Hr)].
  - rewrite Hok in Hk. cbn in Hk. apply lookup_accepted in Hk as [? _]. done.
  - rewrite Hr in Hk |- *. cbn [app] in Hk |- *.
    assert (Hk2 : (accepted (take k' (Service1.planned data)) ++ [(c', Some e')]) !! k
                  = Some (c, Some e)).
    { destruct e' as [status|cls]; [destruct (status =? 409)|]; exact Hk. }
    apply (lookup_stopped _ _ _ _ _ _ _ Hk') in Hk2 as (-> & -> & ->).
    assert (Hk'' := Hk'). apply lookup_lt_Some in Hk''.
    destruct e' as [status|cls]; [destruct (status =? 409) eqn:Hs|]; cbn [fst snd];
      (split; [done|]); (split; [by apply calls_stopped|]);
      (split; [by apply created_stopped|]);
      (split; [rewrite length_app, length_accepted, length_take; cbn; lia|]);
      (split; [done|]); intros [= Hst]; try done.
    subst status. done.
Qed.

Lemma failed_submission_stops_sequence_witness :
  (Service1.deploy_application (Scenario.refuse_at 2 (ApiException 409)) Scenario.api1).2 !! 2%nat
    = Some (create_namespaced_service "default" (Service1.service_body "api1" 8080),
            Some (ApiException 409)) /\
  (Service1.deploy_application (Scenario.refuse_at 2 (ApiException 409)) Scenario.api1).1.2
    = 409.
Proof.
  assert (H : (Service1.deploy_application
                 (Scenario.refuse_at 2 (ApiException 409)) Scenario.api1).2 !! 2%nat
              = Some (create_namespaced_service "default" (Service1.service_body "api1" 8080),
                      Some (ApiException 409))) by (vm_compute; reflexivity).
  split; [exact H|].
  exact (proj1 (proj2 (proj2 (proj2 (proj2
           (failed_submission_stops_sequence _ _ _ _ _ H)))))).
Defined.

(** ** What a request that runs to its end has submitted *)

Lemma service1_success api data :
  (Service1.deploy_application api data).1 = (Message "Deployment initiated", 200) ->
  (Service1.deploy_application api data).2 = accepted (Service1.planned data).
Proof.
  unfold Service1.deploy_application, run. rewrite service1_deploy_planned.
  destruct (submit_all_run api (Service1.planned data) [])
    as [Hok | (k & c & e & _ & _ & Hr)].
  - by rewrite Hok.
  - rewrite Hr. destruct e as [status|cls]; [destruct (status =? 409)|]; cbn; congruence.
Qed.

Lemma postgres_success api fs draw data :
  (PostgresApi.deploy_postgres api fs draw data).1 =
    (Message "PostgreSQL deployment initiated", 200) ->
  exists config_data credentials,
    PostgresApi.read_config_file fs "postgresql.conf" = Returns config_data /\
    PostgresApi.generate_credentials draw = Returns credentials /\
    (PostgresApi.deploy_postgres api fs draw data).2 =
      accepted (PostgresApi.planned data config_data credentials.1 credentials.2).
Proof.
  unfold PostgresApi.deploy_postgres, run.
  destruct (PostgresApi.read_config_file fs "postgresql.conf") as [cfg|e] eqn:Hc.
  - destruct (PostgresApi.generate_credentials draw) as [cr|e] eqn:Hg.
    + rewrite (postgres_deploy_planned _ _ _ _ _ _ _ Hc Hg).
      destruct (submit_all_run api (PostgresApi.planned data cfg cr.1 cr.2) [])
        as [Hok | (k & c & e & _ & _ & Hr)].
      * rewrite Hok. cbn. eauto.
      * rewrite Hr. destruct e; cbn; congruence.
    + rewrite (postgres_deploy_no_credentials _ _ _ _ _ _ _ Hc Hg).
      destruct e; cbn; congruence.
  - rewrite (postgres_deploy_no_config _ _ _ _ _ _ Hc).
    destruct e; cbn; congruence.
Qed.

(** Whatever the cluster answers, the calls made are an initial part of the
    sequence. *)
Lemma calls_submit_all_prefix api cs :
  calls (submit_all cs api []).2 `prefix_of` cs.
Proof.
  destruct (submit_all_run api cs []) as [Hok | (k & c & e & Hk & _ & Hr)].
  - rewrite Hok. cbn. by rewrite calls_accepted.
  - rewrite Hr. cbn. rewrite (calls_stopped _ _ _ _ Hk). apply prefix_take.
Qed.

Lemma omap_prefix {A B} (f : A -> option B) (l1 l2 : list A) :
  l1 `prefix_of` l2 -> omap f l1 `prefix_of` omap f l2.
Proof. intros [rest ->]. rewrite omap_app. by eexists. Qed.

Lemma ingresses_prefix cs1 cs2 :
  cs1 `prefix_of` cs2 -> ingresses cs1 `prefix_of` ingresses cs2.
Proof. apply omap_prefix. Qed.

Lemma secrets_prefix cs1 cs2 :
  cs1 `prefix_of` cs2 -> secrets cs1 `prefix_of` secrets cs2.
Proof. apply omap_prefix. Qed.

Lemma postgres_calls_prefix api fs draw data :
  calls (PostgresApi.deploy_postgres api fs draw data).2 = [] \/
  exists config_data credentials,
    PostgresApi.read_config_file fs "postgresql.conf" = Returns config_data /\
    PostgresApi.generate_credentials draw = Returns credentials /\
    calls (PostgresApi.deploy_postgres api fs draw data).2 `prefix_of`
      PostgresApi.planned data config_data credentials.1 credentials.2.
Proof.
  rewrite postgres_log.
  destruct (PostgresApi.read_config_file fs "postgresql.conf") as [cfg|e] eqn:Hc.
  - destruct (PostgresApi.generate_credentials draw) as [cr|e] eqn:Hg.
    + right. exists cfg, cr. rewrite (postgres_deploy_planned _ _ _ _ _ _ _ Hc Hg).
      split; [done|]. split; [done|]. apply calls_submit_all_prefix.
    + left. by rewrite (postgres_deploy_no_credentials _ _ _ _ _ _ _ Hc Hg).
  - left. by rewrite (postgres_deploy_no_config _ _ _ _ _ _ Hc).
Qed.

(** ** Exposure *)

(** C2. A [/deploy_postgres] request with [External] false submits no
    ingress, whatever the cluster answers.  With [External] true it never
    submits more than one, and a request that runs to its end has submitted
    exactly one ingress and one service, the ingress routing to the name and
    the port of that service.  A [/deploy] request has no exposure mode: it
    is always exposed, and one that runs to its end has submitted exactly one
    ingress, routing to the name and the port of its service. *)
Theorem ingress_by_exposure_mode
    (api : cluster) (fs : string -> option TextIO) (draw : nat -> nat)
    (pdata : PostgresApi.PostgresRequest) (data : Service1.DeployRequest) :
  (PostgresApi.External pdata = false ->
   ingresses (calls (PostgresApi.deploy_postgres api fs draw pdata).2) = []) /\
  (PostgresApi.External pdata = true ->
   (length (ingresses (calls (PostgresApi.deploy_postgres api fs draw pdata).2)) <= 1)%nat /\
   ((PostgresApi.deploy_postgres api fs draw pdata).1 =
      (Message "PostgreSQL deployment initiated", 200) ->
    exists ing svc,
      ingresses (calls (PostgresApi.deploy_postgres api fs draw pdata).2) = [ing] /\
      services (calls (PostgresApi.deploy_postgres api fs draw pdata).2) = [svc] /\
      backend_service_name ing = service_metadata_name svc /\
      backend_port_number ing = port svc)) /\
  ((length (ingresses (calls (Service1.deploy_application api data).2)) <= 1)%nat /\
   ((Service1.deploy_application api data).1 = (Message "Deployment initiated", 200) ->
    exists ing svc,
      ingresses (calls (Service1.deploy_application api data).2) = [ing] /\
      services (calls (Service1.deploy_application api data).2) = [svc] /\
      backend_service_name ing = service_metadata_name svc /\
      backend_port_number ing = port svc)).
Proof.
  split; [|split].
  - intros Hint.
    destruct (postgres_calls_prefix api fs draw pdata) as [-> | (cfg & cr & _ & _ & Hp)]; [done|].
    apply ingresses_prefix in Hp. unfold PostgresApi.planned in Hp.
    rewrite Hint in Hp. cbn in Hp. by apply prefix_nil_inv in Hp.
  - intros Hext. split.
    + destruct (postgres_calls_prefix api fs draw pdata) as [-> | (cfg & cr & _ & _ & Hp)];
        [cbn; lia|].
      apply ingresses_prefix, prefix_length in Hp. unfold PostgresApi.planned in Hp.
      rewrite Hext in Hp. exact Hp.
    + intros Hok. apply postgres_success in Hok as (cfg & cr & _ & _ & ->).
      rewrite calls_accepted. unfold PostgresApi.planned. rewrite Hext. cbn.
      eexists _, _. repeat split; reflexivity.
  - split.
    + rewrite service1_log.
      pose proof (calls_submit_all_prefix api (Service1.planned data)) as Hp.
      apply ingresses_prefix, prefix_length in Hp.
      etrans; [exact Hp|]. unfold Service1.planned.
      destruct (decide _); cbn; lia.
    + intros Hok. rewrite (service1_success _ _ Hok), calls_accepted.
      unfold Service1.planned. destruct (decide _); cbn;
        eexists _, _; repeat split; reflexivity.
Qed.

Lemma ingress_by_exposure_mode_witness :
  PostgresApi.External (Scenario.db true) = true /\
  (PostgresApi.deploy_postgres accept_all Scenario.fs_ok Scenario.draw_ok (Scenario.db true)).1
    = (Message "PostgreSQL deployment initiated", 200) /\
  exists ing svc,
    ingresses (calls (PostgresApi.deploy_postgres accept_all Scenario.fs_ok
                        Scenario.draw_ok (Scenario.db true)).2) = [ing] /\
    services (calls (PostgresApi.deploy_postgres accept_all Scenario.fs_ok
                       Scenario.draw_ok (Scenario.db true)).2) = [svc] /\
    backend_service_name ing = service_metadata_name svc /\
    backend_port_number ing = port svc.
Proof.
  assert (H1 : PostgresApi.External (Scenario.db true) = true) by reflexivity.
  assert (H2 : (PostgresApi.deploy_postgres accept_all Scenario.fs_ok Scenario.draw_ok
                  (Scenario.db true)).1
               = (Message "PostgreSQL deployment initiated", 200))
    by (vm_compute; reflexivity).
  split; [exact H1|]. split; [exact H2|].
  exact (proj2 (proj1 (proj2 (ingress_by_exposure_mode accept_all Scenario.fs_ok
           Scenario.draw_ok (Scenario.db true) Scenario.api1)) H1) H2).
Defined.

(** ** Names *)

Lemma append_empty_r (s : string) : s +:+ "" = s.
Proof.
  induction s as [|a s IH]; [done|].
  change (String a s +:+ "") with (String a (s +:+ "")). by rewrite IH.
Qed.

Lemma append_suffix_neq (s a b : string) : a <> b -> s +:+ a <> s +:+ b.
Proof. intros Hab Heq. by apply (inj (String.append s)) in Heq. Qed.

Lemma append_suffix_neq_self (s a : string) : a <> "" -> s <> s +:+ a.
Proof.
  intros Ha Heq. rewrite <- (append_empty_r s) in Heq at 1.
  by apply (inj (String.append s)) in Heq.
Qed.

Lemma Forall_prefix {A} (P : A -> Prop) (l1 l2 : list A) :
  l1 `prefix_of` l2 -> Forall P l2 -> Forall P l1.
Proof. intros [rest ->] H. by apply Forall_app in H as [? _]. Qed.

Lemma NoDup_prefix {A} (l1 l2 : list A) :
  l1 `prefix_of` l2 -> NoDup l2 -> NoDup l1.
Proof. intros [rest ->] H. by apply NoDup_app in H as [? _]. Qed.

Lemma fmap_prefix {A B} (f : A -> B) (l1 l2 : list A) :
  l1 `prefix_of` l2 -> (f <$> l1) `prefix_of` (f <$> l2).
Proof. intros [rest ->]. rewrite fmap_app. by eexists. Qed.

Lemma claim_templates_prefix cs1 cs2 :
  cs1 `prefix_of` cs2 -> claim_templates cs1 `prefix_of` claim_templates cs2.
Proof. intros [rest ->]. unfold claim_templates. rewrite bind_app. by eexists. Qed.

(** Lists of distinct constructors have no duplicate. *)
Ltac distinct_kinds :=
  repeat (apply NoDup_cons; split;
          [rewrite ?elem_of_cons, elem_of_nil; intuition discriminate|]);
  apply NoDup_nil_2.

Lemma service1_planned_names data :
  Forall (fun c => metadata_name c = derived_name (Service1.AppName data) (kind_of c))
         (Service1.planned data) /\
  NoDup (kind_of <$> Service1.planned data).
Proof.
  unfold Service1.planned. split.
  - destruct (decide _); cbn; by repeat constructor.
  - destruct (decide _); cbn; distinct_kinds.
Qed.

Lemma postgres_planned_names data config_data username password :
  Forall (fun c => metadata_name c = derived_name (PostgresApi.AppName data) (kind_of c))
         (PostgresApi.planned data config_data username password) /\
  NoDup (kind_of <$> PostgresApi.planned data config_data username password) /\
  Forall (fun t => pvc_metadata_name t = PostgresApi.AppName data +:+ "-pvc")
         (claim_templates (PostgresApi.planned data config_data username password)).
Proof.
  unfold PostgresApi.planned. split; [|split].
  - destruct (PostgresApi.External data); cbn; by repeat constructor.
  - destruct (PostgresApi.External data); cbn; distinct_kinds.
  - destruct (PostgresApi.External data); cbn; by repeat constructor.
Qed.

(** C7. Every resource a request submits is named by [derived_name] from
    the application name and the kind alone: [{name}-secret] for the secret,
    [{name}-config] for the config map, [{name}] for the deployment or
    stateful set, the service and the ingress; the claim template of the
    stateful set is named [{name}-pvc].  A request submits at most one
    resource of each kind, and the four forms of name are pairwise
    distinct.  A request that is answered 200 has submitted them all under
    these names: for [/deploy] the secret, where the environment marks an
    entry, the deployment, the service and the ingress; for
    [/deploy_postgres] the secret, the config map, the stateful set with its
    one claim template, the service and, when external, the ingress. *)
Theorem resource_names_derived
    (api : cluster) (fs : string -> option TextIO) (draw : nat -> nat)
    (pdata : PostgresApi.PostgresRequest) (data : Service1.DeployRequest)
    (app_name : string) :
  Forall (fun c => metadata_name c = derived_name (Service1.AppName data) (kind_of c))
         (calls (Service1.deploy_application api data).2) /\
  NoDup (kind_of <$> calls (Service1.deploy_application api data).2) /\
  Forall (fun c => metadata_name c = derived_name (PostgresApi.AppName pdata) (kind_of c))
         (calls (PostgresApi.deploy_postgres api fs draw pdata).2) /\
  NoDup (kind_of <$> calls (PostgresApi.deploy_postgres api fs draw pdata).2) /\
  Forall (fun t => pvc_metadata_name t = PostgresApi.AppName pdata +:+ "-pvc")
         (claim_templates (calls (PostgresApi.deploy_postgres api fs draw pdata).2)) /\
  NoDup [app_name; derived_name app_name KSecret; derived_name app_name KConfigMap;
         app_name +:+ "-pvc"] /\
  ((Service1.deploy_application api data).1 = (Message "Deployment initiated", 200) ->
   (fun c => (kind_of c, metadata_name c)) <$>
     calls (Service1.deploy_application api data).2 =
   (if decide (Service1.secret_data_of (Service1.Envs data) = ∅) then []
    else [(KSecret, Service1.AppName data +:+ "-secret")]) ++
   [(KDeployment, Service1.AppName data); (KService, Service1.AppName data);
    (KIngress, Service1.AppName data)]) /\
  ((PostgresApi.deploy_postgres api fs draw pdata).1 =
     (Message "PostgreSQL deployment initiated", 200) ->
   (fun c => (kind_of c, metadata_name c)) <$>
     calls (PostgresApi.deploy_postgres api fs draw pdata).2 =
   [(KSecret, PostgresApi.AppName pdata +:+ "-secret");
    (KConfigMap, PostgresApi.AppName pdata +:+ "-config");
    (KStatefulSet, PostgresApi.AppName pdata);
    (KService, PostgresApi.AppName pdata)] ++
   (if PostgresApi.External pdata then [(KIngress, PostgresApi.AppName pdata)] else []) /\
   pvc_metadata_name <$>
     claim_templates (calls (PostgresApi.deploy_postgres api fs draw pdata).2) =
   [PostgresApi.AppName pdata +:+ "-pvc"]).
Proof.
  destruct (service1_planned_names data) as [Hn1 Hd1].
  pose proof (calls_submit_all_prefix api (Service1.planned data)) as Hp1.
  rewrite <- service1_log in Hp1.
  split; [by eapply Forall_prefix|].
  split; [eapply NoDup_prefix; [by apply fmap_prefix|done]|].
  assert (Hpg :
    Forall (fun c => metadata_name c = derived_name (PostgresApi.AppName pdata) (kind_of c))
           (calls (PostgresApi.deploy_postgres api fs draw pdata).2) /\
    NoDup (kind_of <$> calls (PostgresApi.deploy_postgres api fs draw pdata).2) /\
    Forall (fun t => pvc_metadata_name t = PostgresApi.AppName pdata +:+ "-pvc")
           (claim_templates (calls (PostgresApi.deploy_postgres api fs draw pdata).2))).
  { destruct (postgres_calls_prefix api fs draw pdata) as [-> | (cfg & cr & _ & _ & Hp)].
    - cbn. repeat split; constructor.
    - destruct (postgres_planned_names pdata cfg cr.1 cr.2) as (Hn & Hd & Hc).
      split; [by eapply Forall_prefix|].
      split; [eapply NoDup_prefix; [by apply fmap_prefix|done]|].
      eapply Forall_prefix; [by apply claim_templates_prefix|done]. }
  destruct Hpg as (? & ? & ?). repeat (split; [done|]).
  split.
  { cbn [derived_name].
    pose proof (append_suffix_neq_self app_name "-secret" ltac:(done)) as Ns.
    pose proof (append_suffix_neq_self app_name "-config" ltac:(done)) as Nc.
    pose proof (append_suffix_neq_self app_name "-pvc" ltac:(done)) as Np.
    pose proof (append_suffix_neq app_name "-secret" "-config" ltac:(done)) as Nsc.
    pose proof (append_suffix_neq app_name "-secret" "-pvc" ltac:(done)) as Nsp.
    pose proof (append_suffix_neq app_name "-config" "-pvc" ltac:(done)) as Ncp.
    repeat (apply NoDup_cons; split); [| | | |apply NoDup_nil_2];
      rewrite ?elem_of_cons, elem_of_nil; tauto. }
  split.
  - intros Hok. rewrite (service1_success _ _ Hok), calls_accepted.
    unfold Service1.planned.
    by destruct (decide (Service1.secret_data_of (Service1.Envs data) = ∅)).
  - intros Hok. destruct (postgres_success _ _ _ _ Hok) as (cfg & cr & _ & _ & ->).
    rewrite calls_accepted. unfold PostgresApi.planned.
    by destruct (PostgresApi.External pdata).
Qed.

Lemma resource_names_derived_witness :
  (Service1.deploy_application accept_all Scenario.api1).1 =
    (Message "Deployment initiated", 200) /\
  (PostgresApi.deploy_postgres accept_all Scenario.fs_ok Scenario.draw_ok
     (Scenario.db true)).1 = (Message "PostgreSQL deployment initiated", 200) /\
  (fun c => (kind_of c, metadata_name c)) <$>
    calls (Service1.deploy_application accept_all Scenario.api1).2 =
  (if decide (Service1.secret_data_of (Service1.Envs Scenario.api1) = ∅) then []
   else [(KSecret, Service1.AppName Scenario.api1 +:+ "-secret")]) ++
  [(KDeployment, Service1.AppName Scenario.api1); (KService, Service1.AppName Scenario.api1);
   (KIngress, Service1.AppName Scenario.api1)] /\
  pvc_metadata_name <$>
    claim_templates (calls (PostgresApi.deploy_postgres accept_all Scenario.fs_ok
                              Scenario.draw_ok (Scenario.db true)).2) =
  [PostgresApi.AppName (Scenario.db true) +:+ "-pvc"].
Proof.
  assert (H1 : (Service1.deploy_application accept_all Scenario.api1).1 =
                 (Message "Deployment initiated", 200)) by (vm_compute; reflexivity).
  assert (H2 : (PostgresApi.deploy_postgres accept_all Scenario.fs_ok Scenario.draw_ok
                  (Scenario.db true)).1 = (Message "PostgreSQL deployment initiated", 200))
    by (vm_compute; reflexivity).
  split; [exact H1|]. split; [exact H2|].
  destruct (resource_names_derived accept_all Scenario.fs_ok Scenario.draw_ok
              (Scenario.db true) Scenario.api1 "api1")
    as (_ & _ & _ & _ & _ & _ & Hd & Hp).
  split; [exact (Hd H1) | exact (proj2 (Hp H2))].
Defined.

(** ** The payload of the secret *)

Lemma secret_data_of_snoc envs e :
  Service1.secret_data_of (envs ++ [e]) =
  if Service1.IsSecret e
  then <[Service1.Key e := b64encode (Service1.Value e)]> (Service1.secret_data_of envs)
  else Service1.secret_data_of envs.
Proof. unfold Service1.secret_data_of. by rewrite foldl_app. Qed.

(** The key [k] is bound to the encoded value of the last entry that is
    marked secret and has key [k]. *)
Lemma secret_data_of_lookup envs k v :
  Service1.secret_data_of envs !! k = Some v <->
  exists l1 e l2,
    envs = l1 ++ e :: l2 /\ Service1.IsSecret e = true /\ Service1.Key e = k /\
    v = b64encode (Service1.Value e) /\
    Forall (fun e' => Service1.IsSecret e' = true -> Service1.Key e' <> k) l2.
Proof.
  revert v. induction envs as [|x envs IH] using rev_ind; intros v.
  - split; [done|]. intros (l1 & e & l2 & Heq & _). by destruct l1.
  - rewrite secret_data_of_snoc.
    assert (Hsplit : forall l1 e l2, envs ++ [x] = l1 ++ e :: l2 ->
              (l2 = [] /\ e = x /\ l1 = envs) \/
              (exists l2', l2 = l2' ++ [x] /\ envs = l1 ++ e :: l2')).
    { intros l1 e l2 Heq. destruct l2 as [|y l2 _] using rev_ind.
      - apply app_inj_tail in Heq as [-> ->]. by left.
      - right. exists l2. rewrite app_comm_cons, app_assoc in Heq.
        apply app_inj_tail in Heq as [-> ->]. done. }
    destruct (Service1.IsSecret x) eqn:Hx; [destruct (decide (Service1.Key x = k)) as [Hk|Hk]|].
    + subst k. rewrite lookup_insert_eq. split.
      * intros [= <-]. exists envs, x, []. by repeat split.
      * intros (l1 & e & l2 & Heq & _ & _ & -> & Hl2).
        apply Hsplit in Heq as [(-> & -> & ->) | (l2' & -> & ->)]; [done|].
        rewrite Forall_app, Forall_singleton in Hl2. destruct Hl2 as [_ Hl2].
        by destruct (Hl2 Hx).
    + rewrite lookup_insert_ne by done. rewrite IH. split.
      * intros (l1 & e & l2 & -> & He & Hke & -> & Hl2).
        exists l1, e, (l2 ++ [x]). rewrite <- app_assoc. repeat split; [done..|].
        apply Forall_app. split; [done|]. by apply Forall_singleton.
      * intros (l1 & e & l2 & Heq & He & Hke & -> & Hl2).
        apply Hsplit in Heq as [(-> & -> & ->) | (l2' & -> & ->)]; [done|].
        rewrite Forall_app in Hl2. destruct Hl2 as [Hl2 _]. by exists l1, e, l2'.
    + rewrite IH. split.
      * intros (l1 & e & l2 & -> & He & Hke & -> & Hl2).
        exists l1, e, (l2 ++ [x]). rewrite <- app_assoc. repeat split; [done..|].
        apply Forall_app. split; [done|]. apply Forall_singleton. congruence.
      * intros (l1 & e & l2 & Heq & He & Hke & -> & Hl2).
        apply Hsplit in Heq as [(-> & -> & ->) | (l2' & -> & ->)]; [congruence|].
        rewrite Forall_app in Hl2. destruct Hl2 as [Hl2 _]. by exists l1, e, l2'.
Qed.

Lemma generate_credentials_username draw credentials :
  PostgresApi.generate_credentials draw = Returns credentials ->
  credentials.1 = "postgres_user".
Proof.
  unfold PostgresApi.generate_credentials.
  destruct (choices _ draw 0 16) as [chars|e]; cbn; [|done]. by intros [= <-].
Qed.

(** C6, as the code has it.  The secret that [/deploy] submits is named
    [{name}-secret] and binds a key exactly to the base64 encoding of the
    value of the last entry that is marked secret and carries that key; the
    secret that [/deploy_postgres] submits binds [username] and [password] to
    the base64 encodings of the generated credentials.  The encoding is done
    by the code that builds the secret. *)
Theorem secret_payload_base64
    (api : cluster) (data : Service1.DeployRequest) (s : V1Secret)
    (fs : string -> option TextIO) (draw : nat -> nat)
    (pdata : PostgresApi.PostgresRequest) (ps : V1Secret) :
  s ∈ secrets (calls (Service1.deploy_application api data).2) ->
  ps ∈ secrets (calls (PostgresApi.deploy_postgres api fs draw pdata).2) ->
  (secret_metadata_name s = Service1.AppName data +:+ "-secret" /\
   forall k v,
     secret_data s !! k = Some v <->
     exists l1 e l2,
       Service1.Envs data = l1 ++ e :: l2 /\
       Service1.IsSecret e = true /\ Service1.Key e = k /\
       v = b64encode (Service1.Value e) /\
       Forall (fun e' => Service1.IsSecret e' = true -> Service1.Key e' <> k) l2) /\
  (exists password,
     PostgresApi.generate_credentials draw = Returns ("postgres_user", password) /\
     secret_metadata_name ps = PostgresApi.AppName pdata +:+ "-secret" /\
     secret_data ps =
       <["password" := b64encode password]>
         (<["username" := b64encode "postgres_user"]> ∅)).
Proof.
  intros Hs Hps. split.
  - pose proof (calls_submit_all_prefix api (Service1.planned data)) as Hp.
    rewrite <- service1_log in Hp. apply secrets_prefix in Hp as [rest Hp].
    assert (Hin : s ∈ secrets (Service1.planned data)).
    { rewrite Hp. apply elem_of_app. by left. }
    unfold Service1.planned in Hin. destruct (decide _); cbn in Hin.
    + by apply elem_of_nil in Hin.
    + apply list_elem_of_singleton in Hin as ->. cbn.
      split; [done|]. intros k v. apply secret_data_of_lookup.
  - destruct (postgres_calls_prefix api fs draw pdata)
      as [Hnil | (cfg & cr & _ & Hg & Hp)].
    + rewrite Hnil in Hps. by apply elem_of_nil in Hps.
    + apply secrets_prefix in Hp as [rest Hp].
      assert (Hin : ps ∈ secrets (PostgresApi.planned pdata cfg cr.1 cr.2)).
      { rewrite Hp. apply elem_of_app. by left. }
      unfold PostgresApi.planned in Hin. cbn in Hin.
      assert (Hin' : ps = PostgresApi.secret_body (PostgresApi.AppName pdata) cr.1 cr.2).
      { destruct (PostgresApi.External pdata); cbn in Hin;
          by apply list_elem_of_singleton in Hin. }
      subst ps. pose proof (generate_credentials_username _ _ Hg) as Hu.
      exists cr.2. destruct cr as [u pw]. cbn in *. subst u. done.
Qed.

(** C6, as the claim states it, fails: in the end-to-end scenario the
    secret binds [TOKEN] to [YWJj], the base64 encoding of the value [abc],
    not to [abc]. *)
Lemma secret_payload_not_logical :
  ~ (forall (api : cluster) (data : Service1.DeployRequest) (s : V1Secret)
            (e : Service1.Env),
       s ∈ secrets (calls (Service1.deploy_application api data).2) ->
       e ∈ Service1.Envs data -> Service1.IsSecret e = true ->
       secret_data s !! Service1.Key e = Some (Service1.Value e)).
Proof.
  intros H.
  specialize (H accept_all Scenario.api1
                {| secret_metadata_name := "api1-secret";
                   secret_data := {["TOKEN" := "YWJj"]} |}
                {| Service1.Key := "TOKEN"; Service1.Value := "abc";
                   Service1.IsSecret := true |}).
  assert (H1 : {| secret_metadata_name := "api1-secret";
                  secret_data := {["TOKEN" := "YWJj"]} |}
               ∈ secrets (calls (Service1.deploy_application accept_all Scenario.api1).2))
    by (vm_compute; apply list_elem_of_here).
  assert (H2 : {| Service1.Key := "TOKEN"; Service1.Value := "abc";
                  Service1.IsSecret := true |} ∈ Service1.Envs Scenario.api1)
    by (apply list_elem_of_further, list_elem_of_here).
  specialize (H H1 H2 eq_refl). vm_compute in H. discriminate H.
Qed.

Lemma secret_payload_base64_witness :
  {| secret_metadata_name := "api1-secret"; secret_data := {["TOKEN" := "YWJj"]} |}
    ∈ secrets (calls (Service1.deploy_application accept_all Scenario.api1).2) /\
  PostgresApi.secret_body "db" "postgres_user" "dkryFMT07elszGNU"
    ∈ secrets (calls (PostgresApi.deploy_postgres accept_all Scenario.fs_ok
                        Scenario.draw_ok (Scenario.db false)).2) /\
  forall k v,
    ({["TOKEN" := "YWJj"]} : gmap string string) !! k = Some v <->
    exists l1 e l2,
      Service1.Envs Scenario.api1 = l1 ++ e :: l2 /\
      Service1.IsSecret e = true /\ Service1.Key e = k /\
      v = b64encode (Service1.Value e) /\
      Forall (fun e' => Service1.IsSecret e' = true -> Service1.Key e' <> k) l2.
Proof.
  assert (H1 : {| secret_metadata_name := "api1-secret";
                  secret_data := {["TOKEN" := "YWJj"]} |}
               ∈ secrets (calls (Service1.deploy_application accept_all Scenario.api1).2))
    by (vm_compute; apply list_elem_of_here).
  assert (H2 : PostgresApi.secret_body "db" "postgres_user" "dkryFMT07elszGNU"
               ∈ secrets (calls (PostgresApi.deploy_postgres accept_all Scenario.fs_ok
                                   Scenario.draw_ok (Scenario.db false)).2))
    by (vm_compute; apply list_elem_of_here).
  split; [exact H1|]. split; [exact H2|].
  exact (proj2 (proj1 (secret_payload_base64 accept_all Scenario.api1 _
                         Scenario.fs_ok Scenario.draw_ok (Scenario.db false) _ H1 H2))).
Defined.

(** ** Credentials *)

Lemma get_in_range (s : string) (n : nat) :
  (n < String.length s)%nat -> exists c, String.get n s = Some c.
Proof.
  revert n. induction s as [|a s IH]; intros n Hn; cbn in Hn; [lia|].
  destruct n as [|n]; cbn; [by eexists|]. apply IH. lia.
Qed.

Lemma get_in_list (s : string) (n : nat) (c : ascii) :
  String.get n s = Some c -> In c (list_ascii_of_string s).
Proof.
  revert n. induction s as [|a s IH]; intros n; cbn; [done|].
  destruct n as [|n]; [intros [= ->]; by left | intros H; right; eauto].
Qed.

Lemma length_join (chars : list ascii) : String.length (join chars) = length chars.
Proof. unfold join. induction chars as [|c l IH]; [done | cbn; by rewrite IH]. Qed.

Section Choices.

Context (population : string) (draw : nat -> nat).
Hypothesis draw_in_range : forall i, (draw i < String.length population)%nat.

(** With every draw inside the population, [choices] returns [k] characters
    of the population. *)
Lemma choices_returns (k : nat) : forall i,
  exists chars,
    choices population draw i k = Returns chars /\
    length chars = k /\
    Forall (fun c => In c (list_ascii_of_string population)) chars.
Proof.
  induction k as [|k IH]; intros i; cbn [choices].
  - exists []. by repeat split.
  - destruct (get_in_range population (draw i) (draw_in_range i)) as [c Hc].
    rewrite Hc. destruct (IH (S i)) as (rest & -> & Hlen & Hall).
    exists (c :: rest). cbn. repeat split; [by rewrite Hlen|].
    constructor; [by eapply get_in_list | done].
Qed.

End Choices.

Lemma population_alnum :
  forallb isalnum (list_ascii_of_string (ascii_letters +:+ digits)) = true.
Proof. vm_compute. reflexivity. Qed.

(** C8. Whenever the generator draws inside the 62 characters of the
    alphabet, [generate_credentials] returns the identifier [postgres_user]
    with a password of exactly 16 characters, each of them an ASCII letter or
    digit. *)
Theorem generate_credentials_shape (draw : nat -> nat) :
  (forall i, (draw i < 62)%nat) ->
  exists password,
    PostgresApi.generate_credentials draw = Returns ("postgres_user", password) /\
    String.length password = 16%nat /\
    Forall (fun c => isalnum c = true) (list_ascii_of_string password).
Proof.
  intros Hdraw. unfold PostgresApi.generate_credentials.
  destruct (choices_returns (ascii_letters +:+ digits) draw Hdraw 16 0)
    as (chars & -> & Hlen & Hall).
  exists (join chars). cbn. split; [done|]. split; [by rewrite length_join|].
  unfold join. rewrite list_ascii_of_string_of_list_ascii.
  eapply Forall_impl; [exact Hall|]. intros c Hc. cbn beta in Hc.
  pose proof population_alnum as Hp. rewrite forallb_forall in Hp. by apply Hp.
Qed.

Lemma draw_ok_in_range : forall i, (Scenario.draw_ok i < 62)%nat.
Proof. intros i. unfold Scenario.draw_ok. apply Nat.mod_upper_bound. lia. Qed.

Lemma generate_credentials_shape_witness :
  exists password,
    PostgresApi.generate_credentials Scenario.draw_ok = Returns ("postgres_user", password) /\
    String.length password = 16%nat /\
    Forall (fun c => isalnum c = true) (list_ascii_of_string password).
Proof. exact (generate_credentials_shape Scenario.draw_ok draw_ok_in_range). Defined.

(** ** Status codes of [/deploy_postgres] *)

(** Reading the configuration and drawing the credentials never raise an
    [ApiException]: they do not call the cluster. *)
Lemma config_lines_raises lines : forall config_data e,
  PostgresApi.config_lines lines config_data = Raises e -> exists cls, e = Exception cls.
Proof.
  induction lines as [|line rest IH]; intros config_data e; cbn; [done|].
  destruct (decide (strip line = "")); [apply IH|].
  destruct (split "=" line) as [|key [|value [|? ?]]]; try (intros [= <-]; by eexists).
  apply IH.
Qed.

Lemma read_config_file_raises fs filepath e :
  PostgresApi.read_config_file fs filepath = Raises e -> exists cls, e = Exception cls.
Proof.
  unfold PostgresApi.read_config_file.
  destruct (fs filepath) as [file|]; [|intros [= <-]; by eexists].
  destruct (PostgresApi.config_lines (lines_of file) ∅) as [cfg|e'] eqn:Hl; cbn.
  - destruct (undecodable file); [intros [= <-]; by eexists|].
    destruct (cfg !! "shared_buffers"); [|intros [= <-]; by eexists].
    destruct (cfg !! "max_connections"); [done|intros [= <-]; by eexists].
  - intros [= <-]. by eapply config_lines_raises.
Qed.

Lemma choices_raises population draw k : forall i e,
  choices population draw i k = Raises e -> exists cls, e = Exception cls.
Proof.
  induction k as [|k IH]; intros i e; cbn; [done|].
  destruct (String.get (draw i) population); [|intros [= <-]; by eexists].
  destruct (choices population draw (S i) k) as [rest|e'] eqn:Hr; cbn; [done|].
  intros [= <-]. by eapply IH.
Qed.

Lemma generate_credentials_raises draw e :
  PostgresApi.generate_credentials draw = Raises e -> exists cls, e = Exception cls.
Proof.
  unfold PostgresApi.generate_credentials.
  destruct (choices _ draw 0 16) as [chars|e'] eqn:Hc; cbn; [done|].
  intros [= <-]. by eapply choices_raises.
Qed.

Lemma elem_of_accepted cs c e : (c, Some e) ∈ accepted cs -> False.
Proof.
  intros Hin. apply list_elem_of_lookup in Hin as [i Hi].
  apply lookup_accepted in Hi as [? _]. done.
Qed.

Lemma elem_of_stopped cs c' e' c e :
  (c, Some e) ∈ accepted cs ++ [(c', Some e')] -> c = c' /\ e = e'.
Proof.
  intros Hin. apply elem_of_app in Hin as [Hin|Hin].
  - by apply elem_of_accepted in Hin.
  - apply list_elem_of_singleton in Hin. by injection Hin as -> ->.
Qed.

(** C9. [/deploy_postgres] answers 200 when the configuration is read, the
    credentials are drawn and the cluster refuses no call; it answers with
    the status of the [ApiException] when the cluster refuses a call with
    one; and it answers 500 on any other exception: one raised by the client
    that is not an [ApiException], one raised while reading the
    configuration file (an unreadable file among them), or one raised while
    drawing the credentials. *)
Theorem deploy_postgres_status
    (api : cluster) (fs : string -> option TextIO) (draw : nat -> nat)
    (data : PostgresApi.PostgresRequest) :
  (forall config_data credentials,
     PostgresApi.read_config_file fs "postgresql.conf" = Returns config_data ->
     PostgresApi.generate_credentials draw = Returns credentials ->
     (forall c e, (c, Some e) ∉ (PostgresApi.deploy_postgres api fs draw data).2) ->
     PostgresApi.deploy_postgres api fs draw data =
       ((Message "PostgreSQL deployment initiated", 200),
        accepted (PostgresApi.planned data config_data credentials.1 credentials.2))) /\
  (forall c status,
     (c, Some (ApiException status)) ∈ (PostgresApi.deploy_postgres api fs draw data).2 ->
     (PostgresApi.deploy_postgres api fs draw data).1 =
       (ErrorOf (ApiException status), status)) /\
  (forall c cls,
     (c, Some (Exception cls)) ∈ (PostgresApi.deploy_postgres api fs draw data).2 ->
     (PostgresApi.deploy_postgres api fs draw data).1 = (ErrorOf (Exception cls), 500)) /\
  (forall e,
     PostgresApi.read_config_file fs "postgresql.conf" = Raises e ->
     PostgresApi.deploy_postgres api fs draw data = ((ErrorOf e, 500), [])) /\
  (forall config_data e,
     PostgresApi.read_config_file fs "postgresql.conf" = Returns config_data ->
     PostgresApi.generate_credentials draw = Raises e ->
     PostgresApi.deploy_postgres api fs draw data = ((ErrorOf e, 500), [])) /\
  (fs "postgresql.conf" = None ->
     (PostgresApi.deploy_postgres api fs draw data).1.2 = 500).
Proof.
  assert (Hconf : forall e,
     PostgresApi.read_config_file fs "postgresql.conf" = Raises e ->
     PostgresApi.deploy_postgres api fs draw data = ((ErrorOf e, 500), [])).
  { intros e He. unfold PostgresApi.deploy_postgres, run.
    rewrite (postgres_deploy_no_config _ _ _ _ _ _ He).
    by destruct (read_config_file_raises _ _ _ He) as [cls ->]. }
  assert (Hcred : forall config_data e,
     PostgresApi.read_config_file fs "postgresql.conf" = Returns config_data ->
     PostgresApi.generate_credentials draw = Raises e ->
     PostgresApi.deploy_postgres api fs draw data = ((ErrorOf e, 500), [])).
  { intros cfg e Hc He. unfold PostgresApi.deploy_postgres, run.
    rewrite (postgres_deploy_no_credentials _ _ _ _ _ _ _ Hc He).
    by destruct (generate_credentials_raises _ _ He) as [cls ->]. }
  assert (Hrefused : forall c e,
     (c, Some e) ∈ (PostgresApi.deploy_postgres api fs draw data).2 ->
     (PostgresApi.deploy_postgres api fs draw data).1 =
       (ErrorOf e, match e with ApiException status => status | Exception _ => 500 end)).
  { intros c e Hin.
    destruct (PostgresApi.read_config_file fs "postgresql.conf") as [cfg|e0] eqn:Hc;
      [|rewrite (Hconf _ eq_refl) in Hin; by apply elem_of_nil in Hin].
    destruct (PostgresApi.generate_credentials draw) as [cr|e0] eqn:Hg;
      [|rewrite (Hcred _ _ eq_refl eq_refl) in Hin; by apply elem_of_nil in Hin].
    unfold PostgresApi.deploy_postgres, run in Hin |- *.
    rewrite (postgres_deploy_planned _ _ _ _ _ _ _ Hc Hg) in Hin |- *.
    destruct (submit_all_run api (PostgresApi.planned data cfg cr.1 cr.2) [])
      as [Hok | (k & c' & e' & _ & _ & Hr)].
    - rewrite Hok in Hin. cbn [snd app] in Hin. by apply elem_of_accepted in Hin.
    - rewrite Hr in Hin |- *. cbn [app] in Hin |- *.
      assert (Hin' : (c, Some e) ∈ accepted (take k (PostgresApi.planned data cfg cr.1 cr.2))
                                   ++ [(c', Some e')])
        by (by destruct e').
      apply elem_of_stopped in Hin' as [-> ->]. by destruct e'. }
  split; [|split; [|split; [|split; [|split]]]].
  - intros cfg cr Hc Hg Hnone. unfold PostgresApi.deploy_postgres, run in Hnone |- *.
    rewrite (postgres_deploy_planned _ _ _ _ _ _ _ Hc Hg) in Hnone |- *.
    destruct (submit_all_run api (PostgresApi.planned data cfg cr.1 cr.2) [])
      as [Hok | (k & c' & e' & _ & _ & Hr)].
    + by rewrite Hok.
    + rewrite Hr in Hnone. exfalso. apply (Hnone c' e').
      destruct e'; cbn; apply elem_of_app; right; apply list_elem_of_here.
  - intros c status Hin. by rewrite (Hrefused _ _ Hin).
  - intros c cls Hin. by rewrite (Hrefused _ _ Hin).
  - exact Hconf.
  - exact Hcred.
  - intros Hfs. rewrite (Hconf (Exception "FileNotFoundError")); [done|].
    unfold PostgresApi.read_config_file. by rewrite Hfs.
Qed.

Lemma deploy_postgres_status_witness :
  Scenario.fs_empty "postgresql.conf" = None /\
  (PostgresApi.deploy_postgres accept_all Scenario.fs_empty Scenario.draw_ok
     (Scenario.db true)).1.2 = 500.
Proof.
  split; [reflexivity|].
  exact (proj2 (proj2 (proj2 (proj2 (proj2
           (deploy_postgres_status accept_all Scenario.fs_empty Scenario.draw_ok
              (Scenario.db true)))))) eq_refl).
Defined.

(** ** Readiness and phase of a pod *)

Import Service3.

Lemma containers_ready_Forall statuses :
  containers_ready statuses = true <-> Forall (fun c => ready c = true) statuses.
Proof.
  induction statuses as [|c rest IH]; cbn.
  - split; [constructor | done].
  - rewrite Forall_cons. destruct (ready c); cbn; [rewrite IH|]; intuition congruence.
Qed.

Lemma pod_ready_running_and_ready pod :
  pod_ready pod = true <-> running_and_ready pod.
Proof.
  unfold pod_ready, running_and_ready.
  rewrite andb_true_iff, containers_ready_Forall, bool_decide_eq_true. done.
Qed.

Lemma pod_ready_false pod : pod_ready pod = false <-> ~ running_and_ready pod.
Proof.
  rewrite <- pod_ready_running_and_ready. destruct (pod_ready pod); intuition congruence.
Qed.

(** The loop over the pods, from any state of the counter and of the list. *)
Lemma pod_loop_from pods : forall n l,
  foldl (fun acc pod =>
           ((if pod_ready pod then acc.1 + 1 else acc.1),
            acc.2 ++ [pod_status_of pod])) (n, l) pods =
  (n + Z.of_nat (length (filter running_and_ready pods)),
   l ++ (pod_status_of <$> pods)).
Proof.
  induction pods as [|pod pods IH]; intros n l; cbn [foldl].
  - cbn. f_equal; [lia | by rewrite app_nil_r].
  - rewrite IH. cbn [fst snd fmap list_fmap]. rewrite filter_cons.
    destruct (decide (running_and_ready pod)) as [Hr|Hr].
    + apply pod_ready_running_and_ready in Hr. rewrite Hr. cbn [length].
      f_equal; [lia | by rewrite <- app_assoc].
    + apply pod_ready_false in Hr. rewrite Hr.
      f_equal. by rewrite <- app_assoc.
Qed.

Lemma pod_loop_count pods :
  pod_loop pods =
  (Z.of_nat (length (filter running_and_ready pods)), pod_status_of <$> pods).
Proof. unfold pod_loop. by rewrite pod_loop_from. Qed.

(** Each entry of the answer is computed from the pods the cluster lists
    for the label of that workload. *)
Lemma deployment_loop_entries api items : forall acc all_statuses,
  Forall (fun st => exists replicas pods,
            list_namespaced_pod api "default" ("app=" +:+ DeploymentName st) = Returns pods /\
            st = status_of (DeploymentName st) replicas pods) acc ->
  deployment_loop api items acc = Returns all_statuses ->
  Forall (fun st => exists replicas pods,
            list_namespaced_pod api "default" ("app=" +:+ DeploymentName st) = Returns pods /\
            st = status_of (DeploymentName st) replicas pods) all_statuses.
Proof.
  induction items as [|d items IH]; intros acc all_statuses Hacc; cbn [deployment_loop].
  - by intros [= <-].
  - destruct (decide _); [by apply IH|].
    destruct (list_namespaced_pod api "default" ("app=" +:+ item_metadata_name d))
      as [pods|e] eqn:Hp; cbn; [|done].
    apply IH. apply Forall_app. split; [done|]. apply Forall_singleton.
    exists (spec_replicas d), pods. by cbn.
Qed.

Lemma status_entries api all_statuses code :
  get_all_applications_status api = Returns (Statuses all_statuses code) ->
  code = 200 /\
  Forall (fun st => exists pods,
            list_namespaced_pod api "default" ("app=" +:+ DeploymentName st) = Returns pods /\
            ReadyReplicas st = Z.of_nat (length (filter running_and_ready pods)) /\
            PodStatuses st = pod_status_of <$> pods) all_statuses.
Proof.
  unfold get_all_applications_status.
  destruct (list_namespaced_deployment api "default") as [items|e] eqn:Hd; cbn.
  - destruct (deployment_loop api items []) as [all|e] eqn:Hl.
    + intros [= <- <-]. split; [done|].
      apply deployment_loop_entries in Hl; [|constructor].
      eapply Forall_impl; [exact Hl|]. cbn beta.
      intros st (replicas & pods & Hp & Hst). exists pods. split; [done|].
      rewrite Hst. unfold status_of. cbn. by rewrite pod_loop_count.
    + by destruct e.
  - by destruct e.
Qed.

(** What the second loop does with one container. *)
Lemma scan_phase_blocked phase c rest r :
  waits_for c r -> r ∈ waiting_reasons -> scan_phase phase (c :: rest) = r.
Proof.
  intros (w & Hw & Hr) Hin. cbn [scan_phase]. rewrite Hw, Hr.
  by destruct (decide (r ∈ waiting_reasons)).
Qed.

Lemma scan_phase_not_blocked phase c rest :
  ~ blocked c ->
  scan_phase phase (c :: rest) =
  scan_phase (if decide (completed c) then "Completed" else phase) rest.
Proof.
  intros Hnb. cbn [scan_phase].
  assert (Hterm :
    match terminated (state c) with
    | Some t => if decide (terminated_reason t = Some "Completed")
                then scan_phase "Completed" rest else scan_phase phase rest
    | None => scan_phase phase rest
    end = scan_phase (if decide (completed c) then "Completed" else phase) rest).
  { destruct (decide (completed c)) as [(t & Ht & Hc)|Hnc].
    - rewrite Ht. by rewrite decide_True.
    - destruct (terminated (state c)) as [t|] eqn:Ht; [|done].
      destruct (decide (terminated_reason t = Some "Completed")) as [Hc|Hc]; [|done].
      destruct Hnc. by exists t. }
  destruct (waiting (state c)) as [w|] eqn:Hw; [|exact Hterm].
  destruct (waiting_reason w) as [r|] eqn:Hr; [|exact Hterm].
  destruct (decide (r ∈ waiting_reasons)) as [Hin|_]; [|exact Hterm].
  destruct Hnb. exists r. split; [by exists w | done].
Qed.

(** Containers that are neither blocked nor completed leave the phase as it
    is; any other list of containers ends on one of the four reasons or on
    [Completed]. *)
Lemma scan_phase_cases statuses : forall phase,
  (Forall (fun c => ~ blocked c /\ ~ completed c) statuses /\
   scan_phase phase statuses = phase) \/
  (~ Forall (fun c => ~ blocked c /\ ~ completed c) statuses /\
   (scan_phase phase statuses ∈ waiting_reasons \/
    scan_phase phase statuses = "Completed")).
Proof.
  induction statuses as [|c rest IH]; intros phase.
  - left. split; [constructor | done].
  - destruct (decide (blocked c)) as [Hb|Hb].
    + right. split; [rewrite Forall_cons; tauto|].
      destruct Hb as (r & Hw & Hin). rewrite (scan_phase_blocked _ _ _ _ Hw Hin). by left.
    + rewrite (scan_phase_not_blocked _ _ _ Hb).
      destruct (decide (completed c)) as [Hc|Hc].
      * right. split; [rewrite Forall_cons; tauto|].
        destruct (IH "Completed") as [[_ ->] | [_ H]]; [by right | exact H].
      * destruct (IH phase) as [[Hq ->] | [Hq H]].
        -- left. split; [|done]. by apply Forall_cons.
        -- right. split; [|exact H]. rewrite Forall_cons. tauto.
Qed.

Lemma running_not_a_reason :
  ("Running" ∉ waiting_reasons) /\ "Running" <> "Completed".
Proof.
  split; [|done]. unfold waiting_reasons.
  rewrite !elem_of_cons, elem_of_nil. intuition discriminate.
Qed.

Lemma scan_phase_running statuses :
  scan_phase "Running" statuses = "Running" <->
  Forall (fun c => ~ blocked c /\ ~ completed c) statuses.
Proof.
  destruct running_not_a_reason as [Hnr Hnc].
  destruct (scan_phase_cases statuses "Running") as [[Hq Hs] | [Hq [Hs|Hs]]].
  - tauto.
  - split; [|tauto]. intros Heq. rewrite Heq in Hs. tauto.
  - split; [|tauto]. intros Heq. rewrite Heq in Hs. congruence.
Qed.

(** A container waiting for [r], after containers that are blocked by no
    other reason than [r], decides the phase. *)
Lemma scan_phase_first_reason r l1 : forall phase c l2,
  r ∈ waiting_reasons -> waits_for c r ->
  Forall (fun c' => forall r', waits_for c' r' -> r' ∈ waiting_reasons -> r' = r) l1 ->
  scan_phase phase (l1 ++ c :: l2) = r.
Proof.
  induction l1 as [|c' l1 IH]; intros phase c l2 Hin Hw Hl1; cbn [app].
  - by apply scan_phase_blocked.
  - apply Forall_cons in Hl1 as [Hc' Hl1].
    destruct (decide (blocked c')) as [(r' & Hw' & Hin')|Hb].
    + rewrite (scan_phase_blocked _ _ _ _ Hw' Hin'). by apply Hc'.
    + rewrite (scan_phase_not_blocked _ _ _ Hb). by apply IH.
Qed.

(** C4, as the code has it.  A pod whose raw phase is [Running] and all of
    whose containers report ready adds one to the ready replicas; it is
    reported with phase [Running] exactly when none of its containers is
    waiting with one of the four reasons or terminated with reason
    [Completed], because the second loop runs for every pod.  The ready
    replicas of a workload are exactly the number of its pods whose raw phase
    is [Running] and whose containers all report ready, in the loop and in
    every entry of the answer of the handler. *)
Theorem ready_pod_counted
    (pod : V1Pod) (pods : list V1Pod) (api : listing)
    (all_statuses : list application_status) :
  status_phase pod = "Running" ->
  Forall (fun c => ready c = true) (statuses_or_empty pod) ->
  pod_ready pod = true /\
  (pod_phase pod = "Running" <->
   Forall (fun c => ~ blocked c /\ ~ completed c) (statuses_or_empty pod)) /\
  (pod_loop pods).1 = Z.of_nat (length (filter running_and_ready pods)) /\
  (get_all_applications_status api = Returns (Statuses all_statuses 200) ->
   Forall (fun st => exists pods',
             list_namespaced_pod api "default" ("app=" +:+ DeploymentName st)
               = Returns pods' /\
             ReadyReplicas st = Z.of_nat (length (filter running_and_ready pods')))
          all_statuses).
Proof.
  intros Hphase Hready. split; [|split; [|split]].
  - by apply pod_ready_running_and_ready.
  - unfold pod_phase. rewrite Hphase. apply scan_phase_running.
  - by rewrite pod_loop_count.
  - intros Hall. apply status_entries in Hall as [_ Hall].
    eapply Forall_impl; [exact Hall|]. cbn beta.
    intros st (pods' & Hp & Hr & _). by exists pods'.
Qed.

(** C4, as the claim states it, fails: a pod with raw phase [Running] whose
    only container reports ready while its state is waiting with reason
    [CrashLoopBackOff] is counted ready and reported with phase
    [CrashLoopBackOff]. *)
Lemma ready_pod_phase_overwritten :
  ~ (forall pod : V1Pod,
       status_phase pod = "Running" ->
       Forall (fun c => ready c = true) (statuses_or_empty pod) ->
       pod_phase pod = "Running" /\ pod_ready pod = true).
Proof.
  intros H.
  destruct (H (Scenario.pod "x" "Running"
                 (Some [Scenario.waiting_container true "CrashLoopBackOff"])))
    as [Hp _]; [reflexivity | by repeat constructor |].
  vm_compute in Hp. discriminate Hp.
Qed.

Lemma ready_pod_counted_witness :
  status_phase (Scenario.pod "A" "Running" (Some [Scenario.running_container])) = "Running" /\
  Forall (fun c => ready c = true)
    (statuses_or_empty (Scenario.pod "A" "Running" (Some [Scenario.running_container]))) /\
  pod_ready (Scenario.pod "A" "Running" (Some [Scenario.running_container])) = true.
Proof.
  assert (H1 : status_phase (Scenario.pod "A" "Running" (Some [Scenario.running_container]))
               = "Running") by reflexivity.
  assert (H2 : Forall (fun c => ready c = true)
                 (statuses_or_empty
                    (Scenario.pod "A" "Running" (Some [Scenario.running_container]))))
    by (repeat constructor).
  split; [exact H1|]. split; [exact H2|].
  exact (proj1 (ready_pod_counted _ [] Scenario.web [] H1 H2)).
Defined.

(** C5, as the code has it.  For a pod that is not running with all its
    containers ready, a container waiting with reason [CrashLoopBackOff]
    decides the phase when no container before it in the status list is
    waiting with another of the four reasons: the pod is then reported with
    phase [CrashLoopBackOff] and is not counted ready, whatever the raw
    phase, the containers after it, and the terminated states are. *)
Theorem crashloop_first_reason
    (pod : V1Pod) (l1 : list V1ContainerStatus) (c : V1ContainerStatus)
    (l2 : list V1ContainerStatus) :
  ~ running_and_ready pod ->
  statuses_or_empty pod = l1 ++ c :: l2 ->
  waits_for c "CrashLoopBackOff" ->
  Forall (fun c' => forall r', waits_for c' r' -> r' ∈ waiting_reasons ->
                               r' = "CrashLoopBackOff") l1 ->
  pod_phase pod = "CrashLoopBackOff" /\ pod_ready pod = false.
Proof.
  intros Hnr Hst Hw Hl1. split; [|by apply pod_ready_false].
  unfold pod_phase. rewrite Hst. apply scan_phase_first_reason; [|done..].
  unfold waiting_reasons. apply list_elem_of_here.
Qed.

(** C5, as the claim states it, fails: with a first container waiting for
    [ImagePullBackOff] and a second one waiting for [CrashLoopBackOff], the
    pod is reported with phase [ImagePullBackOff]. *)
Lemma crashloop_not_regardless :
  ~ (forall (pod : V1Pod) (c : V1ContainerStatus),
       ~ running_and_ready pod ->
       c ∈ statuses_or_empty pod ->
       waits_for c "CrashLoopBackOff" ->
       pod_phase pod = "CrashLoopBackOff" /\ pod_ready pod = false).
Proof.
  intros H.
  destruct (H (Scenario.pod "x" "Pending"
                 (Some [Scenario.waiting_container false "ImagePullBackOff";
                        Scenario.waiting_container false "CrashLoopBackOff"]))
              (Scenario.waiting_container false "CrashLoopBackOff")) as [Hp _].
  - intros [Hphase _]. discriminate Hphase.
  - apply list_elem_of_further, list_elem_of_here.
  - eexists. split; reflexivity.
  - vm_compute in Hp. discriminate Hp.
Qed.

Lemma crashloop_first_reason_witness :
  pod_phase (Scenario.pod "x" "Running"
               (Some [Scenario.running_container;
                      Scenario.waiting_container false "CrashLoopBackOff";
                      Scenario.waiting_container false "ImagePullBackOff"]))
    = "CrashLoopBackOff" /\
  pod_ready (Scenario.pod "x" "Running"
               (Some [Scenario.running_container;
                      Scenario.waiting_container false "CrashLoopBackOff";
                      Scenario.waiting_container false "ImagePullBackOff"]))
    = false.
Proof.
  apply (crashloop_first_reason _ [Scenario.running_container]
           (Scenario.waiting_container false "CrashLoopBackOff")
           [Scenario.waiting_container false "ImagePullBackOff"]).
  - intros [_ Hall]. cbn in Hall.
    apply Forall_cons in Hall as [_ Hall]. apply Forall_cons in Hall as [Hr _].
    discriminate Hr.
  - reflexivity.
  - eexists. split; reflexivity.
  - apply Forall_singleton. intros r' (w & Hw & _). discriminate Hw.
Defined.



(** ** The end-to-end scenarios, run *)

(** The test vectors of RFC 4648 for [b64encode]. *)
Example b64encode_vectors :
  b64encode <$> [""; "f"; "fo"; "foo"; "foob"; "fooba"; "foobar"] =
  [""; "Zg=="; "Zm8="; "Zm9v"; "Zm9vYg=="; "Zm9vYmE="; "Zm9vYmFy"].
Proof. vm_compute. reflexivity. Qed.

(** The [/deploy] scenario on a cluster that accepts everything: a secret
    [api1-secret] holding [TOKEN], the deployment [api1] with two replicas
    and one container whose environment is [MODE] by value and [TOKEN] by
    reference, the service [api1] on 8080, and the ingress for
    [api1.example.com]. *)
Example api1_deployed :
  Service1.deploy_application accept_all Scenario.api1 =
  ((Message "Deployment initiated", 200),
   accepted
     [create_namespaced_secret "default"
        {| secret_metadata_name := "api1-secret";
           secret_data := {["TOKEN" := "YWJj"]} |};
      create_namespaced_deployment "default"
        {| deployment_metadata_name := "api1";
           deployment_replicas := 2;
           deployment_template :=
             {| template_labels := {["app" := "api1"]};
                containers :=
                  [{| container_name := "api1";
                      image := "repo/img:v1";
                      container_port := 8080;
                      env := [{| env_name := "MODE"; env_value := Some "prod";
                                 env_value_from := None |};
                              {| env_name := "TOKEN"; env_value := None;
                                 env_value_from :=
                                   Some {| selector_name := "api1-secret";
                                           selector_key := "TOKEN" |} |}];
                      volume_mounts := [];
                      requests := {["cpu" := "100m"; "memory" := "128Mi"]} |}];
                volumes := [] |};
           deployment_selector := {["app" := "api1"]} |};
      create_namespaced_service "default"
        {| service_metadata_name := "api1";
           service_selector := {["app" := "api1"]};
           port := 8080; target_port := 8080; service_type := None |};
      create_namespaced_ingress "default"
        {| ingress_metadata_name := "api1";
           host := "api1.example.com";
           path := "/"; path_type := "Prefix";
           backend_service_name := "api1";
           backend_port_number := 8080 |}]).
Proof. vm_compute. reflexivity. Qed.

(** The same request with the third call refused as a conflict: secret and
    deployment stay created, the service is refused, no ingress is sent. *)
Example api1_conflict :
  (Service1.deploy_application (Scenario.refuse_at 2 (ApiException 409)) Scenario.api1).1 =
    (Error "Conflict: A resource with the same name already exists.", 409) /\
  (fun ev : event => (kind_of ev.1, ev.2)) <$>
    (Service1.deploy_application (Scenario.refuse_at 2 (ApiException 409)) Scenario.api1).2 =
    [(KSecret, None); (KDeployment, None); (KService, Some (ApiException 409))].
Proof. split; vm_compute; reflexivity. Qed.

(** [/deploy_postgres], external, on an accepting cluster: five resources,
    named after the application. *)
Example db_deployed :
  (PostgresApi.deploy_postgres accept_all Scenario.fs_ok Scenario.draw_ok
     (Scenario.db true)).1 = (Message "PostgreSQL deployment initiated", 200) /\
  (fun c => (kind_of c, metadata_name c)) <$>
    calls (PostgresApi.deploy_postgres accept_all Scenario.fs_ok Scenario.draw_ok
             (Scenario.db true)).2 =
    [(KSecret, "db-secret"); (KConfigMap, "db-config"); (KStatefulSet, "db");
     (KService, "db"); (KIngress, "db")].
Proof. split; vm_compute; reflexivity. Qed.

(** The configuration file of the scenario, as [read_config_file] returns
    it. *)
Example conf_read :
  PostgresApi.read_config_file Scenario.fs_ok "postgresql.conf" =
  Returns {["postgresql.conf" :=
    "shared_buffers = 128MB" +:+ String LF "max_connections = 100"]}.
Proof. vm_compute. reflexivity. Qed.

(** A line with two [=] signs cannot be unpacked into a key and a value. *)
Example conf_malformed :
  PostgresApi.read_config_file (fun _ => Some (text_file "a=b=c")) "postgresql.conf" =
  Raises (Exception "ValueError").
Proof. vm_compute. reflexivity. Qed.

(** White space beyond ASCII is stripped as well: a no-break space (U+00A0)
    before [x] and an ideographic space (U+3000) after it; a line of one em
    space (U+2003) is blank; a zero width space (U+200B) is no white
    space. *)
Example strip_unicode :
  strip (String "194"%char (String "160"%char
           ("x" +:+ String "227"%char (String "128"%char (String "128"%char ""))))) = "x" /\
  strip (String "226"%char (String "128"%char (String "131"%char (String LF "")))) = "" /\
  strip (String "226"%char (String "128"%char (String "139"%char ""))) =
    String "226"%char (String "128"%char (String "139"%char "")).
Proof. repeat split; vm_compute; reflexivity. Qed.

(** Bytes that do not decode end the reading on [UnicodeDecodeError], unless
    a line read before them was malformed. *)
Example conf_undecodable :
  PostgresApi.read_config_file
    (fun _ => Some {| lines_of := readlines Scenario.conf_text; undecodable := true |})
    "postgresql.conf" = Raises (Exception "UnicodeDecodeError") /\
  PostgresApi.read_config_file
    (fun _ => Some {| lines_of := ["a=b=c"]; undecodable := true |})
    "postgresql.conf" = Raises (Exception "ValueError").
Proof. split; vm_compute; reflexivity. Qed.

(** [GET /status/all] on the namespace of the scenario: one ready replica
    out of two, phases [Running] and [ImagePullBackOff]. *)
Example web_status :
  get_all_applications_status Scenario.web =
  Returns (Statuses
    [{| DeploymentName := "web";
        Replicas := Some 2;
        ReadyReplicas := 1;
        PodStatuses :=
          [{| Name := "A"; Phase := "Running"; HostIP := Some "10.0.0.1";
              PodIP := None; StartTime := None |};
           {| Name := "B"; Phase := "ImagePullBackOff"; HostIP := Some "10.0.0.1";
              PodIP := None; StartTime := None |}] |}] 200).
Proof. vm_compute. reflexivity. Qed.

(** A terminated container with reason [Completed] and no waiting reason of
    the list: the pod is reported [Completed] and is not ready. *)
Example completed_pod :
  pod_loop
    [Scenario.pod "job" "Succeeded"
       (Some [{| ready := false;
                 state := {| waiting := None;
                             terminated :=
                               Some {| terminated_reason := Some "Completed" |} |} |}])] =
  (0, [{| Name := "job"; Phase := "Completed"; HostIP := Some "10.0.0.1";
          PodIP := None; StartTime := None |}]).
Proof. vm_compute. reflexivity. Qed.

(** * Further properties of the handlers *)

(** ** The log of a straight-line submission *)

(** Position by position, the log follows the sequence, and every call
    before another one was accepted. *)
Lemma log_lookup_sequence api cs j c a :
  (submit_all cs api []).2 !! j = Some (c, a) -> cs !! j = Some c.
Proof.
  intros Hj. pose proof (calls_submit_all_prefix api cs) as Hp.
  eapply prefix_lookup_Some; [|exact Hp].
  unfold calls. rewrite list_lookup_fmap, Hj. done.
Qed.

Lemma log_before_accepted api cs i j ev :
  (submit_all cs api []).2 !! j = Some ev -> (i < j)%nat ->
  exists c, cs !! i = Some c /\ (submit_all cs api []).2 !! i = Some (c, None).
Proof.
  intros Hj Hij.
  destruct (submit_all_run api cs []) as [Hok | (k & c' & e & Hk & _ & Hr)].
  - rewrite Hok in Hj |- *. cbn [snd app] in Hj |- *.
    apply lookup_lt_Some in Hj. rewrite length_accepted in Hj.
    destruct (lookup_lt_is_Some_2 cs i ltac:(lia)) as [c Hc].
    exists c. split; [done|]. unfold accepted. by rewrite list_lookup_fmap, Hc.
  - rewrite Hr in Hj |- *. cbn [snd app] in Hj |- *.
    assert (Hlen : length (accepted (take k cs)) = k).
    { rewrite length_accepted, length_take. apply lookup_lt_Some in Hk. lia. }
    apply lookup_lt_Some in Hj. rewrite length_app, Hlen in Hj. cbn in Hj.
    apply lookup_lt_Some in Hk.
    destruct (lookup_lt_is_Some_2 cs i ltac:(lia)) as [c Hc].
    exists c. split; [done|].
    rewrite lookup_app_l by (rewrite Hlen; lia).
    unfold accepted. rewrite list_lookup_fmap, lookup_take_lt by lia. by rewrite Hc.
Qed.

(** ** [/deploy]: when a secret is submitted *)

Lemma secret_data_of_empty_iff envs :
  Service1.secret_data_of envs = ∅ <->
  Forall (fun e => Service1.IsSecret e = false) envs.
Proof.
  induction envs as [|x envs IH] using rev_ind.
  - split; [constructor | done].
  - rewrite secret_data_of_snoc, Forall_app, Forall_singleton.
    destruct (Service1.IsSecret x).
    + split; [intros H; by apply insert_non_empty in H | intros [_ ?]; done].
    + rewrite IH. tauto.
Qed.

(** X1. [create_k8s_objects] submits a secret exactly when some entry of
    the environment is marked secret: the request then plans a secret, the
    deployment, the service and the ingress, in this order, and otherwise the
    last three only (an empty environment among the cases); a request without
    a marked entry submits no secret on any cluster. *)
Theorem secret_planned_iff_marked
    (api : cluster) (data : Service1.DeployRequest) :
  kind_of <$> manifest (Service1.deploy data) =
    (if decide (Exists (fun e => Service1.IsSecret e = true) (Service1.Envs data))
     then [KSecret; KDeployment; KService; KIngress]
     else [KDeployment; KService; KIngress]) /\
  (Forall (fun e => Service1.IsSecret e = false) (Service1.Envs data) ->
   secrets (calls (Service1.deploy_application api data).2) = []).
Proof.
  split.
  - rewrite service1_manifest. unfold Service1.planned.
    destruct (decide (Exists _ _)) as [Hex|Hnex].
    + apply secret_data_of_nonempty in Hex. by rewrite decide_False.
    + rewrite decide_True; [done|]. apply secret_data_of_empty_iff.
      apply Forall_forall. intros e He.
      destruct (Service1.IsSecret e) eqn:Hs; [|done].
      destruct Hnex. apply Exists_exists. by exists e.
  - intros Hall. apply secret_data_of_empty_iff in Hall.
    pose proof (calls_submit_all_prefix api (Service1.planned data)) as Hp.
    rewrite <- service1_log in Hp. apply secrets_prefix in Hp.
    unfold Service1.planned in Hp. rewrite decide_True in Hp by done.
    cbn in Hp. by apply prefix_nil_inv in Hp.
Qed.

Lemma secret_planned_iff_marked_witness :
  Forall (fun e => Service1.IsSecret e = false) (Service1.Envs Scenario.plain) /\
  secrets (calls (Service1.deploy_application accept_all Scenario.plain).2) = [].
Proof.
  assert (H : Forall (fun e => Service1.IsSecret e = false)
                (Service1.Envs Scenario.plain)) by (by repeat constructor).
  split; [exact H|].
  exact (proj2 (secret_planned_iff_marked accept_all Scenario.plain) H).
Defined.

(** ** [/deploy]: the references of the deployment *)

Lemma secret_key_bound envs e :
  e ∈ envs -> Service1.IsSecret e = true ->
  is_Some (Service1.secret_data_of envs !! Service1.Key e).
Proof.
  induction envs as [|x envs IH] using rev_ind; intros Hin Hs.
  - by apply elem_of_nil in Hin.
  - rewrite secret_data_of_snoc. apply elem_of_app in Hin as [Hin|Hin].
    + destruct (Service1.IsSecret x); [|by apply IH].
      apply lookup_insert_is_Some.
      destruct (decide (Service1.Key x = Service1.Key e)); [by left|].
      right. split; [done | by apply IH].
    + apply list_elem_of_singleton in Hin as ->. rewrite Hs.
      rewrite lookup_insert_eq. by eexists.
Qed.

Lemma deployment_body_refs app_name replicas image_address image_tag resources
    envs service_port ref :
  ref ∈ secret_refs (deployment_template
           (Service1.deployment_body app_name replicas image_address image_tag
              resources envs service_port)) ->
  exists e, e ∈ envs /\ Service1.IsSecret e = true /\
            selector_name ref = app_name +:+ "-secret" /\
            selector_key ref = Service1.Key e.
Proof.
  unfold secret_refs. cbn. rewrite app_nil_r, omap_app. intros Hin.
  apply elem_of_app in Hin as [Hin|Hin].
  - apply list_elem_of_omap in Hin as (var & Hvar & Hfrom).
    apply list_elem_of_fmap in Hvar as (e & -> & _). done.
  - apply list_elem_of_omap in Hin as (var & Hvar & Hfrom).
    apply list_elem_of_fmap in Hvar as (e & -> & He).
    apply list_elem_of_filter in He as [Hs He]. cbn in Hfrom.
    injection Hfrom as <-. by exists e.
Qed.

(** X2. Every secret reference of a deployment that [/deploy] submits
    resolves: the request has had a secret accepted before, the reference
    names that secret, and the key it selects is bound in the payload of the
    secret. *)
Theorem deployment_secret_refs_resolve
    (api : cluster) (data : Service1.DeployRequest)
    (d : V1Deployment) (ref : V1SecretKeySelector) :
  create_namespaced_deployment "default" d
    ∈ calls (Service1.deploy_application api data).2 ->
  ref ∈ secret_refs (deployment_template d) ->
  exists s,
    (create_namespaced_secret "default" s, None)
      ∈ (Service1.deploy_application api data).2 /\
    secret_metadata_name s = selector_name ref /\
    is_Some (secret_data s !! selector_key ref).
Proof.
  rewrite service1_log. intros Hd Href.
  unfold calls in Hd. apply list_elem_of_fmap in Hd as ([c a] & Hc & Hd).
  cbn in Hc. subst c. apply list_elem_of_lookup in Hd as [j Hj].
  pose proof (log_lookup_sequence _ _ _ _ _ Hj) as Hpl.
  assert (Hbody : d = Service1.deployment_body (Service1.AppName data)
            (Service1.Replicas data) (Service1.ImageAddress data)
            (Service1.ImageTag data) (Service1.ResourcesOf data)
            (Service1.Envs data) (Service1.ServicePort data)).
  { unfold Service1.planned in Hpl. destruct (decide _); cbn [app] in Hpl.
    - destruct j as [|[|[|j]]]; cbn [lookup list_lookup] in Hpl;
        first [congruence | by destruct j].
    - destruct j as [|[|[|[|j]]]]; cbn [lookup list_lookup] in Hpl;
        first [congruence | by destruct j]. }
  subst d. apply deployment_body_refs in Href as (e & He & Hs & Hname & Hkey).
  assert (Hne : Service1.secret_data_of (Service1.Envs data) <> ∅).
  { apply secret_data_of_nonempty, Exists_exists. by exists e. }
  unfold Service1.planned in Hj, Hpl |- *. rewrite decide_False in Hj, Hpl |- * by done.
  cbn [app] in Hj, Hpl |- *.
  destruct j as [|j]; [cbn [lookup list_lookup] in Hpl; congruence|].
  destruct (log_before_accepted _ _ 0%nat _ _ Hj ltac:(lia)) as (c & Hc & Hacc).
  cbn in Hc. injection Hc as <-.
  eexists. split; [eapply list_elem_of_lookup_2, Hacc|]. cbn.
  split; [done|]. rewrite Hkey. by apply secret_key_bound.
Qed.

Lemma deployment_secret_refs_resolve_witness :
  exists s,
    (create_namespaced_secret "default" s, None)
      ∈ (Service1.deploy_application (Scenario.refuse_at 2 (ApiException 409))
           Scenario.api1).2 /\
    secret_metadata_name s = "api1-secret" /\
    is_Some (secret_data s !! "TOKEN").
Proof.
  apply (deployment_secret_refs_resolve (Scenario.refuse_at 2 (ApiException 409))
           Scenario.api1
           (Service1.deployment_body "api1" 2 "repo/img" "v1"
              {| Service1.CPU := "100m"; Service1.RAM := "128Mi" |}
              (Service1.Envs Scenario.api1) 8080)
           {| selector_name := "api1-secret"; selector_key := "TOKEN" |}).
  - vm_compute. apply list_elem_of_further, list_elem_of_here.
  - vm_compute. apply list_elem_of_here.
Defined.

(** ** [/deploy]: the environment of the container *)

Lemma keys_partition (app_name : string) (envs : list Service1.Env) :
  env_name <$> ((Service1.plain_env <$> filter (fun e => Service1.IsSecret e = false) envs) ++
                (Service1.secret_env app_name <$>
                   filter (fun e => Service1.IsSecret e = true) envs))
  ≡ₚ Service1.Key <$> envs.
Proof.
  induction envs as [|e envs IH]; [done|].
  rewrite !filter_cons. destruct (Service1.IsSecret e) eqn:Hs.
  - rewrite decide_False, decide_True by done. cbn [fmap list_fmap].
    rewrite fmap_app in IH |- *. cbn [fmap list_fmap].
    rewrite <- Permutation_middle. cbn. by f_equiv.
  - rewrite decide_True, decide_False by done. cbn. by f_equiv.
Qed.

(** X3. The environment of the container that [create_deployment] builds
    has one variable per entry of the request, under the key of the entry:
    up to the order, its names are the keys of the entries.  A variable that
    carries a value comes from an entry that is not marked secret and carries
    the value of that entry; every entry marked secret gives a variable
    without a value, holding a reference to its key. *)
Theorem deployment_env_partition
    (app_name : string) (replicas : Z) (image_address image_tag : string)
    (resources : Service1.Resources) (envs : list Service1.Env) (service_port : Z) :
  env_name <$> (containers (deployment_template
                  (Service1.deployment_body app_name replicas image_address
                     image_tag resources envs service_port)) ≫= env)
    ≡ₚ Service1.Key <$> envs /\
  (forall var v,
     var ∈ containers (deployment_template
             (Service1.deployment_body app_name replicas image_address
                image_tag resources envs service_port)) ≫= env ->
     env_value var = Some v ->
     env_value_from var = None /\
     exists e, e ∈ envs /\ Service1.IsSecret e = false /\
               Service1.Key e = env_name var /\ Service1.Value e = v) /\
  (forall e,
     e ∈ envs -> Service1.IsSecret e = true ->
     exists var,
       var ∈ containers (deployment_template
               (Service1.deployment_body app_name replicas image_address
                  image_tag resources envs service_port)) ≫= env /\
       env_name var = Service1.Key e /\ env_value var = None /\
       env_value_from var = Some {| selector_name := app_name +:+ "-secret";
                                    selector_key := Service1.Key e |}).
Proof.
  cbn [Service1.deployment_body deployment_template containers mbind list_bind env].
  rewrite app_nil_r. split; [apply keys_partition|]. split.
  - intros var v Hin Hv. apply elem_of_app in Hin as [Hin|Hin];
      apply list_elem_of_fmap in Hin as (e & -> & He);
      apply list_elem_of_filter in He as [Hs He]; cbn in Hv; [|done].
    injection Hv as <-. split; [done|]. by exists e.
  - intros e He Hs. exists (Service1.secret_env app_name e).
    split; [|done]. apply elem_of_app. right.
    apply list_elem_of_fmap. exists e. split; [done|].
    by apply list_elem_of_filter.
Qed.

(** ** [/deploy]: the service reaches the pods of the deployment *)

Lemma service1_ingress_in_log api data ing :
  ing ∈ ingresses (calls (Service1.deploy_application api data).2) ->
  ing = Service1.ingress_body (Service1.AppName data) (Service1.DomainAddress data)
          (Service1.ServicePort data).
Proof.
  intros Hin. pose proof (calls_submit_all_prefix api (Service1.planned data)) as Hp.
  rewrite <- service1_log in Hp. apply ingresses_prefix in Hp as [rest Hp].
  assert (Hin' : ing ∈ ingresses (Service1.planned data))
    by (rewrite Hp; apply elem_of_app; by left).
  unfold Service1.planned in Hin'.
  destruct (decide _); cbn in Hin'; by apply list_elem_of_singleton in Hin'.
Qed.

(** X4. When [/deploy] submits its service, the deployment of the request
    has been accepted before; the selector of the service is the label set of
    the pods of that deployment, which is also the selector of the
    deployment; the service listens on the port of the request and targets
    the port the container declares.  Any ingress of the request routes the
    domain of the request to that service and port. *)
Theorem deploy_service_reaches_pods
    (api : cluster) (data : Service1.DeployRequest) (svc : V1Service) :
  create_namespaced_service "default" svc
    ∈ calls (Service1.deploy_application api data).2 ->
  exists d,
    (create_namespaced_deployment "default" d, None)
      ∈ (Service1.deploy_application api data).2 /\
    service_selector svc = template_labels (deployment_template d) /\
    deployment_selector d = template_labels (deployment_template d) /\
    port svc = Service1.ServicePort data /\
    (exists c, containers (deployment_template d) = [c] /\
               container_port c = target_port svc) /\
    (forall ing,
       ing ∈ ingresses (calls (Service1.deploy_application api data).2) ->
       host ing = Service1.DomainAddress data /\
       backend_service_name ing = service_metadata_name svc /\
       backend_port_number ing = port svc).
Proof.
  intros Hsvc.
  assert (Hing := service1_ingress_in_log api data).
  rewrite service1_log in Hsvc, Hing |- *.
  unfold calls in Hsvc. apply list_elem_of_fmap in Hsvc as ([c a] & Hc & Hsvc).
  cbn in Hc. subst c. apply list_elem_of_lookup in Hsvc as [j Hj].
  pose proof (log_lookup_sequence _ _ _ _ _ Hj) as Hpl.
  exists (Service1.deployment_body (Service1.AppName data)
            (Service1.Replicas data) (Service1.ImageAddress data)
            (Service1.ImageTag data) (Service1.ResourcesOf data)
            (Service1.Envs data) (Service1.ServicePort data)).
  assert (Hbody : svc = Service1.service_body (Service1.AppName data)
                          (Service1.ServicePort data) /\
          exists i, (i < j)%nat /\
            Service1.planned data !! i =
              Some (create_namespaced_deployment "default"
                      (Service1.deployment_body (Service1.AppName data)
                         (Service1.Replicas data) (Service1.ImageAddress data)
                         (Service1.ImageTag data) (Service1.ResourcesOf data)
                         (Service1.Envs data) (Service1.ServicePort data)))).
  { unfold Service1.planned in Hpl |- *. destruct (decide _); cbn [app] in Hpl |- *.
    - destruct j as [|[|[|j]]]; cbn [lookup list_lookup] in Hpl;
        first [congruence | by destruct j | idtac].
      split; [congruence|]. exists 0%nat. split; [lia|done].
    - destruct j as [|[|[|[|j]]]]; cbn [lookup list_lookup] in Hpl;
        first [congruence | by destruct j | idtac].
      split; [congruence|]. exists 1%nat. split; [lia|done]. }
  destruct Hbody as [-> (i & Hi & Hpi)].
  destruct (log_before_accepted _ _ i _ _ Hj Hi) as (c & Hc & Hacc).
  rewrite Hpi in Hc. injection Hc as <-.
  split; [eapply list_elem_of_lookup_2, Hacc|].
  do 3 (split; [reflexivity|]).
  split; [by eexists|].
  intros ing Hin. by rewrite (Hing ing Hin).
Qed.

Lemma deploy_service_reaches_pods_witness :
  exists d,
    (create_namespaced_deployment "default" d, None)
      ∈ (Service1.deploy_application accept_all Scenario.api1).2 /\
    service_selector (Service1.service_body "api1" 8080)
      = template_labels (deployment_template d) /\
    deployment_selector d = template_labels (deployment_template d) /\
    port (Service1.service_body "api1" 8080) = Service1.ServicePort Scenario.api1 /\
    (exists c, containers (deployment_template d) = [c] /\
               container_port c = target_port (Service1.service_body "api1" 8080)) /\
    (forall ing,
       ing ∈ ingresses (calls (Service1.deploy_application accept_all Scenario.api1).2) ->
       host ing = Service1.DomainAddress Scenario.api1 /\
       backend_service_name ing = service_metadata_name (Service1.service_body "api1" 8080) /\
       backend_port_number ing = port (Service1.service_body "api1" 8080)).
Proof.
  apply (deploy_service_reaches_pods accept_all Scenario.api1
           (Service1.service_body "api1" 8080)).
  vm_compute. do 2 apply list_elem_of_further. apply list_elem_of_here.
Defined.

(** ** [/deploy]: the answer of the handler *)

(** X5. [deploy_application] answers with the success message and 200
    exactly when every call of the request was accepted; with 409 exactly
    when a call was refused by an [ApiException] of status 409; and with 500
    and the exception for every other refusal, so that no other status of the
    cluster reaches the caller.  It never answers with another code. *)
Theorem deploy_application_response
    (api : cluster) (data : Service1.DeployRequest) :
  ((Service1.deploy_application api data).1 = (Message "Deployment initiated", 200) <->
   (Service1.deploy_application api data).2 = accepted (manifest (Service1.deploy data))) /\
  ((Service1.deploy_application api data).1.2 = 409 <->
   exists c, (c, Some (ApiException 409)) ∈ (Service1.deploy_application api data).2) /\
  (forall c e,
     (c, Some e) ∈ (Service1.deploy_application api data).2 ->
     e <> ApiException 409 ->
     (Service1.deploy_application api data).1 = (ErrorOf e, 500)) /\
  ((Service1.deploy_application api data).1.2 = 200 \/
   (Service1.deploy_application api data).1.2 = 409 \/
   (Service1.deploy_application api data).1.2 = 500).
Proof.
  rewrite service1_manifest.
  unfold Service1.deploy_application, run. rewrite service1_deploy_planned.
  destruct (submit_all_run api (Service1.planned data) [])
    as [Hok | (k & c' & e' & Hk & _ & Hr)].
  - rewrite Hok. cbn [fst snd app]. split; [done|]. split; [|split; [|by left]].
    + split; [done|]. intros [c Hc]. by apply elem_of_accepted in Hc.
    + intros c e Hc. by apply elem_of_accepted in Hc.
  - rewrite Hr. cbn [app].
    assert (Hnot : accepted (take k (Service1.planned data)) ++ [(c', Some e')]
                   <> accepted (Service1.planned data)).
    { intros Heq. apply (elem_of_accepted (Service1.planned data) c' e').
      rewrite <- Heq. apply elem_of_app. right. apply list_elem_of_here. }
    destruct e' as [status|cls]; [destruct (status =? 409) eqn:Hs|]; cbn [fst snd].
    + apply Z.eqb_eq in Hs as ->. split; [split; [done|by intros ?]|].
      split; [split; [|done]|split; [|by right; left]].
      * intros _. exists c'. apply elem_of_app. right. apply list_elem_of_here.
      * intros c e Hin Hne. by apply elem_of_stopped in Hin as [_ ->].
    + apply Z.eqb_neq in Hs. split; [split; [done|by intros ?]|].
      split; [split; [done|]|split; [|by right; right]].
      * intros [c Hin]. apply elem_of_stopped in Hin as [_ [= ?]]. done.
      * intros c e Hin Hne. by apply elem_of_stopped in Hin as [_ ->].
    + split; [split; [done|by intros ?]|].
      split; [split; [done|]|split; [|by right; right]].
      * intros [c Hin]. by apply elem_of_stopped in Hin as [_ ?].
      * intros c e Hin Hne. by apply elem_of_stopped in Hin as [_ ->].
Qed.

Lemma deploy_application_response_witness :
  (Service1.deploy_application (Scenario.refuse_at 1 (ApiException 403)) Scenario.api1).1
    = (ErrorOf (ApiException 403), 500).
Proof.
  apply (proj1 (proj2 (proj2 (deploy_application_response
           (Scenario.refuse_at 1 (ApiException 403)) Scenario.api1)))
           (create_namespaced_deployment "default"
              (Service1.deployment_body "api1" 2 "repo/img" "v1"
                 {| Service1.CPU := "100m"; Service1.RAM := "128Mi" |}
                 (Service1.Envs Scenario.api1) 8080))).
  - vm_compute. apply list_elem_of_further, list_elem_of_here.
  - discriminate.
Defined.

Lemma deployment_env_partition_witness :
  exists var,
    var ∈ containers (deployment_template
            (Service1.deployment_body "api1" 2 "repo/img" "v1"
               {| Service1.CPU := "100m"; Service1.RAM := "128Mi" |}
               (Service1.Envs Scenario.api1) 8080)) ≫= env /\
    env_name var = "TOKEN" /\ env_value var = None /\
    env_value_from var = Some {| selector_name := "api1" +:+ "-secret";
                                 selector_key := "TOKEN" |}.
Proof.
  apply (proj2 (proj2 (deployment_env_partition "api1" 2 "repo/img" "v1"
           {| Service1.CPU := "100m"; Service1.RAM := "128Mi" |}
           (Service1.Envs Scenario.api1) 8080))
           {| Service1.Key := "TOKEN"; Service1.Value := "abc";
              Service1.IsSecret := true |}).
  - apply list_elem_of_further, list_elem_of_here.
  - reflexivity.
Defined.

(** ** [/deploy_postgres]: a refused call *)

Lemma refusal_is_last api cs k c e :
  (submit_all cs api []).2 !! k = Some (c, Some e) ->
  cs !! k = Some c /\
  submit_all cs api [] = (Raises e, accepted (take k cs) ++ [(c, Some e)]).
Proof.
  intros Hk.
  destruct (submit_all_run api cs []) as [Hok | (k' & c' & e' & Hk' & _ & Hr)].
  - rewrite Hok in Hk. cbn [snd app] in Hk.
    apply lookup_accepted in Hk as [? _]. done.
  - rewrite Hr in Hk |- *. cbn [snd app] in Hk |- *.
    by apply (lookup_stopped _ _ _ _ _ _ _ Hk') in Hk as (-> & -> & ->).
Qed.

Lemma postgres_log_nonempty api fs draw data ev :
  ev ∈ (PostgresApi.deploy_postgres api fs draw data).2 ->
  exists config_data credentials,
    PostgresApi.read_config_file fs "postgresql.conf" = Returns config_data /\
    PostgresApi.generate_credentials draw = Returns credentials /\
    (PostgresApi.deploy_postgres api fs draw data).2 =
      (submit_all (PostgresApi.planned data config_data credentials.1 credentials.2)
         api []).2.
Proof.
  rewrite postgres_log. intros Hin.
  destruct (PostgresApi.read_config_file fs "postgresql.conf") as [cfg|e] eqn:Hc.
  - destruct (PostgresApi.generate_credentials draw) as [cr|e] eqn:Hg.
    + exists cfg, cr. by rewrite (postgres_deploy_planned _ _ _ _ _ _ _ Hc Hg).
    + rewrite (postgres_deploy_no_credentials _ _ _ _ _ _ _ Hc Hg) in Hin.
      by apply elem_of_nil in Hin.
  - rewrite (postgres_deploy_no_config _ _ _ _ _ _ Hc) in Hin.
    by apply elem_of_nil in Hin.
Qed.

(** X6. When the cluster refuses the call number [k] of a
    [/deploy_postgres] request, the configuration had been read and the
    credentials drawn, the calls made are exactly the first [k + 1] of the
    sequence secret, config map, stateful set, service and (when external)
    ingress, the [k] before it stay created, and the handler answers with the
    exception and the status of an [ApiException], or 500 for another
    exception. *)
Theorem postgres_failed_submission
    (api : cluster) (fs : string -> option TextIO) (draw : nat -> nat)
    (data : PostgresApi.PostgresRequest) (k : nat) (c : call) (e : exn) :
  (PostgresApi.deploy_postgres api fs draw data).2 !! k = Some (c, Some e) ->
  exists config_data credentials,
    PostgresApi.read_config_file fs "postgresql.conf" = Returns config_data /\
    PostgresApi.generate_credentials draw = Returns credentials /\
    PostgresApi.planned data config_data credentials.1 credentials.2 !! k = Some c /\
    calls (PostgresApi.deploy_postgres api fs draw data).2 =
      take (S k) (PostgresApi.planned data config_data credentials.1 credentials.2) /\
    created (PostgresApi.deploy_postgres api fs draw data).2 =
      take k (PostgresApi.planned data config_data credentials.1 credentials.2) /\
    (PostgresApi.deploy_postgres api fs draw data).1 =
      (ErrorOf e, match e with ApiException status => status | Exception _ => 500 end).
Proof.
  intros Hk.
  destruct (postgres_log_nonempty api fs draw data (c, Some e))
    as (cfg & cr & Hc & Hg & Hlog); [by eapply list_elem_of_lookup_2|].
  exists cfg, cr. split; [done|]. split; [done|].
  rewrite Hlog in Hk |- *. apply refusal_is_last in Hk as [Hpl Hrun].
  split; [done|]. rewrite Hrun. cbn [snd].
  split; [by apply calls_stopped|]. split; [by apply created_stopped|].
  unfold PostgresApi.deploy_postgres, run.
  rewrite (postgres_deploy_planned _ _ _ _ _ _ _ Hc Hg), Hrun. by destruct e.
Qed.

Lemma postgres_failed_submission_witness :
  exists config_data credentials,
    PostgresApi.read_config_file Scenario.fs_ok "postgresql.conf" = Returns config_data /\
    PostgresApi.generate_credentials Scenario.draw_ok = Returns credentials /\
    PostgresApi.planned (Scenario.db true) config_data credentials.1 credentials.2 !! 2%nat
      = Some (create_namespaced_stateful_set "default"
                (PostgresApi.statefulset_body "db"
                   {| PostgresApi.cpu := "500m"; PostgresApi.memory := "1Gi" |})) /\
    calls (PostgresApi.deploy_postgres (Scenario.refuse_at 2 (ApiException 409))
             Scenario.fs_ok Scenario.draw_ok (Scenario.db true)).2 =
      take 3 (PostgresApi.planned (Scenario.db true) config_data credentials.1 credentials.2) /\
    created (PostgresApi.deploy_postgres (Scenario.refuse_at 2 (ApiException 409))
               Scenario.fs_ok Scenario.draw_ok (Scenario.db true)).2 =
      take 2 (PostgresApi.planned (Scenario.db true) config_data credentials.1 credentials.2) /\
    (PostgresApi.deploy_postgres (Scenario.refuse_at 2 (ApiException 409))
       Scenario.fs_ok Scenario.draw_ok (Scenario.db true)).1 =
      (ErrorOf (ApiException 409), 409).
Proof.
  apply (postgres_failed_submission (Scenario.refuse_at 2 (ApiException 409))
           Scenario.fs_ok Scenario.draw_ok (Scenario.db true) 2
           (create_namespaced_stateful_set "default"
              (PostgresApi.statefulset_body "db"
                 {| PostgresApi.cpu := "500m"; PostgresApi.memory := "1Gi" |}))
           (ApiException 409)).
  vm_compute. reflexivity.
Defined.

(** ** [/deploy_postgres]: the references of the stateful set *)

Lemma read_config_file_singleton fs filepath config_data :
  PostgresApi.read_config_file fs filepath = Returns config_data ->
  exists content, config_data = {["postgresql.conf" := content]}.
Proof.
  unfold PostgresApi.read_config_file.
  destruct (fs filepath) as [file|]; [|done].
  destruct (PostgresApi.config_lines (lines_of file) ∅) as [cfg|e]; cbn; [|done].
  destruct (undecodable file); [done|].
  destruct (cfg !! "shared_buffers"); [|done].
  destruct (cfg !! "max_connections"); [|done].
  intros [= <-]. by eexists.
Qed.

(** The position of a call in the log of [/deploy_postgres], and what was
    accepted before it. *)
Lemma postgres_call_position api fs draw data c :
  c ∈ calls (PostgresApi.deploy_postgres api fs draw data).2 ->
  exists config_data credentials j,
    PostgresApi.read_config_file fs "postgresql.conf" = Returns config_data /\
    PostgresApi.generate_credentials draw = Returns credentials /\
    PostgresApi.planned data config_data credentials.1 credentials.2 !! j = Some c /\
    forall i, (i < j)%nat ->
      exists c', PostgresApi.planned data config_data credentials.1 credentials.2 !! i
                   = Some c' /\
                 (c', None) ∈ (PostgresApi.deploy_postgres api fs draw data).2.
Proof.
  intros Hin. unfold calls in Hin.
  apply list_elem_of_fmap in Hin as ([c0 a] & Hc0 & Hin). cbn in Hc0. subst c0.
  destruct (postgres_log_nonempty _ _ _ _ _ Hin) as (cfg & cr & Hc & Hg & Hlog).
  rewrite Hlog in Hin |- *. apply list_elem_of_lookup in Hin as [j Hj].
  exists cfg, cr, j. split; [done|]. split; [done|].
  split; [by eapply log_lookup_sequence|].
  intros i Hi. destruct (log_before_accepted _ _ i _ _ Hj Hi) as (c' & Hc' & Hacc).
  exists c'. split; [done|]. by eapply list_elem_of_lookup_2.
Qed.

(** X7. When [/deploy_postgres] submits its stateful set, the secret and
    the config map of the request have been accepted before.  The two
    environment variables of the container refer to that secret by name, with
    keys bound in its payload; the volume of the pod is that config map; the
    container mounts that volume, at a sub-path that is a key of the config
    map; and the stateful set names its governing service after itself. *)
Theorem statefulset_references_resolve
    (api : cluster) (fs : string -> option TextIO) (draw : nat -> nat)
    (data : PostgresApi.PostgresRequest) (ss : V1StatefulSet) :
  create_namespaced_stateful_set "default" ss
    ∈ calls (PostgresApi.deploy_postgres api fs draw data).2 ->
  exists s cm,
    (create_namespaced_secret "default" s, None)
      ∈ (PostgresApi.deploy_postgres api fs draw data).2 /\
    (create_namespaced_config_map "default" cm, None)
      ∈ (PostgresApi.deploy_postgres api fs draw data).2 /\
    length (secret_refs (statefulset_template ss)) = 2%nat /\
    Forall (fun ref => selector_name ref = secret_metadata_name s /\
                       is_Some (secret_data s !! selector_key ref))
           (secret_refs (statefulset_template ss)) /\
    Forall (fun v => volume_config_map v = configmap_metadata_name cm)
           (volumes (statefulset_template ss)) /\
    Forall (fun c =>
              volume_mounts c <> [] /\
              Forall (fun m =>
                        (exists v, v ∈ volumes (statefulset_template ss) /\
                                   volume_name v = mount_name m) /\
                        is_Some (configmap_data cm !! sub_path m))
                     (volume_mounts c))
           (containers (statefulset_template ss)) /\
    service_name ss = statefulset_metadata_name ss.
Proof.
  intros Hss.
  destruct (postgres_call_position _ _ _ _ _ Hss) as (cfg & cr & j & Hc & Hg & Hj & Hbefore).
  assert (Hj2 : j = 2%nat /\
                ss = PostgresApi.statefulset_body (PostgresApi.AppName data)
                       (PostgresApi.ResourcesOf data)).
  { unfold PostgresApi.planned in Hj. cbn [app] in Hj.
    destruct j as [|[|[|[|j]]]]; cbn [lookup list_lookup] in Hj; try congruence.
    - split; [done | congruence].
    - destruct (PostgresApi.External data); destruct j; cbn in Hj;
        first [congruence | by destruct j]. }
  destruct Hj2 as [-> ->].
  destruct (Hbefore 0%nat ltac:(lia)) as (c0 & Hc0 & Hacc0).
  destruct (Hbefore 1%nat ltac:(lia)) as (c1 & Hc1 & Hacc1).
  unfold PostgresApi.planned in Hc0, Hc1. cbn in Hc0, Hc1.
  injection Hc0 as <-. injection Hc1 as <-.
  eexists _, _. split; [exact Hacc0|]. split; [exact Hacc1|].
  destruct (read_config_file_singleton _ _ _ Hc) as [content ->].
  split; [reflexivity|]. split; [|split; [|split; [|reflexivity]]].
  - unfold secret_refs. cbn. repeat constructor; cbn.
    + rewrite lookup_insert_ne, lookup_insert_eq by done. by eexists.
    + rewrite lookup_insert_eq. by eexists.
  - cbn. by repeat constructor.
  - cbn. repeat constructor; [done| |].
    + eexists. split; [apply list_elem_of_here | done].
    + cbn. rewrite lookup_singleton_eq. by eexists.
Qed.

Lemma statefulset_references_resolve_witness :
  exists s cm,
    (create_namespaced_secret "default" s, None)
      ∈ (PostgresApi.deploy_postgres (Scenario.refuse_at 3 (ApiException 500))
           Scenario.fs_ok Scenario.draw_ok (Scenario.db false)).2 /\
    (create_namespaced_config_map "default" cm, None)
      ∈ (PostgresApi.deploy_postgres (Scenario.refuse_at 3 (ApiException 500))
           Scenario.fs_ok Scenario.draw_ok (Scenario.db false)).2 /\
    secret_metadata_name s = "db-secret" /\ configmap_metadata_name cm = "db-config".
Proof.
  destruct (statefulset_references_resolve (Scenario.refuse_at 3 (ApiException 500))
              Scenario.fs_ok Scenario.draw_ok (Scenario.db false)
              (PostgresApi.statefulset_body "db"
                 {| PostgresApi.cpu := "500m"; PostgresApi.memory := "1Gi" |}))
    as (s & cm & Hs & Hcm & _ & Hrefs & Hvol & _).
  - vm_compute. do 2 apply list_elem_of_further. apply list_elem_of_here.
  - exists s, cm. split; [exact Hs|]. split; [exact Hcm|].
    apply Forall_cons in Hrefs as [[Hname _] _].
    apply Forall_cons in Hvol as [Hv _].
    split; [symmetry; exact Hname | symmetry; exact Hv].
Defined.

(** ** [/deploy_postgres]: the service and its exposure *)

(** X8. When [/deploy_postgres] submits its service, the stateful set has
    been accepted before; the service carries the name the stateful set gives
    as its governing service, selects the labels of its pods and targets the
    port its container declares; it is of type [LoadBalancer] exactly when
    the request is external, and has no type otherwise.  Any ingress of the
    request routes [{name}.example.com] to that service and port. *)
Theorem postgres_service_reaches_pods
    (api : cluster) (fs : string -> option TextIO) (draw : nat -> nat)
    (data : PostgresApi.PostgresRequest) (svc : V1Service) :
  create_namespaced_service "default" svc
    ∈ calls (PostgresApi.deploy_postgres api fs draw data).2 ->
  exists ss,
    (create_namespaced_stateful_set "default" ss, None)
      ∈ (PostgresApi.deploy_postgres api fs draw data).2 /\
    service_name ss = service_metadata_name svc /\
    service_selector svc = template_labels (statefulset_template ss) /\
    statefulset_selector ss = template_labels (statefulset_template ss) /\
    (exists c, containers (statefulset_template ss) = [c] /\
               container_port c = target_port svc) /\
    service_type svc =
      (if PostgresApi.External data then Some "LoadBalancer" else None) /\
    (forall ing,
       ing ∈ ingresses (calls (PostgresApi.deploy_postgres api fs draw data).2) ->
       PostgresApi.External data = true /\
       host ing = PostgresApi.AppName data +:+ ".example.com" /\
       backend_service_name ing = service_metadata_name svc /\
       backend_port_number ing = port svc).
Proof.
  intros Hsvc.
  destruct (postgres_call_position _ _ _ _ _ Hsvc) as (cfg & cr & j & Hc & Hg & Hj & Hbefore).
  assert (Hj3 : j = 3%nat /\
                svc = PostgresApi.service_body (PostgresApi.AppName data)
                        (PostgresApi.External data)).
  { unfold PostgresApi.planned in Hj. cbn [app] in Hj.
    destruct j as [|[|[|[|j]]]]; cbn [lookup list_lookup] in Hj; try congruence.
    - split; [done | congruence].
    - destruct (PostgresApi.External data); destruct j; cbn in Hj;
        first [congruence | by destruct j]. }
  destruct Hj3 as [-> ->].
  destruct (Hbefore 2%nat ltac:(lia)) as (c2 & Hc2 & Hacc2).
  unfold PostgresApi.planned in Hc2. cbn in Hc2. injection Hc2 as <-.
  eexists. split; [exact Hacc2|].
  do 3 (split; [reflexivity|]). split; [by eexists|]. split; [reflexivity|].
  intros ing Hin.
  destruct (postgres_calls_prefix api fs draw data) as [Hnil | (cfg' & cr' & _ & _ & Hp)].
  - rewrite Hnil in Hin. by apply elem_of_nil in Hin.
  - apply ingresses_prefix in Hp as [rest Hp].
    assert (Hin' : ing ∈ ingresses (PostgresApi.planned data cfg' cr'.1 cr'.2))
      by (rewrite Hp; apply elem_of_app; by left).
    unfold PostgresApi.planned in Hin'.
    destruct (PostgresApi.External data); cbn in Hin'.
    + by apply list_elem_of_singleton in Hin' as ->.
    + by apply elem_of_nil in Hin'.
Qed.

Lemma postgres_service_reaches_pods_witness :
  exists ss,
    (create_namespaced_stateful_set "default" ss, None)
      ∈ (PostgresApi.deploy_postgres accept_all Scenario.fs_ok Scenario.draw_ok
           (Scenario.db true)).2 /\
    service_name ss = "db".
Proof.
  destruct (postgres_service_reaches_pods accept_all Scenario.fs_ok Scenario.draw_ok
              (Scenario.db true) (PostgresApi.service_body "db" true))
    as (ss & Hss & Hname & _).
  - vm_compute. do 3 apply list_elem_of_further. apply list_elem_of_here.
  - exists ss. split; [exact Hss | exact Hname].
Defined.

(** ** [read_config_file]: what a file is read as *)

Lemma length_split sep s : length (split sep s) = S (count_char sep s).
Proof.
  induction s as [|a s IH]; [done|]. cbn [split count_char].
  destruct (Ascii.eqb a sep); cbn [length]; [by rewrite IH|].
  destruct (split sep s) as [|h t]; cbn in *; lia.
Qed.

Lemma split_two sep s :
  count_char sep s = 1%nat <-> exists key value, split sep s = [key; value].
Proof.
  pose proof (length_split sep s) as Hlen. split.
  - intros Hc. rewrite Hc in Hlen.
    destruct (split sep s) as [|k [|v [|? ?]]]; cbn in Hlen; try lia. eauto.
  - intros (k & v & Hs). rewrite Hs in Hlen. cbn in Hlen. lia.
Qed.

Lemma config_lines_app l1 l2 config_data :
  PostgresApi.config_lines (l1 ++ l2) config_data =
  (config_data' ← PostgresApi.config_lines l1 config_data;
   PostgresApi.config_lines l2 config_data').
Proof.
  revert config_data. induction l1 as [|line l1 IH]; intros m; [done|].
  cbn [app PostgresApi.config_lines].
  destruct (decide (strip line = "")); [apply IH|].
  destruct (split "=" line) as [|key [|value [|? ?]]]; first [done | apply IH].
Qed.

(** One line: blank lines are skipped, a line with one [=] binds its key,
    any other line raises. *)
Lemma config_lines_one line config_data :
  (strip line = "" /\
   PostgresApi.config_lines [line] config_data = Returns config_data) \/
  (exists k v, PostgresApi.defines line k v /\
     PostgresApi.config_lines [line] config_data = Returns (<[k := v]> config_data)) \/
  (PostgresApi.malformed line /\
   PostgresApi.config_lines [line] config_data = Raises (Exception "ValueError")).
Proof.
  cbn [PostgresApi.config_lines].
  destruct (decide (strip line = "")) as [Hb|Hb]; [by left|]. right.
  destruct (decide (count_char "=" line = 1%nat)) as [Hc|Hc].
  - left. destruct (proj1 (split_two _ _) Hc) as (key & value & Hs). rewrite Hs.
    exists (strip key), (strip value). split; [|done].
    split; [done|]. by exists key, value.
  - right. split; [done|].
    destruct (split "=" line) as [|key [|value [|? ?]]] eqn:Hs; try done.
    destruct Hc. apply split_two. eauto.
Qed.

Lemma defines_not_malformed line k v :
  PostgresApi.defines line k v -> ~ PostgresApi.malformed line.
Proof.
  intros [_ (key & value & Hs & _)] [_ Hm]. apply Hm, split_two. eauto.
Qed.

Lemma defines_functional line k v k' v' :
  PostgresApi.defines line k v -> PostgresApi.defines line k' v' -> k = k' /\ v = v'.
Proof.
  intros [_ (key & value & Hs & <- & <-)] [_ (key' & value' & Hs' & <- & <-)].
  rewrite Hs in Hs'. by injection Hs' as <- <-.
Qed.

(** The loop over the lines raises, and then a [ValueError], exactly when
    some line is malformed. *)
Lemma config_lines_outcome lines : forall config_data,
  (Exists PostgresApi.malformed lines /\
   PostgresApi.config_lines lines config_data = Raises (Exception "ValueError")) \/
  (Forall (fun line => ~ PostgresApi.malformed line) lines /\
   exists config_data', PostgresApi.config_lines lines config_data = Returns config_data').
Proof.
  induction lines as [|line lines IH]; intros m.
  - right. split; [constructor | by eexists].
  - change (line :: lines) with ([line] ++ lines). rewrite config_lines_app.
    destruct (config_lines_one line m) as [[Hb ->] | [(k & v & Hd & ->) | [Hm ->]]]; cbn.
    + destruct (IH m) as [[Hex Hr] | [Hall Hr]].
      * left. split; [by apply Exists_cons_tl | done].
      * right. split; [|done]. apply Forall_cons. split; [|done]. by intros [? _].
    + destruct (IH (<[k:=v]> m)) as [[Hex Hr] | [Hall Hr]].
      * left. split; [by apply Exists_cons_tl | done].
      * right. split; [|done]. apply Forall_cons. split; [|done].
        by eapply defines_not_malformed.
    + left. split; [by apply Exists_cons_hd | done].
Qed.

(** X9. For a file that can be opened, [read_config_file] raises the
    [ValueError] of the unpacking [key, value = line.split('=')] exactly when
    the iteration yields a line that is not blank, white space being what
    [str.strip] removes, and does not hold exactly one [=] sign; blank lines
    never raise.  It raises [UnicodeDecodeError] exactly when no line that
    was yielded is malformed and the bytes that follow do not decode. *)
Theorem read_config_file_value_error
    (fs : string -> option TextIO) (filepath : string) (file : TextIO) :
  fs filepath = Some file ->
  (PostgresApi.read_config_file fs filepath = Raises (Exception "ValueError") <->
   Exists PostgresApi.malformed (lines_of file)) /\
  (PostgresApi.read_config_file fs filepath = Raises (Exception "UnicodeDecodeError") <->
   Forall (fun line => ~ PostgresApi.malformed line) (lines_of file) /\
   undecodable file = true).
Proof.
  intros Hfs. unfold PostgresApi.read_config_file. rewrite Hfs.
  destruct (config_lines_outcome (lines_of file) ∅) as [[Hex ->] | [Hall (cfg & ->)]]; cbn.
  - split; [done|]. split; [done|]. intros [Hall _].
    apply Exists_exists in Hex as (line & Hin & Hm).
    rewrite Forall_forall in Hall. by destruct (Hall line Hin).
  - assert (Hno : ~ Exists PostgresApi.malformed (lines_of file)).
    { intros Hex. apply Exists_exists in Hex as (line & Hin & Hm).
      rewrite Forall_forall in Hall. by destruct (Hall line Hin). }
    destruct (undecodable file).
    + split; [split; [discriminate | done] | done].
    + split; (split; [|intros; exfalso; intuition discriminate]).
      * destruct (cfg !! "shared_buffers"); [|discriminate].
        destruct (cfg !! "max_connections"); discriminate.
      * destruct (cfg !! "shared_buffers"); [|discriminate].
        destruct (cfg !! "max_connections"); discriminate.
Qed.

Lemma read_config_file_value_error_witness :
  (fun _ : string => Some (text_file "port 5432")) "postgresql.conf"
    = Some (text_file "port 5432") /\
  (PostgresApi.read_config_file (fun _ => Some (text_file "port 5432")) "postgresql.conf"
     = Raises (Exception "ValueError") <->
   Exists PostgresApi.malformed (lines_of (text_file "port 5432"))) /\
  (PostgresApi.read_config_file (fun _ => Some (text_file "port 5432")) "postgresql.conf"
     = Raises (Exception "UnicodeDecodeError") <->
   Forall (fun line => ~ PostgresApi.malformed line) (lines_of (text_file "port 5432")) /\
   undecodable (text_file "port 5432") = true).
Proof.
  split; [reflexivity|].
  exact (read_config_file_value_error (fun _ => Some (text_file "port 5432"))
           "postgresql.conf" (text_file "port 5432") eq_refl).
Defined.

Lemma snoc_split {A} (l : list A) (x : A) l1 e l2 :
  l ++ [x] = l1 ++ e :: l2 ->
  (l2 = [] /\ e = x /\ l1 = l) \/ (exists l2', l2 = l2' ++ [x] /\ l = l1 ++ e :: l2').
Proof.
  intros Heq. destruct l2 as [|y l2 _] using rev_ind.
  - apply app_inj_tail in Heq as [-> ->]. by left.
  - right. exists l2. rewrite app_comm_cons, app_assoc in Heq.
    apply app_inj_tail in Heq as [-> ->]. done.
Qed.

Lemma last_definition_snoc_other lines x k v :
  (forall v', ~ PostgresApi.defines x k v') ->
  PostgresApi.last_definition (lines ++ [x]) k v <-> PostgresApi.last_definition lines k v.
Proof.
  intros Hx. split.
  - intros (l1 & line & l2 & Heq & Hd & Hl2).
    apply snoc_split in Heq as [(-> & -> & ->) | (l2' & -> & ->)].
    + by destruct (Hx v).
    + rewrite Forall_app in Hl2. destruct Hl2 as [Hl2 _]. by exists l1, line, l2'.
  - intros (l1 & line & l2 & -> & Hd & Hl2).
    exists l1, line, (l2 ++ [x]). rewrite <- app_assoc. split; [done|]. split; [done|].
    apply Forall_app. split; [done|]. by apply Forall_singleton.
Qed.

Lemma last_definition_snoc_same lines x k v0 v :
  PostgresApi.defines x k v0 ->
  PostgresApi.last_definition (lines ++ [x]) k v <-> v = v0.
Proof.
  intros Hx. split.
  - intros (l1 & line & l2 & Heq & Hd & Hl2).
    apply snoc_split in Heq as [(-> & -> & ->) | (l2' & -> & ->)].
    + by destruct (defines_functional _ _ _ _ _ Hd Hx).
    + rewrite Forall_app, Forall_singleton in Hl2. destruct Hl2 as [_ Hl2].
      by destruct (Hl2 v0).
  - intros ->. exists lines, x, []. split; [done|]. split; [done|]. constructor.
Qed.

(** The map the loop builds binds a key to the value of its last definition,
    and leaves a key unbound exactly when no line defines it. *)
Lemma config_lines_lookup lines : forall config_data,
  PostgresApi.config_lines lines ∅ = Returns config_data ->
  (forall k v, config_data !! k = Some v <-> PostgresApi.last_definition lines k v) /\
  (forall k, config_data !! k = None <->
             Forall (fun line => forall v, ~ PostgresApi.defines line k v) lines).
Proof.
  induction lines as [|x lines IH] using rev_ind; intros cfg Hrun.
  - injection Hrun as <-. split.
    + intros k v. rewrite lookup_empty. split; [done|].
      intros (l1 & line & l2 & Heq & _). by destruct l1.
    + intros k. rewrite lookup_empty. split; [constructor | done].
  - rewrite config_lines_app in Hrun.
    destruct (PostgresApi.config_lines lines ∅) as [cfg0|e] eqn:H0; [|done].
    change (PostgresApi.config_lines [x] cfg0 = Returns cfg) in Hrun.
    destruct (IH cfg0 eq_refl) as [IHs IHn].
    destruct (config_lines_one x cfg0) as [[Hb Hr] | [(k0 & v0 & Hd & Hr) | [Hm Hr]]];
      rewrite Hr in Hrun; [| |done]; injection Hrun as <-.
    + assert (Hnd : forall k v', ~ PostgresApi.defines x k v') by (by intros k v' [? _]).
      split.
      * intros k v. by rewrite last_definition_snoc_other, IHs.
      * intros k. rewrite Forall_app, Forall_singleton, IHn. specialize (Hnd k). tauto.
    + split.
      * intros k v. destruct (decide (k0 = k)) as [->|Hne].
        -- rewrite lookup_insert_eq, (last_definition_snoc_same _ _ _ _ _ Hd).
           split; [by intros [= ->] | by intros ->].
        -- rewrite lookup_insert_ne by done.
           rewrite last_definition_snoc_other; [apply IHs|].
           intros v' Hd'. by destruct (defines_functional _ _ _ _ _ Hd Hd').
      * intros k. rewrite lookup_insert_None, Forall_app, Forall_singleton, IHn.
        split.
        -- intros [Hall Hne]. split; [done|]. intros v' Hd'.
           by destruct (defines_functional _ _ _ _ _ Hd Hd').
        -- intros [Hall Hx]. split; [done|]. intros ->. by destruct (Hx v0).
Qed.

(** X10. For a file that can be opened, [read_config_file] returns exactly
    when every byte decodes, no line is malformed and both [shared_buffers]
    and [max_connections] are defined; the map it returns has the single key
    [postgresql.conf], whose text gives each of the two settings the stripped
    value of the last line that defines it.  Blank lines, other keys and
    earlier definitions do not show in the result. *)
Theorem read_config_file_content
    (fs : string -> option TextIO) (filepath : string) (file : TextIO)
    (config_data : gmap string string) :
  fs filepath = Some file ->
  (PostgresApi.read_config_file fs filepath = Returns config_data <->
   Forall (fun line => ~ PostgresApi.malformed line) (lines_of file) /\
   undecodable file = false /\
   exists shared_buffers max_connections,
     PostgresApi.last_definition (lines_of file) "shared_buffers" shared_buffers /\
     PostgresApi.last_definition (lines_of file) "max_connections" max_connections /\
     config_data =
       {["postgresql.conf" :=
          "shared_buffers = " +:+ shared_buffers +:+ String LF
            ("max_connections = " +:+ max_connections)]}).
Proof.
  intros Hfs. unfold PostgresApi.read_config_file. rewrite Hfs.
  destruct (config_lines_outcome (lines_of file) ∅) as [[Hex Hr] | [Hall (cfg & Hr)]];
    rewrite Hr; cbn.
  - split; [done|]. intros [Hall _].
    apply Exists_exists in Hex as (line & Hin & Hm).
    rewrite Forall_forall in Hall. by destruct (Hall line Hin).
  - destruct (undecodable file); [split; [done | by intros (_ & ? & _)]|].
    destruct (config_lines_lookup _ _ Hr) as [Hs Hn].
    destruct (cfg !! "shared_buffers") as [sb|] eqn:Hsb.
    + destruct (cfg !! "max_connections") as [mc|] eqn:Hmc.
      * apply Hs in Hsb as Hsb'. apply Hs in Hmc as Hmc'. split.
        -- intros [= <-]. split; [done|]. split; [done|]. by exists sb, mc.
        -- intros (_ & _ & sb' & mc' & Hsb2 & Hmc2 & ->).
           apply Hs in Hsb2, Hmc2. congruence.
      * split; [done|]. intros (_ & _ & sb' & mc' & _ & Hmc2 & _).
        apply Hs in Hmc2. congruence.
    + split; [done|]. intros (_ & _ & sb' & mc' & Hsb2 & _).
      apply Hs in Hsb2. congruence.
Qed.

Lemma read_config_file_content_witness :
  Scenario.fs_ok "postgresql.conf" = Some (text_file Scenario.conf_text) /\
  (PostgresApi.read_config_file Scenario.fs_ok "postgresql.conf" =
     Returns {["postgresql.conf" :=
                "shared_buffers = 128MB" +:+ String LF "max_connections = 100"]} <->
   Forall (fun line => ~ PostgresApi.malformed line)
          (lines_of (text_file Scenario.conf_text)) /\
   undecodable (text_file Scenario.conf_text) = false /\
   exists shared_buffers max_connections,
     PostgresApi.last_definition (lines_of (text_file Scenario.conf_text))
       "shared_buffers" shared_buffers /\
     PostgresApi.last_definition (lines_of (text_file Scenario.conf_text))
       "max_connections" max_connections /\
     ({["postgresql.conf" :=
         "shared_buffers = 128MB" +:+ String LF "max_connections = 100"]}
        : gmap string string) =
       {["postgresql.conf" :=
          "shared_buffers = " +:+ shared_buffers +:+ String LF
            ("max_connections = " +:+ max_connections)]}).
Proof.
  split; [reflexivity|].
  exact (read_config_file_content Scenario.fs_ok "postgresql.conf"
           (text_file Scenario.conf_text) _ eq_refl).
Defined.

(** X11. For a file that can be opened, [read_config_file] raises
    [KeyError] exactly when every byte decodes, no line is malformed and no
    line defines [shared_buffers], or none defines [max_connections]. *)
Theorem read_config_file_key_error
    (fs : string -> option TextIO) (filepath : string) (file : TextIO) :
  fs filepath = Some file ->
  (PostgresApi.read_config_file fs filepath = Raises (Exception "KeyError") <->
   Forall (fun line => ~ PostgresApi.malformed line) (lines_of file) /\
   undecodable file = false /\
   (Forall (fun line => forall v, ~ PostgresApi.defines line "shared_buffers" v)
           (lines_of file) \/
    Forall (fun line => forall v, ~ PostgresApi.defines line "max_connections" v)
           (lines_of file))).
Proof.
  intros Hfs. unfold PostgresApi.read_config_file. rewrite Hfs.
  destruct (config_lines_outcome (lines_of file) ∅) as [[Hex Hr] | [Hall (cfg & Hr)]];
    rewrite Hr; cbn.
  - split; [done|]. intros [Hall _].
    apply Exists_exists in Hex as (line & Hin & Hm).
    rewrite Forall_forall in Hall. by destruct (Hall line Hin).
  - destruct (undecodable file); [split; [done | by intros (_ & ? & _)]|].
    destruct (config_lines_lookup _ _ Hr) as [Hs Hn].
    destruct (cfg !! "shared_buffers") as [sb|] eqn:Hsb.
    + destruct (cfg !! "max_connections") as [mc|] eqn:Hmc.
      * split; [done|]. intros (_ & _ & [Hno|Hno]); apply Hn in Hno; congruence.
      * split; [|done]. intros _. split; [done|]. split; [done|]. right. by apply Hn.
    + split; [|done]. intros _. split; [done|]. split; [done|]. left. by apply Hn.
Qed.

Lemma read_config_file_key_error_witness :
  (fun _ : string => Some (text_file "max_connections = 100")) "postgresql.conf"
    = Some (text_file "max_connections = 100") /\
  (PostgresApi.read_config_file (fun _ => Some (text_file "max_connections = 100"))
     "postgresql.conf" = Raises (Exception "KeyError") <->
   Forall (fun line => ~ PostgresApi.malformed line)
          (lines_of (text_file "max_connections = 100")) /\
   undecodable (text_file "max_connections = 100") = false /\
   (Forall (fun line => forall v, ~ PostgresApi.defines line "shared_buffers" v)
           (lines_of (text_file "max_connections = 100")) \/
    Forall (fun line => forall v, ~ PostgresApi.defines line "max_connections" v)
           (lines_of (text_file "max_connections = 100")))).
Proof.
  split; [reflexivity|].
  exact (read_config_file_key_error (fun _ => Some (text_file "max_connections = 100"))
           "postgresql.conf" (text_file "max_connections = 100") eq_refl).
Defined.

(** ** [generate_credentials]: the draws and the password *)

Lemma get_None (s : string) (n : nat) :
  String.get n s = None <-> (String.length s <= n)%nat.
Proof.
  revert n. induction s as [|a s IH]; intros n; cbn.
  - split; [lia | done].
  - destruct n as [|n]; [split; [done | lia]|]. rewrite IH. lia.
Qed.

Lemma get_join (chars : list ascii) (i : nat) : String.get i (join chars) = chars !! i.
Proof.
  unfold join. revert i. induction chars as [|c chars IH]; intros i; [done|].
  destruct i as [|i]; cbn; [done | apply IH].
Qed.

(** [choices] reads the draws [i], [i + 1], ... in turn: it returns the
    characters they index, or raises [IndexError] at a draw outside the
    population. *)
Lemma choices_draws population draw k : forall i,
  match choices population draw i k with
  | Returns chars =>
      length chars = k /\
      forall j, (j < k)%nat ->
        chars !! j = String.get (draw (i + j)%nat) population /\
        (draw (i + j)%nat < String.length population)%nat
  | Raises e =>
      e = Exception "IndexError" /\
      exists j, (j < k)%nat /\ (String.length population <= draw (i + j)%nat)%nat
  end.
Proof.
  induction k as [|k IH]; intros i; cbn [choices].
  - split; [done | lia].
  - destruct (String.get (draw i) population) as [c|] eqn:Hc.
    + specialize (IH (S i)).
      destruct (choices population draw (S i) k) as [rest|e]; cbn.
      * destruct IH as [Hlen Hget]. split; [by rewrite Hlen|].
        intros [|j] Hj.
        -- rewrite Nat.add_0_r. cbn. split; [done|].
           destruct (decide (draw i < String.length population)%nat); [done|].
           assert (String.get (draw i) population = None) by (apply get_None; lia).
           congruence.
        -- cbn. replace (i + S j)%nat with (S i + j)%nat by lia. apply Hget. lia.
      * destruct IH as [-> (j & Hj & Hout)]. split; [done|].
        exists (S j). split; [lia|]. by replace (i + S j)%nat with (S i + j)%nat by lia.
    + split; [done|]. exists 0%nat. split; [lia|].
      rewrite Nat.add_0_r. by apply get_None.
Qed.

Lemma choices_ext population draw draw' k : forall i,
  (forall j, (j < k)%nat -> draw' (i + j)%nat = draw (i + j)%nat) ->
  choices population draw' i k = choices population draw i k.
Proof.
  induction k as [|k IH]; intros i Heq; [done|]. cbn [choices].
  assert (H0 : draw' i = draw i).
  { specialize (Heq 0%nat). rewrite Nat.add_0_r in Heq. apply Heq. lia. }
  rewrite H0.
  destruct (String.get (draw i) population); [|done].
  rewrite (IH (S i)); [done|].
  intros j Hj. replace (S i + j)%nat with (i + S j)%nat by lia. apply Heq. lia.
Qed.

Lemma population_length : String.length (ascii_letters +:+ digits) = 62%nat.
Proof. reflexivity. Qed.

(** X12. [generate_credentials] reads the first sixteen draws of the
    generator and nothing else.  When it returns, the identifier is
    [postgres_user] and the character number [i] of the password is the
    character the draw number [i] indexes in the 62 letters and digits; it
    raises, and then [IndexError], exactly when one of the sixteen draws falls
    outside the 62 characters. *)
Theorem generate_credentials_draws (draw : nat -> nat) :
  (forall username password,
     PostgresApi.generate_credentials draw = Returns (username, password) ->
     username = "postgres_user" /\
     forall i, (i < 16)%nat ->
       (draw i < 62)%nat /\
       String.get i password = String.get (draw i) (ascii_letters +:+ digits)) /\
  (PostgresApi.generate_credentials draw = Raises (Exception "IndexError") <->
   exists i, (i < 16)%nat /\ (62 <= draw i)%nat) /\
  (forall e, PostgresApi.generate_credentials draw = Raises e ->
             e = Exception "IndexError") /\
  (forall draw', (forall i, (i < 16)%nat -> draw' i = draw i) ->
                 PostgresApi.generate_credentials draw' =
                 PostgresApi.generate_credentials draw).
Proof.
  unfold PostgresApi.generate_credentials.
  pose proof (choices_draws (ascii_letters +:+ digits) draw 16 0) as Hd.
  rewrite population_length in Hd.
  split; [|split; [|split]].
  - intros u pw Hr.
    destruct (choices _ draw 0 16) as [chars|e]; cbn in Hr; [|done].
    injection Hr as <- <-. split; [done|]. intros i Hi.
    destruct Hd as [_ Hget]. destruct (Hget i Hi) as [Hc Hlt]. cbn in Hc, Hlt.
    split; [exact Hlt|]. by rewrite get_join.
  - destruct (choices _ draw 0 16) as [chars|e]; cbn.
    + split; [done|]. intros (i & Hi & Hout).
      destruct Hd as [_ Hget]. destruct (Hget i Hi) as [_ Hlt]. cbn in Hlt. lia.
    + destruct Hd as [-> (j & Hj & Hout)]. split; [|done].
      intros _. exists j. split; [done|]. exact Hout.
  - intros e Hr. destruct (choices _ draw 0 16) as [chars|e']; cbn in Hr; [done|].
    injection Hr as <-. by destruct Hd as [-> _].
  - intros draw' Heq. by rewrite (choices_ext _ draw draw' 16 0) by (intros j Hj; by apply Heq).
Qed.

Lemma generate_credentials_draws_witness :
  (16 < 17)%nat /\ (62 <= 70)%nat /\
  PostgresApi.generate_credentials (fun i => if decide (i = 5%nat) then 70%nat else 0%nat)
    = Raises (Exception "IndexError").
Proof.
  split; [lia|]. split; [lia|].
  apply (proj2 (proj1 (proj2 (generate_credentials_draws
           (fun i => if decide (i = 5%nat) then 70%nat else 0%nat))))).
  exists 5%nat. split; [lia | rewrite decide_True by done; lia].
Defined.

(** ** [GET /status/all]: the answer as a whole *)

Lemma deployment_loop_returns api items : forall acc all_statuses,
  deployment_loop api items acc = Returns all_statuses <->
  exists new, all_statuses = acc ++ new /\
              Forall2 (entry_of api) (filter listed items) new.
Proof.
  induction items as [|d items IH]; intros acc all; cbn [deployment_loop].
  - split.
    + intros [= <-]. exists []. by rewrite app_nil_r.
    + intros (new & -> & Hf). apply Forall2_nil_inv_l in Hf as ->.
      by rewrite app_nil_r.
  - rewrite filter_cons. unfold listed at 1.
    destruct (decide (item_metadata_name d = _)) as [Hn|Hn].
    + rewrite decide_False by (by intros ?). apply IH.
    + rewrite decide_True by done.
      destruct (list_namespaced_pod api "default" ("app=" +:+ item_metadata_name d))
        as [pods|e] eqn:Hp; cbn.
      * rewrite IH. split.
        -- intros (new & -> & Hf).
           exists (status_of (item_metadata_name d) (spec_replicas d) pods :: new).
           rewrite <- app_assoc. split; [done|]. constructor; [|done]. by exists pods.
        -- intros (new & -> & Hf). apply Forall2_cons_inv_l in Hf
             as (st & new' & (pods' & Hp' & ->) & Hf & ->).
           rewrite Hp in Hp'. injection Hp' as <-.
           exists new'. by rewrite <- app_assoc.
      * split; [done|]. intros (new & _ & Hf).
        apply Forall2_cons_inv_l in Hf as (st & new' & (pods' & Hp' & _) & _).
        congruence.
Qed.

(** X13. [get_all_applications_status] answers with statuses exactly when
    the cluster lists the deployments and lists the pods of every deployment
    other than the ingress controller; the code is then 200, and the answer
    holds one entry per such deployment, in the order of the listing, each
    computed from the pods listed under the label [app={name}].  The ingress
    controller has no entry, and its pods are not asked for. *)
Theorem status_answer_entries
    (api : listing) (all_statuses : list application_status) (code : Z) :
  get_all_applications_status api = Returns (Statuses all_statuses code) <->
  code = 200 /\
  exists items,
    list_namespaced_deployment api "default" = Returns items /\
    Forall2 (entry_of api) (filter listed items) all_statuses.
Proof.
  unfold get_all_applications_status.
  destruct (list_namespaced_deployment api "default") as [items|e] eqn:Hd; cbn.
  - destruct (deployment_loop api items []) as [all|e] eqn:Hl.
    + apply deployment_loop_returns in Hl as (new & -> & Hf). cbn [app]. split.
      * intros [= <- <-]. split; [done|]. by exists items.
      * intros [-> (items' & [= <-] & Hf')].
        assert (Hrun : deployment_loop api items [] = Returns all_statuses)
          by (apply deployment_loop_returns; by exists all_statuses).
        assert (Hrun' : deployment_loop api items [] = Returns new)
          by (apply deployment_loop_returns; by exists new).
        congruence.
    + split; [by destruct e|]. intros [_ (items' & [= <-] & Hf)].
      assert (Hrun : deployment_loop api items [] = Returns all_statuses)
        by (apply deployment_loop_returns; by exists all_statuses).
      congruence.
  - split; [by destruct e|]. by intros [_ (items' & ? & _)].
Qed.

Lemma status_answer_entries_witness :
  get_all_applications_status Scenario.web =
    Returns (Statuses
      [status_of "web" (Some 2)
         [Scenario.pod "A" "Running" (Some [Scenario.running_container]);
          Scenario.pod "B" "Pending"
            (Some [Scenario.waiting_container false "ImagePullBackOff"])]] 200).
Proof.
  apply (proj2 (status_answer_entries Scenario.web _ 200)).
  split; [reflexivity|].
  exists [{| item_metadata_name := "web"; spec_replicas := Some 2 |}].
  split; [reflexivity|].
  rewrite filter_cons, decide_True by (unfold listed; cbn; discriminate).
  constructor; [|constructor]. eexists. split; reflexivity.
Defined.

(** The loop stops at the first deployment it lists whose pods the cluster
    does not list, with the exception of that call. *)
Lemma deployment_loop_raises api l1 d l2 e : forall all_statuses,
  Forall (fun d' => listed d' ->
            exists pods,
              list_namespaced_pod api "default" ("app=" +:+ item_metadata_name d')
                = Returns pods) l1 ->
  listed d ->
  list_namespaced_pod api "default" ("app=" +:+ item_metadata_name d) = Raises e ->
  deployment_loop api (l1 ++ d :: l2) all_statuses = Raises e.
Proof.
  induction l1 as [|d' l1 IH]; intros acc Hl1 Hl Hp; cbn [app deployment_loop].
  - rewrite decide_False by exact Hl. by rewrite Hp.
  - apply Forall_cons in Hl1 as [Hd' Hl1].
    destruct (decide (item_metadata_name d' = _)) as [Hn|Hn]; [by apply IH|].
    destruct (Hd' Hn) as [pods ->]. cbn. by apply IH.
Qed.

(** X14. An exception of a listing call ends the request without any
    status: an [ApiException], from the listing of the deployments or from
    the first listing of pods that fails, is answered with the exception and
    500, whatever its status; any other exception leaves the handler.  A
    failure always comes from one of these calls, and no status is returned
    when the pods of some listed deployment cannot be listed. *)
Theorem status_answer_failure (api : listing) :
  (forall e code,
     get_all_applications_status api = Returns (Failure e code) ->
     code = 500 /\ exists status, e = ApiException status) /\
  (forall e, get_all_applications_status api = Raises e -> exists cls, e = Exception cls) /\
  (forall e,
     list_namespaced_deployment api "default" = Raises e ->
     get_all_applications_status api =
       match e with
       | ApiException _ => Returns (Failure e 500)
       | Exception _ => Raises e
       end) /\
  (forall l1 d l2 e,
     list_namespaced_deployment api "default" = Returns (l1 ++ d :: l2) ->
     Forall (fun d' => listed d' ->
               exists pods,
                 list_namespaced_pod api "default" ("app=" +:+ item_metadata_name d')
                   = Returns pods) l1 ->
     listed d ->
     list_namespaced_pod api "default" ("app=" +:+ item_metadata_name d) = Raises e ->
     get_all_applications_status api =
       match e with
       | ApiException _ => Returns (Failure e 500)
       | Exception _ => Raises e
       end) /\
  (forall items d e,
     list_namespaced_deployment api "default" = Returns items ->
     d ∈ items -> listed d ->
     list_namespaced_pod api "default" ("app=" +:+ item_metadata_name d) = Raises e ->
     forall all_statuses code,
       get_all_applications_status api <> Returns (Statuses all_statuses code)).
Proof.
  split; [|split; [|split; [|split]]].
  - unfold get_all_applications_status. intros e code.
    destruct (list_namespaced_deployment api "default") as [items|e0]; cbn.
    + destruct (deployment_loop api items []) as [all|[s|cls]]; [done| |done].
      intros [= <- <-]. split; [done | by eexists].
    + destruct e0 as [s|cls]; [|done]. intros [= <- <-]. split; [done | by eexists].
  - unfold get_all_applications_status. intros e.
    destruct (list_namespaced_deployment api "default") as [items|e0]; cbn.
    + destruct (deployment_loop api items []) as [all|[s|cls]]; [done|done|].
      intros [= <-]. by eexists.
    + destruct e0 as [s|cls]; [done|]. intros [= <-]. by eexists.
  - intros e He. unfold get_all_applications_status. rewrite He. by destruct e.
  - intros l1 d l2 e Hitems Hl1 Hl Hp. unfold get_all_applications_status.
    rewrite Hitems. cbn. rewrite (deployment_loop_raises _ _ _ _ _ _ Hl1 Hl Hp).
    by destruct e.
  - intros items d e Hitems Hd Hl Hp all code Hrun.
    unfold get_all_applications_status in Hrun. rewrite Hitems in Hrun. cbn in Hrun.
    destruct (deployment_loop api items []) as [all'|e'] eqn:Hloop; [|by destruct e'].
    apply deployment_loop_returns in Hloop as (new & _ & Hf).
    assert (Hin : d ∈ filter listed items) by (by apply list_elem_of_filter).
    apply list_elem_of_lookup in Hin as [i Hi].
    destruct (Forall2_lookup_l _ _ _ _ _ Hf Hi) as (st & _ & (pods & Hp' & _)).
    congruence.
Qed.

Lemma status_answer_failure_witness :
  get_all_applications_status
    {| list_namespaced_deployment := fun _ => Raises (ApiException 403);
       list_namespaced_pod := fun _ _ => Returns [] |}
  = Returns (Failure (ApiException 403) 500) /\
  get_all_applications_status
    {| list_namespaced_deployment := fun _ =>
         Returns [{| item_metadata_name := "web"; spec_replicas := Some 2 |};
                  {| item_metadata_name := "db"; spec_replicas := Some 1 |}];
       list_namespaced_pod := fun _ label_selector =>
         if decide (label_selector = "app=web") then Returns []
         else Raises (ApiException 404) |}
  = Returns (Failure (ApiException 404) 500).
Proof.
  split.
  - exact (proj1 (proj2 (proj2 (status_answer_failure
             {| list_namespaced_deployment := fun _ => Raises (ApiException 403);
                list_namespaced_pod := fun _ _ => Returns [] |})))
             (ApiException 403) eq_refl).
  - apply (proj1 (proj2 (proj2 (proj2 (status_answer_failure
             {| list_namespaced_deployment := fun _ =>
                  Returns [{| item_metadata_name := "web"; spec_replicas := Some 2 |};
                           {| item_metadata_name := "db"; spec_replicas := Some 1 |}];
                list_namespaced_pod := fun _ label_selector =>
                  if decide (label_selector = "app=web") then Returns []
                  else Raises (ApiException 404) |}))))
             [{| item_metadata_name := "web"; spec_replicas := Some 2 |}]
             {| item_metadata_name := "db"; spec_replicas := Some 1 |} []
             (ApiException 404)).
    + reflexivity.
    + apply Forall_singleton. intros _. by exists [].
    + unfold listed. cbn. discriminate.
    + reflexivity.
Defined.

(** ** [GET /status/all]: one entry *)

Lemma length_filter_all {A} (P : A -> Prop) `{!forall x, Decision (P x)} (l : list A) :
  length (filter P l) = length l <-> Forall P l.
Proof.
  induction l as [|x l IH]; [split; [constructor | done]|].
  rewrite filter_cons, Forall_cons. pose proof (length_filter P l) as Hle.
  destruct (decide (P x)); cbn [length].
  - rewrite <- IH. split; [intros [= ?]; by split | intros [_ ->]; done].
  - split; [lia | tauto].
Qed.

(** X15. In every entry of the answer, the pod statuses are those of the
    pods listed for the workload, one per pod and in the order of the
    listing; the ready replicas lie between zero and the number of these
    pods, whatever the declared replicas are, and reach that number exactly
    when every listed pod has raw phase [Running] with all its containers
    ready. *)
Theorem status_entry_bounds
    (api : listing) (all_statuses : list application_status)
    (st : application_status) :
  get_all_applications_status api = Returns (Statuses all_statuses 200) ->
  st ∈ all_statuses ->
  exists pods,
    list_namespaced_pod api "default" ("app=" +:+ DeploymentName st) = Returns pods /\
    Name <$> PodStatuses st = pod_metadata_name <$> pods /\
    Phase <$> PodStatuses st = pod_phase <$> pods /\
    0 <= ReadyReplicas st <= Z.of_nat (length (PodStatuses st)) /\
    (ReadyReplicas st = Z.of_nat (length (PodStatuses st)) <->
     Forall running_and_ready pods).
Proof.
  intros Hrun Hst. apply status_entries in Hrun as [_ Hall].
  rewrite Forall_forall in Hall.
  destruct (Hall st Hst) as (pods & Hp & Hr & Hs).
  exists pods. split; [done|]. rewrite Hs, Hr, length_fmap.
  split; [by rewrite <- list_fmap_compose|].
  split; [by rewrite <- list_fmap_compose|].
  pose proof (length_filter running_and_ready pods) as Hle.
  split; [lia|]. rewrite <- length_filter_all. apply Nat2Z.inj_iff.
Qed.

Lemma status_entry_bounds_witness :
  exists pods,
    list_namespaced_pod Scenario.web "default"
      ("app=" +:+ DeploymentName
         (status_of "web" (Some 2)
            [Scenario.pod "A" "Running" (Some [Scenario.running_container]);
             Scenario.pod "B" "Pending"
               (Some [Scenario.waiting_container false "ImagePullBackOff"])]))
      = Returns pods /\
    length pods = 2%nat.
Proof.
  destruct (status_entry_bounds Scenario.web
              [status_of "web" (Some 2)
                 [Scenario.pod "A" "Running" (Some [Scenario.running_container]);
                  Scenario.pod "B" "Pending"
                    (Some [Scenario.waiting_container false "ImagePullBackOff"])]]
              (status_of "web" (Some 2)
                 [Scenario.pod "A" "Running" (Some [Scenario.running_container]);
                  Scenario.pod "B" "Pending"
                    (Some [Scenario.waiting_container false "ImagePullBackOff"])]))
    as (pods & Hp & Hn & _).
  - vm_compute. reflexivity.
  - apply list_elem_of_here.
  - exists pods. split; [exact Hp|].
    apply (f_equal length) in Hn. rewrite !length_fmap in Hn. rewrite <- Hn.
    reflexivity.
Defined.

(** ** The phase of a pod *)

Lemma scan_phase_unblocked statuses : forall phase,
  Forall (fun c => ~ blocked c) statuses ->
  scan_phase phase statuses =
  if decide (Exists completed statuses) then "Completed" else phase.
Proof.
  induction statuses as [|c rest IH]; intros phase Hall.
  - rewrite decide_False; [done|]. by intros ?%Exists_nil.
  - apply Forall_cons in Hall as [Hc Hall].
    rewrite (scan_phase_not_blocked _ _ _ Hc), (IH _ Hall).
    destruct (decide (Exists completed rest)) as [Hex|Hnex].
    + rewrite decide_True; [done|]. by apply Exists_cons_tl.
    + destruct (decide (completed c)) as [Hcc|Hcc].
      * rewrite decide_True; [done|]. by apply Exists_cons_hd.
      * rewrite decide_False; [done|]. by intros [?|?]%Exists_cons.
Qed.

(** X16. The phase a pod is reported with is its raw phase, [Completed],
    or one of the four waiting reasons.  When no container is waiting with one
    of the four reasons, it is [Completed] if some container is terminated
    with reason [Completed], and the raw phase otherwise. *)
Theorem phase_without_waiting_reason (pod : V1Pod) :
  pod_phase pod ∈ status_phase pod :: "Completed" :: waiting_reasons /\
  (Forall (fun c => ~ blocked c) (statuses_or_empty pod) ->
   pod_phase pod =
     if decide (Exists completed (statuses_or_empty pod)) then "Completed"
     else status_phase pod).
Proof.
  unfold pod_phase. split; [|apply scan_phase_unblocked].
  destruct (scan_phase_cases (statuses_or_empty pod) (status_phase pod))
    as [[_ ->] | [_ [H | ->]]].
  - apply list_elem_of_here.
  - by do 2 apply list_elem_of_further.
  - apply list_elem_of_further, list_elem_of_here.
Qed.

Lemma phase_without_waiting_reason_witness :
  pod_phase (Scenario.pod "A" "Running" (Some [Scenario.running_container])) =
    (if decide (Exists completed
                  (statuses_or_empty
                     (Scenario.pod "A" "Running" (Some [Scenario.running_container]))))
     then "Completed"
     else status_phase (Scenario.pod "A" "Running" (Some [Scenario.running_container]))).
Proof.
  apply (proj2 (phase_without_waiting_reason
           (Scenario.pod "A" "Running" (Some [Scenario.running_container])))).
  apply Forall_singleton. intros (r & (w & Hw & _) & _). discriminate Hw.
Defined.

(** X17. The first container, in the order of the status list, that is
    waiting with one of the four reasons decides the phase: the pod is
    reported with that reason, whatever its raw phase, the terminated states
    before that container, and the containers after it. *)
Theorem first_waiting_reason_wins
    (pod : V1Pod) (l1 : list V1ContainerStatus) (c : V1ContainerStatus)
    (l2 : list V1ContainerStatus) (r : string) :
  statuses_or_empty pod = l1 ++ c :: l2 ->
  Forall (fun c' => ~ blocked c') l1 ->
  waits_for c r -> r ∈ waiting_reasons ->
  pod_phase pod = r.
Proof.
  intros Hst Hl1 Hw Hin. unfold pod_phase. rewrite Hst.
  apply scan_phase_first_reason; [done..|].
  eapply Forall_impl; [exact Hl1|]. intros c' Hnb r' Hw' Hin'.
  destruct Hnb. by exists r'.
Qed.

Lemma first_waiting_reason_wins_witness :
  pod_phase (Scenario.pod "x" "Running"
               (Some [Scenario.running_container;
                      Scenario.waiting_container false "ErrImagePull";
                      Scenario.waiting_container false "CrashLoopBackOff"]))
    = "ErrImagePull".
Proof.
  apply (first_waiting_reason_wins _ [Scenario.running_container]
           (Scenario.waiting_container false "ErrImagePull")
           [Scenario.waiting_container false "CrashLoopBackOff"]).
  - reflexivity.
  - apply Forall_singleton. intros (r & (w & Hw & _) & _). discriminate Hw.
  - eexists. split; reflexivity.
  - do 2 apply list_elem_of_further. apply list_elem_of_here.
Defined.

Lemma containers_ready_flags l l' :
  ready <$> l = ready <$> l' -> containers_ready l = containers_ready l'.
Proof.
  revert l'. induction l as [|c l IH]; intros [|c' l'] Heq; try done.
  cbn in Heq. injection Heq as Hc Hl. cbn. rewrite Hc.
  destruct (ready c'); cbn; [by apply IH | done].
Qed.

Lemma scan_phase_states l l' : forall phase,
  state <$> l = state <$> l' -> scan_phase phase l = scan_phase phase l'.
Proof.
  revert l'. induction l as [|c l IH]; intros [|c' l'] phase Heq; try done.
  cbn in Heq. injection Heq as Hc Hl. cbn [scan_phase]. rewrite Hc.
  rewrite !(IH l' _ Hl). done.
Qed.

(** X18. Readiness and phase are computed apart: whether a pod counts as
    ready depends on its raw phase and on the ready flags of its containers
    only, not on their states; the phase it is reported with depends on its
    raw phase and on the states of its containers only, not on their ready
    flags. *)
Theorem readiness_and_phase_apart (pod pod' : V1Pod) :
  status_phase pod = status_phase pod' ->
  (ready <$> statuses_or_empty pod = ready <$> statuses_or_empty pod' ->
   pod_ready pod = pod_ready pod') /\
  (state <$> statuses_or_empty pod = state <$> statuses_or_empty pod' ->
   pod_phase pod = pod_phase pod').
Proof.
  intros Hphase. split; intros Heq.
  - unfold pod_ready. by rewrite Hphase, (containers_ready_flags _ _ Heq).
  - unfold pod_phase. by rewrite Hphase, (scan_phase_states _ _ _ Heq).
Qed.

Lemma readiness_and_phase_apart_witness :
  pod_phase (Scenario.pod "x" "Running"
               (Some [Scenario.waiting_container true "CrashLoopBackOff"])) =
  pod_phase (Scenario.pod "y" "Running"
               (Some [Scenario.waiting_container false "CrashLoopBackOff"])).
Proof.
  exact (proj2 (readiness_and_phase_apart
           (Scenario.pod "x" "Running"
              (Some [Scenario.waiting_container true "CrashLoopBackOff"]))
           (Scenario.pod "y" "Running"
              (Some [Scenario.waiting_container false "CrashLoopBackOff"]))
           eq_refl) eq_refl).
Defined.

(** ** The encoding of the secret values loses nothing *)

(** A boolean check on every number below [n] holds of each of them. *)
Lemma check_below (P : N -> bool) (n : nat) :
  forallb P (map N.of_nat (seq 0 n)) = true ->
  forall x : N, (x < N.of_nat n)%N -> P x = true.
Proof.
  intros Hall x Hx. rewrite forallb_forall in Hall. apply Hall.
  apply in_map_iff. exists (N.to_nat x). split; [apply N2Nat.id|].
  apply in_seq. lia.
Qed.

Lemma b64_digit_index (n : N) :
  (n < 64)%N ->
  b64_index (b64_digit n) = Some n /\ Ascii.eqb (b64_digit n) "=" = false.
Proof.
  intros Hn. pose proof (check_below
    (fun n => match b64_index (b64_digit n) with
              | Some m => (m =? n)%N
              | None => false
              end && negb (Ascii.eqb (b64_digit n) "=")) 64 eq_refl n Hn) as H.
  cbn beta in H. apply andb_true_iff in H as [H1 H2].
  destruct (b64_index (b64_digit n)) as [m|]; [|done].
  apply N.eqb_eq in H1 as ->. split; [done|]. by apply negb_true_iff.
Qed.

(** A byte splits into its high six and low two bits, its high four and low
    four, its high two and low six. *)
Lemma byte_split (x : N) :
  (x < 256)%N ->
  ((N.shiftr x 2 < 64 /\ N.land x 3 < 4 /\
    N.lor (N.shiftl (N.shiftr x 2) 2) (N.land x 3) = x) /\
   (N.shiftr x 4 < 16 /\ N.land x 15 < 16 /\
    N.lor (N.shiftl (N.shiftr x 4) 4) (N.land x 15) = x) /\
   (N.shiftr x 6 < 4 /\ N.land x 63 < 64 /\
    N.lor (N.shiftl (N.shiftr x 6) 6) (N.land x 63) = x))%N.
Proof.
  intros Hx. pose proof (check_below
    (fun x => ((N.shiftr x 2 <? 64) && (N.land x 3 <? 4) &&
               (N.lor (N.shiftl (N.shiftr x 2) 2) (N.land x 3) =? x) &&
               (N.shiftr x 4 <? 16) && (N.land x 15 <? 16) &&
               (N.lor (N.shiftl (N.shiftr x 4) 4) (N.land x 15) =? x) &&
               (N.shiftr x 6 <? 4) && (N.land x 63 <? 64) &&
               (N.lor (N.shiftl (N.shiftr x 6) 6) (N.land x 63) =? x))%N)
    256 eq_refl x Hx) as H.
  cbn beta in H. rewrite !andb_true_iff, !N.ltb_lt, !N.eqb_eq in H. tauto.
Qed.

(** Two bits above four, and four bits above two, make a sextet that gives
    both back. *)
Lemma sextet_join (a t : N) :
  ((a < 4 -> t < 16 ->
    N.lor (N.shiftl a 4) t < 64 /\ N.shiftr (N.lor (N.shiftl a 4) t) 4 = a /\
    N.land (N.lor (N.shiftl a 4) t) 15 = t) /\
   (a < 16 -> t < 4 ->
    N.lor (N.shiftl a 2) t < 64 /\ N.shiftr (N.lor (N.shiftl a 2) t) 2 = a /\
    N.land (N.lor (N.shiftl a 2) t) 3 = t))%N.
Proof.
  split; intros Ha Ht.
  - pose proof (check_below (fun a => forallb (fun t =>
      ((N.lor (N.shiftl a 4) t <? 64) && (N.shiftr (N.lor (N.shiftl a 4) t) 4 =? a) &&
       (N.land (N.lor (N.shiftl a 4) t) 15 =? t))%N) (map N.of_nat (seq 0 16)))
      4 eq_refl a Ha) as H.
    cbn beta in H. pose proof (check_below _ 16 H t Ht) as H'.
    cbn beta in H'. rewrite !andb_true_iff, !N.ltb_lt, !N.eqb_eq in H'. tauto.
  - pose proof (check_below (fun a => forallb (fun t =>
      ((N.lor (N.shiftl a 2) t <? 64) && (N.shiftr (N.lor (N.shiftl a 2) t) 2 =? a) &&
       (N.land (N.lor (N.shiftl a 2) t) 3 =? t))%N) (map N.of_nat (seq 0 4)))
      16 eq_refl a Ha) as H.
    cbn beta in H. pose proof (check_below _ 4 H t Ht) as H'.
    cbn beta in H'. rewrite !andb_true_iff, !N.ltb_lt, !N.eqb_eq in H'. tauto.
Qed.

Lemma b64decode_b64encode (s : string) : b64decode (b64encode s) = Some s.
Proof.
  enough (H : forall n s, (String.length s < n)%nat -> b64decode (b64encode s) = Some s)
    by (apply (H (S (String.length s))); lia).
  clear s. induction n as [|n IH]; intros s Hlen; [lia|].
  destruct s as [|a [|b [|c rest]]]; cbn [b64encode]; [done| | |].
  - set (x := N_of_ascii a).
    destruct (byte_split x (N_ascii_bounded a)) as ((Hx1 & Hx2 & Hx3) & _).
    destruct (proj1 (sextet_join (N.land x 3) 0) Hx2 ltac:(lia)) as (Hd1 & Hs1 & _).
    rewrite N.lor_0_r in Hd1, Hs1.
    destruct (b64_digit_index _ Hx1) as [Hi0 _].
    destruct (b64_digit_index _ Hd1) as [Hi1 _].
    cbn [b64decode]. rewrite Hi0, Hi1. cbn [Ascii.eqb Bool.eqb].
    rewrite Hs1, Hx3. unfold x. by rewrite ascii_N_embedding.
  - set (x := N_of_ascii a). set (y := N_of_ascii b).
    destruct (byte_split x (N_ascii_bounded a)) as ((Hx1 & Hx2 & Hx3) & _).
    destruct (byte_split y (N_ascii_bounded b)) as (_ & (Hy1 & Hy2 & Hy3) & _).
    destruct (proj1 (sextet_join (N.land x 3) (N.shiftr y 4)) Hx2 Hy1)
      as (Hd1 & Hs1 & Hl1).
    destruct (proj2 (sextet_join (N.land y 15) 0) Hy2 ltac:(lia)) as (Hd2 & Hs2 & _).
    rewrite N.lor_0_r in Hd2, Hs2.
    destruct (b64_digit_index _ Hx1) as [Hi0 _].
    destruct (b64_digit_index _ Hd1) as [Hi1 _].
    destruct (b64_digit_index _ Hd2) as [Hi2 He2].
    cbn [b64decode]. rewrite Hi0, Hi1, He2, Hi2. cbn [Ascii.eqb Bool.eqb].
    rewrite Hs1, Hx3, Hl1, Hs2, Hy3. unfold x, y. by rewrite !ascii_N_embedding.
  - set (x := N_of_ascii a). set (y := N_of_ascii b). set (z := N_of_ascii c).
    destruct (byte_split x (N_ascii_bounded a)) as ((Hx1 & Hx2 & Hx3) & _).
    destruct (byte_split y (N_ascii_bounded b)) as (_ & (Hy1 & Hy2 & Hy3) & _).
    destruct (byte_split z (N_ascii_bounded c)) as (_ & _ & (Hz1 & Hz2 & Hz3)).
    destruct (proj1 (sextet_join (N.land x 3) (N.shiftr y 4)) Hx2 Hy1)
      as (Hd1 & Hs1 & Hl1).
    destruct (proj2 (sextet_join (N.land y 15) (N.shiftr z 6)) Hy2 Hz1)
      as (Hd2 & Hs2 & Hl2).
    destruct (b64_digit_index _ Hx1) as [Hi0 _].
    destruct (b64_digit_index _ Hd1) as [Hi1 _].
    destruct (b64_digit_index _ Hd2) as [Hi2 He2].
    destruct (b64_digit_index _ Hz2) as [Hi3 He3].
    cbn [b64decode]. rewrite Hi0, Hi1, He2, Hi2, He3, Hi3.
    rewrite IH by (cbn in Hlen; lia).
    rewrite Hs1, Hx3, Hl1, Hs2, Hy3, Hl2, Hz3. unfold x, y, z.
    by rewrite !ascii_N_embedding.
Qed.

Lemma b64encode_inj (s1 s2 : string) : b64encode s1 = b64encode s2 -> s1 = s2.
Proof.
  intros Heq. apply (f_equal b64decode) in Heq.
  rewrite !b64decode_b64encode in Heq. by injection Heq.
Qed.

Lemma secret_data_of_last_marked envs k v :
  Service1.last_marked envs k v <->
  Service1.secret_data_of envs !! k = Some (b64encode v).
Proof.
  rewrite secret_data_of_lookup. unfold Service1.last_marked. split.
  - intros (l1 & e & l2 & Heq & Hs & Hk & Hv & Hl2). exists l1, e, l2. by rewrite Hv.
  - intros (l1 & e & l2 & Heq & Hs & Hk & Hv & Hl2). exists l1, e, l2.
    apply b64encode_inj in Hv. done.
Qed.

(** X19. The payload of the secret loses nothing of the secret values: a
    key is bound in it exactly when some entry marked secret has that key,
    and two environments that give the same payload agree, key by key, on the
    value of the last entry marked secret. *)
Theorem secret_payload_lossless
    (envs envs' : list Service1.Env) (k v : string) :
  Service1.secret_data_of envs = Service1.secret_data_of envs' ->
  (Service1.last_marked envs k v <-> Service1.last_marked envs' k v) /\
  (is_Some (Service1.secret_data_of envs !! k) <->
   exists v', Service1.last_marked envs k v').
Proof.
  intros Heq. split.
  - by rewrite !secret_data_of_last_marked, Heq.
  - split.
    + intros [w Hw]. apply secret_data_of_lookup in Hw
        as (l1 & e & l2 & Henvs & Hs & Hk & -> & Hl2).
      exists (Service1.Value e). by exists l1, e, l2.
    + intros [v' Hv']. apply secret_data_of_last_marked in Hv'. by eexists.
Qed.

Lemma secret_payload_lossless_witness :
  Service1.last_marked (Service1.Envs Scenario.api1) "TOKEN" "abc" <->
  Service1.last_marked
    [{| Service1.Key := "TOKEN"; Service1.Value := "abc"; Service1.IsSecret := true |}]
    "TOKEN" "abc".
Proof.
  apply (proj1 (secret_payload_lossless (Service1.Envs Scenario.api1)
           [{| Service1.Key := "TOKEN"; Service1.Value := "abc";
               Service1.IsSecret := true |}] "TOKEN" "abc" eq_refl)).
Defined.

(** ** Names of different applications *)

Lemma length_append (s t : string) :
  String.length (s +:+ t) = (String.length s + String.length t)%nat.
Proof.
  induction s as [|a s IH]; [done|].
  change (String a s +:+ t) with (String a (s +:+ t)). cbn. by rewrite IH.
Qed.

Lemma append_inj_r (s s' t : string) : s +:+ t = s' +:+ t -> s = s'.
Proof.
  revert s'. induction s as [|a s IH]; intros [|b s'] Heq; [done| | |].
  - apply (f_equal String.length) in Heq.
    rewrite !length_append in Heq. cbn in Heq. lia.
  - apply (f_equal String.length) in Heq.
    rewrite !length_append in Heq. cbn in Heq. lia.
  - change (String a s +:+ t) with (String a (s +:+ t)) in Heq.
    change (String b s' +:+ t) with (String b (s' +:+ t)) in Heq.
    injection Heq as -> Heq. f_equal. by apply IH.
Qed.

Lemma derived_name_inj (k : kind) (app_name app_name' : string) :
  derived_name app_name k = derived_name app_name' k -> app_name = app_name'.
Proof. destruct k; cbn; first [apply append_inj_r | done]. Qed.

Lemma service1_call_name api data c :
  c ∈ calls (Service1.deploy_application api data).2 ->
  metadata_name c = derived_name (Service1.AppName data) (kind_of c).
Proof.
  intros Hin. destruct (service1_planned_names data) as [Hn _].
  pose proof (calls_submit_all_prefix api (Service1.planned data)) as Hp.
  rewrite <- service1_log in Hp.
  pose proof (Forall_prefix _ _ _ Hp Hn) as Hall.
  rewrite Forall_forall in Hall. by apply Hall.
Qed.

Lemma postgres_call_name api fs draw data c :
  c ∈ calls (PostgresApi.deploy_postgres api fs draw data).2 ->
  metadata_name c = derived_name (PostgresApi.AppName data) (kind_of c).
Proof.
  intros Hin.
  destruct (postgres_calls_prefix api fs draw data) as [Hnil | (cfg & cr & _ & _ & Hp)].
  - rewrite Hnil in Hin. by apply elem_of_nil in Hin.
  - destruct (postgres_planned_names data cfg cr.1 cr.2) as (Hn & _).
    pose proof (Forall_prefix _ _ _ Hp Hn) as Hall.
    rewrite Forall_forall in Hall. by apply Hall.
Qed.

(** X20. Requests for different applications never ask for the same
    resource: when two calls, of two [/deploy] requests, of two
    [/deploy_postgres] requests, or of one of each, create resources of the
    same kind under the same name, the two requests carry the same
    application name. *)
Theorem names_separate_applications
    (api api' : cluster) (fs fs' : string -> option TextIO) (draw draw' : nat -> nat)
    (data data' : Service1.DeployRequest)
    (pdata pdata' : PostgresApi.PostgresRequest) (c c' : call) :
  kind_of c = kind_of c' -> metadata_name c = metadata_name c' ->
  (c ∈ calls (Service1.deploy_application api data).2 ->
   c' ∈ calls (Service1.deploy_application api' data').2 ->
   Service1.AppName data = Service1.AppName data') /\
  (c ∈ calls (PostgresApi.deploy_postgres api fs draw pdata).2 ->
   c' ∈ calls (PostgresApi.deploy_postgres api' fs' draw' pdata').2 ->
   PostgresApi.AppName pdata = PostgresApi.AppName pdata') /\
  (c ∈ calls (Service1.deploy_application api data).2 ->
   c' ∈ calls (PostgresApi.deploy_postgres api' fs' draw' pdata').2 ->
   Service1.AppName data = PostgresApi.AppName pdata').
Proof.
  intros Hk Hn. split; [|split]; intros Hc Hc'.
  - apply service1_call_name in Hc, Hc'.
    apply (derived_name_inj (kind_of c)). rewrite Hk at 2. congruence.
  - apply postgres_call_name in Hc, Hc'.
    apply (derived_name_inj (kind_of c)). rewrite Hk at 2. congruence.
  - apply service1_call_name in Hc. apply postgres_call_name in Hc'.
    apply (derived_name_inj (kind_of c)). rewrite Hk at 2. congruence.
Qed.

Lemma names_separate_applications_witness :
  Service1.AppName Scenario.api1 = Service1.AppName Scenario.api1.
Proof.
  apply (proj1 (names_separate_applications accept_all
           (Scenario.refuse_at 2 (ApiException 409)) Scenario.fs_ok Scenario.fs_ok
           Scenario.draw_ok Scenario.draw_ok Scenario.api1 Scenario.api1
           (Scenario.db true) (Scenario.db true)
           (create_namespaced_service "default" (Service1.service_body "api1" 8080))
           (create_namespaced_service "default" (Service1.service_body "api1" 8080))
           eq_refl eq_refl)).
  - vm_compute. do 2 apply list_elem_of_further. apply list_elem_of_here.
  - vm_compute. do 2 apply list_elem_of_further. apply list_elem_of_here.
Defined.
